(** * Kahani: messaging gateway and voice-note schema

    A shallow embedding of the Twilio WhatsApp gateway module
    ([normalizePhoneNumber], [validateE164], [retryWithBackoff],
    [sendTextMessageWithRetry], [downloadVoiceNoteMedia],
    [downloadMediaFile]) and of the SQL migration that creates the
    [free_trials] and [voice_notes] tables.

    Conventions.
    - A JavaScript string is a [string]: a sequence of code units below
      256. The character classes the code tests are ASCII ones ([\d],
      [\D], [/], [?]); the white space that [parseInt] skips is, among
      these code units, the ASCII white space and U+00A0.
    - A property of an error that holds a number holds an integer, a [Z];
      [NaN] is [None] where a conversion can give it. The result of
      [parseInt] is a [JsOps.Num]: the doubles that hold an integer, and
      [NaN], [-0] and the infinities.
    - The Twilio library is not part of the repository. Of it the model has
      what the gateway can observe before a request is sent: the
      constructor [twilio(accountSid, authToken)] throws when the account
      SID does not start with [AC], and a resource whose path would hold an
      identifier with a slash or a question mark throws in place of
      sending.
    - An [async] function is a state-and-exception computation: it takes the
      state of the system and returns an outcome (a value or a thrown value)
      and the next state. [await] is sequencing.
    - [console.log], [console.warn] and [console.error] print only; their
      output is not modelled, but the property reads that build their
      arguments are, since a property read can throw. *)

From Stdlib Require Import ZArith List Bool Ascii Lia.
From Stdlib Require String.
From stdpp Require Import gmap strings list fin_maps.
From Equations Require Import Equations.

Local Open Scope Z_scope.

(* ===================================================================== *)
(** * Part I. Definitions                                                 *)
(* ===================================================================== *)

(** ** JavaScript strings *)

Module Js.

(** [\d]: an ASCII decimal digit. *)
Definition is_digit (c : ascii) : bool :=
  let n := nat_of_ascii c in (48 <=? n)%nat && (n <=? 57)%nat.

Definition chars (s : string) : list ascii := String.list_ascii_of_string s.
Definition of_chars (l : list ascii) : string := String.string_of_list_ascii l.

(** [s.length] *)
Definition strlen (s : string) : Z := Z.of_nat (String.length s).

(** [s.startsWith(p)] *)
Definition startsWith (p s : string) : bool := String.prefix p s.

(** [s.replace(/\D/g, "")]: delete every character that is not a digit. *)
Definition remove_non_digits (s : string) : string :=
  of_chars (List.filter is_digit (chars s)).

(** Every character of [s] is a digit. *)
Definition digits_only (s : string) : bool := forallb is_digit (chars s).

End Js.

(** ** Phone numbers *)

Definition normalizePhoneNumber (phone : string) : string :=
  let cleaned := Js.remove_non_digits phone in
  if Js.startsWith "91" cleaned && (Js.strlen cleaned =? 12) then cleaned
  else if Js.strlen cleaned =? 10 then "91" +:+ cleaned
  else cleaned.

(** [/^\d{10,15}$/.test(phone)]: without the [m] flag, [^] and [$] are the
    two ends of the input, so the whole string is 10 to 15 digits. *)
Definition validateE164 (phone : string) : bool :=
  Js.digits_only phone && (10 <=? Js.strlen phone) && (Js.strlen phone <=? 15).

(** ** JavaScript values and thrown values *)

Inductive JsVal :=
| JUndefined
| JNull
| JBool (b : bool)
| JNum (n : Z)
| JStr (s : string).

(** What the gateway reads of an [Error] object: [error.message],
    [error.status] and [error.code]. A Twilio [RestException] has a numeric
    HTTP [status] and a numeric Twilio [code]; a network error has a string
    [code] and no [status]. *)
Record JsError := {
  message : JsVal;
  status : JsVal;
  code : JsVal
}.

(** A thrown value ([catch (error: any)]) is an error object or a primitive. *)
Inductive Thrown :=
| ThrownErr (e : JsError)
| ThrownVal (v : JsVal).

Inductive Outcome (A : Type) :=
| Ok (a : A)
| Throw (t : Thrown).
Arguments Ok {A} a.
Arguments Throw {A} t.

Module JsOps.

(** ToBoolean *)
Definition truthy (v : JsVal) : bool :=
  match v with
  | JUndefined | JNull => false
  | JBool b => b
  | JNum n => negb (n =? 0)
  | JStr s => negb (String.eqb s "")
  end.

(** [v === n] for a number literal [n] *)
Definition strict_eq_num (v : JsVal) (n : Z) : bool :=
  match v with JNum m => m =? n | _ => false end.

(** ToNumber; [None] is [NaN]. The numeric value of a string is the
    language's StringToNumber, which is passed in. *)
Definition to_number (StringToNumber : string -> option Z) (v : JsVal) : option Z :=
  match v with
  | JUndefined => None
  | JNull => Some 0
  | JBool b => Some (if b then 1 else 0)
  | JNum n => Some n
  | JStr s => StringToNumber s
  end.

(** [v >= n] and [v < n] for a number literal [n]; a comparison with [NaN]
    is false. *)
Definition ge_num (S2N : string -> option Z) (v : JsVal) (n : Z) : bool :=
  match to_number S2N v with Some m => n <=? m | None => false end.
Definition lt_num (S2N : string -> option Z) (v : JsVal) (n : Z) : bool :=
  match to_number S2N v with Some m => m <? n | None => false end.

Definition TypeError (msg : string) : JsError :=
  {| message := JStr msg; status := JUndefined; code := JUndefined |}.

(** [error.p] for [p] one of [message], [status], [code]: reading a
    property of [undefined] or [null] throws a TypeError; a primitive has
    none of these properties. *)
Definition get (p : JsError -> JsVal) (error : Thrown) : Outcome JsVal :=
  match error with
  | ThrownErr e => Ok (p e)
  | ThrownVal JUndefined | ThrownVal JNull =>
      Throw (ThrownErr (TypeError "Cannot read properties of undefined"))
  | ThrownVal _ => Ok JUndefined
  end.

(** [new Error(msg)]: an error object has no [status] and no [code]. *)
Definition Error (msg : string) : JsError :=
  {| message := JStr msg; status := JUndefined; code := JUndefined |}.

(** The white space and line terminators of the language among the code
    units below 256: tab, line feed, vertical tab, form feed, carriage
    return, space and the no-break space U+00A0. *)
Definition is_ws (c : ascii) : bool :=
  let n := nat_of_ascii c in
  ((9 <=? n)%nat && (n <=? 13)%nat) || (n =? 32)%nat || (n =? 160)%nat.

Fixpoint drop_ws (l : list ascii) : list ascii :=
  match l with
  | c :: l' => if is_ws c then drop_ws l' else l
  | [] => []
  end.

Fixpoint take_digits (l : list ascii) : list ascii :=
  match l with
  | c :: l' => if Js.is_digit c then c :: take_digits l' else []
  | [] => []
  end.

Definition digit_value (c : ascii) : Z := Z.of_nat (nat_of_ascii c) - 48.

Definition decimal (ds : list ascii) : Z :=
  fold_left (fun acc c => 10 * acc + digit_value c) ds 0.

(** The numbers that [parseInt] returns: [NaN], a double that holds the
    integer [n], [-0], and the two infinities. *)
Inductive Num :=
| NaN
| Finite (n : Z)
| NegZero
| PosInfinity
| NegInfinity.

(** The Number value of an integer [n >= 0]: [n] itself below [2 ^ 53], and
    above it the nearest integer with 53 significant bits, the even one of
    two that are equally near; what rounds to [2 ^ 1024] or more is
    [Infinity]. *)
Definition to_double (n : Z) : Num :=
  if n <? 2 ^ 53 then Finite n
  else
    let e := Z.log2 n - 52 in
    let q := n / 2 ^ e in
    let r := n mod 2 ^ e in
    let half := 2 ^ (e - 1) in
    let q' :=
      if r <? half then q
      else if half <? r then q + 1
      else if Z.even q then q else q + 1 in
    if 2 ^ 1024 <=? q' * 2 ^ e then PosInfinity else Finite (q' * 2 ^ e).

(** [-x] *)
Definition negate (x : Num) : Num :=
  match x with
  | NaN => NaN
  | Finite n => if n =? 0 then NegZero else Finite (- n)
  | NegZero => Finite 0
  | PosInfinity => NegInfinity
  | NegInfinity => PosInfinity
  end.

(** [parseInt(s, 10)]: skip leading white space, read an optional sign,
    then the longest run of digits; [NaN] when there is none, and else the
    Number value of the integer they write, with its sign. The engine is
    taken to round the exact integer: the language lets an engine replace
    the digits after the twentieth by zeros first. *)
Definition parseInt10 (s : string) : Num :=
  let l := drop_ws (Js.chars s) in
  let '(negative, l) :=
    match l with
    | "-"%char :: l' => (true, l')
    | "+"%char :: l' => (false, l')
    | _ => (false, l)
    end in
  match take_digits l with
  | [] => NaN
  | ds => if negative then negate (to_double (decimal ds))
          else to_double (decimal ds)
  end.

Fixpoint is_prefix (p l : list ascii) : bool :=
  match p, l with
  | [], _ => true
  | a :: p', b :: l' => Ascii.eqb a b && is_prefix p' l'
  | _ :: _, [] => false
  end.

Fixpoint take_while (f : ascii -> bool) (l : list ascii) : list ascii :=
  match l with
  | c :: l' => if f c then c :: take_while f l' else []
  | [] => []
  end.

(** The first capture group of the leftmost match of the regular
    expression [lit([^excl]+)] in [l], or of [lit([^excl]+)/] when
    [slash] is set; [None] when there is no match. The group is greedy,
    and a shorter run is always followed by a character of the class, so
    the longest run is the only candidate at each start position. *)
Fixpoint regex_group (lit : list ascii) (excl : ascii -> bool) (slash : bool)
    (l : list ascii) : option (list ascii) :=
  let here :=
    if is_prefix lit l then
      let rest := skipn (length lit) l in
      let run := take_while (fun c => negb (excl c)) rest in
      match run with
      | [] => None
      | _ =>
          if slash then
            match skipn (length run) rest with
            | "/"%char :: _ => Some run
            | _ => None
            end
          else Some run
      end
    else None in
  match here with
  | Some g => Some g
  | None => match l with [] => None | _ :: l' => regex_group lit excl slash l' end
  end.

Definition is_slash (c : ascii) : bool := Ascii.eqb c "/".
Definition is_slash_or_qmark (c : ascii) : bool := Ascii.eqb c "/" || Ascii.eqb c "?".

(** [s.match(/\/Media\/([^\/]+)/)], group 1 *)
Definition match_media_sid (s : string) : option string :=
  Js.of_chars <$> regex_group (Js.chars "/Media/") is_slash false (Js.chars s).

(** [s.match(/\/Media\/([^\/\?]+)/)], group 1 *)
Definition match_media_sid_q (s : string) : option string :=
  Js.of_chars <$> regex_group (Js.chars "/Media/") is_slash_or_qmark false (Js.chars s).

(** [s.match(/\/Messages\/([^\/]+)\//)], group 1 *)
Definition match_message_sid (s : string) : option string :=
  Js.of_chars <$> regex_group (Js.chars "/Messages/") is_slash true (Js.chars s).

(** [s.replace(pat, "")] for a string pattern: delete its first occurrence. *)
Fixpoint remove_first (pat l : list ascii) : list ascii :=
  if is_prefix pat l then skipn (length pat) l
  else match l with
       | [] => []
       | c :: l' => c :: remove_first pat l'
       end.

Definition remove_json_suffix (s : string) : string :=
  Js.of_chars (remove_first (Js.chars ".json") (Js.chars s)).

(** [s.replace(/^\+/, "")] *)
Definition remove_leading_plus (s : string) : string :=
  match s with
  | String "+"%char s' => s'
  | _ => s
  end.

End JsOps.

(** ** The outside world *)

(** The client that [twilio(accountSid, authToken)] builds: a REST client
    is its credentials. *)
Record Client := {
  client_accountSid : string;
  client_authToken : string
}.

(** [isValidPathParam] of the library: an identifier that goes into the
    path of a request holds no slash and no question mark. *)
Definition isValidPathParam (s : string) : bool :=
  forallb (fun c => negb (JsOps.is_slash_or_qmark c)) (Js.chars s).

(** What a resource of the library throws, before anything is sent, for an
    identifier that is not valid in a path. *)
Definition invalid_path_param : JsError :=
  JsOps.Error "Parameter 'sid' is not valid.".

(** The argument of [client.messages.create]. *)
Record MessageParams := {
  msg_from : string;
  msg_to : string;
  msg_body : string
}.

Record MessageInstance := {
  msg_sid : string;
  msg_status : string
}.

(** The result of [client.messages(m).media(s).fetch()]; [None] is a
    property that is [undefined] or [null]. *)
Record MediaInstance := {
  contentType : option string;
  contentLength : option string;
  uri : string
}.

(** The options of [axios.get]: [responseType] is always ["arraybuffer"]. *)
Record AxiosConfig := {
  auth_username : string;
  auth_password : string;
  timeout : option Z
}.

Record AxiosResponse := {
  data : list Byte.byte;
  header_content_type : option string
}.

(** Every request the gateway sends out of the process. *)
Inductive Request :=
| MessagesCreate (client : Client) (params : MessageParams)
| MediaFetch (client : Client) (messageSid mediaSid : string)
| AxiosGet (url : string) (config : AxiosConfig).

(** What can be observed of a run: the requests sent and the delays slept,
    in order. *)
Inductive Event :=
| Sent (r : Request)
| Slept (ms : Z).

(** The delays slept in a trace, oldest first. *)
Definition sleeps (tr : list Event) : list Z :=
  omap (fun e => match e with Slept ms => Some ms | Sent _ => None end) tr.

(** The requests sent in a trace, oldest first. *)
Definition requests (tr : list Event) : list Request :=
  omap (fun e => match e with Sent r => Some r | Slept _ => None end) tr.

(** The collaborators of the gateway, over a state [X] of everything outside
    the process (Twilio, the network, the clock). A request answers with a
    value or rejects with an error object, and moves the outside state;
    [elapse ms] is what the outside does while the process sleeps [ms]
    milliseconds. [StringToNumber] is the language's conversion of a string
    to a number ([None] is [NaN]). *)
Class Platform (X : Type) := {
  messages_create : Client -> MessageParams -> X -> (MessageInstance + JsError) * X;
  media_fetch : Client -> string -> string -> X -> (MediaInstance + JsError) * X;
  axios_get : string -> AxiosConfig -> X -> (AxiosResponse + JsError) * X;
  elapse : Z -> X -> X;
  StringToNumber : string -> option Z
}.

(** The state of a run: [process.env], the outside world, and the events so
    far (oldest first). *)
Record State (X : Type) := {
  env : gmap string string;
  world : X;
  trace : list Event
}.
Arguments env {X} _.
Arguments world {X} _.
Arguments trace {X} _.

(** ** Computations *)

Definition M (X A : Type) : Type := State X -> Outcome A * State X.

Definition ret {X A} (a : A) : M X A := fun st => (Ok a, st).

Definition throw {X A} (t : Thrown) : M X A := fun st => (Throw t, st).

Definition bind {X A B} (m : M X A) (k : A -> M X B) : M X B :=
  fun st =>
    match m st with
    | (Ok a, st') => k a st'
    | (Throw t, st') => (Throw t, st')
    end.

(** [try { body } catch (error) { handler }]: what [handler] throws is not
    caught again. *)
Definition try_catch {X A} (body : M X A) (handler : Thrown -> M X A) : M X A :=
  fun st =>
    match body st with
    | (Ok a, st') => (Ok a, st')
    | (Throw t, st') => handler t st'
    end.

(** An expression that may throw, evaluated in place. *)
Definition eval {X A} (o : Outcome A) : M X A := fun st => (o, st).

Declare Scope js_scope.
Delimit Scope js_scope with js.
Notation "x <- m ;; k" := (bind m (fun x => k))
  (at level 100, m at next level, right associativity) : js_scope.
Notation "m ;;; k" := (bind m (fun _ => k))
  (at level 100, right associativity) : js_scope.
Local Open Scope js_scope.

Section Gateway.

Context {X : Type} {P : Platform X}.

(** Send one request: record it, and let the outside world answer. *)
Definition send_request {A} (r : Request)
    (h : X -> (A + JsError) * X) : M X A :=
  fun st =>
    let '(answer, w) := h (world st) in
    let st' := {| env := env st; world := w; trace := trace st ++ [Sent r] |} in
    match answer with
    | inl a => (Ok a, st')
    | inr e => (Throw (ThrownErr e), st')
    end.

(** [await client.messages.create(params)]: the messages of the client are
    those of its account, whose identifier goes into the path. *)
Definition client_messages_create (client : Client) (params : MessageParams)
    : M X MessageInstance :=
  if isValidPathParam (client_accountSid client) then
    send_request (MessagesCreate client params) (messages_create client params)
  else throw (ThrownErr invalid_path_param).

(** [await client.messages(messageSid).media(mediaSid).fetch()]: the three
    identifiers go into the path. *)
Definition client_media_fetch (client : Client) (messageSid mediaSid : string)
    : M X MediaInstance :=
  if isValidPathParam (client_accountSid client)
     && isValidPathParam messageSid && isValidPathParam mediaSid
  then
    send_request (MediaFetch client messageSid mediaSid)
                 (media_fetch client messageSid mediaSid)
  else throw (ThrownErr invalid_path_param).

(** [await axios.get(url, config)] *)
Definition axios_get_request (url : string) (config : AxiosConfig)
    : M X AxiosResponse :=
  send_request (AxiosGet url config) (axios_get url config).

(** [await sleep(ms)] *)
Definition sleep (ms : Z) : M X unit :=
  fun st =>
    (Ok tt, {| env := env st; world := elapse ms (world st);
               trace := trace st ++ [Slept ms] |}).

(** [process.env.NAME]; an unset variable and an empty one are both falsy. *)
Definition process_env (name : string) : M X (option string) :=
  fun st =>
    (Ok match env st !! name with
        | Some v => if String.eqb v "" then None else Some v
        | None => None
        end, st).

(** ** Configuration *)

Record TwilioConfig := {
  accountSid : string;
  authToken : string;
  whatsappNumber : string
}.

Definition getConfig : M X (option TwilioConfig) :=
  accountSid <- process_env "TWILIO_ACCOUNT_SID" ;;
  authToken <- process_env "TWILIO_AUTH_TOKEN" ;;
  whatsappNumber <- process_env "TWILIO_WHATSAPP_NUMBER" ;;
  match accountSid, authToken, whatsappNumber with
  | Some a, Some t, Some w =>
      ret (Some {| accountSid := a; authToken := t; whatsappNumber := w |})
  | _, _, _ => ret None
  end.

(** The client of a configuration, when one is built. *)
Definition client_of (config : TwilioConfig) : Client :=
  {| client_accountSid := accountSid config; client_authToken := authToken config |}.

(** What the constructor throws for an account SID that does not start
    with [AC]; for one that starts with [SK] the message goes on. *)
Definition twilio_error (accountSid : string) : JsError :=
  JsOps.Error
    ("accountSid must start with AC" +:+
     (if Js.startsWith "SK" accountSid
      then ". The given SID indicates an API Key which requires the accountSid to be passed as an additional option"
      else "")).

(** [twilio(accountSid, authToken)], called with strings that are not
    empty: the constructor of the library builds a client, or throws. It
    sends nothing. *)
Definition twilio (accountSid authToken : string) : Outcome Client :=
  if Js.startsWith "AC" accountSid then
    Ok {| client_accountSid := accountSid; client_authToken := authToken |}
  else Throw (ThrownErr (twilio_error accountSid)).

Definition getTwilioClient : M X (option Client) :=
  config <- getConfig ;;
  match config with
  | None => ret None
  | Some config =>
      client <- eval (twilio (accountSid config) (authToken config)) ;;
      ret (Some client)
  end.

(** The client of [config] is built and the request for the metadata of
    the media [mediaSid] of the message [messageSid] is sent: the account
    SID starts with [AC], and it and the two identifiers are valid in a
    path. *)
Definition fetch_is_sent (config : TwilioConfig) (messageSid mediaSid : string)
    : bool :=
  Js.startsWith "AC" (accountSid config)
  && isValidPathParam (accountSid config)
  && isValidPathParam messageSid && isValidPathParam mediaSid.

End Gateway.

(** ** Retry with exponential backoff *)

Section Retry.

Context {X : Type} {P : Platform X}.

(** [const status = error.status || error.code] *)
Definition error_status (error : Thrown) : Outcome JsVal :=
  match JsOps.get status error with
  | Ok s => if JsOps.truthy s then Ok s else JsOps.get code error
  | Throw t => Throw t
  end.

(** [status === 429 || error.code === 20003 ||
     (status >= 500 && status < 600)] *)
Definition retryable (status code : JsVal) : bool :=
  JsOps.strict_eq_num status 429
  || JsOps.strict_eq_num code 20003
  || (JsOps.ge_num StringToNumber status 500
      && JsOps.lt_num StringToNumber status 600).

Context {T : Type}.
Variable fn : M X T.
Variable maxRetries : Z.
Variable initialDelayMs : Z.

(** The [for] loop of [retryWithBackoff], from the test
    [attempt <= maxRetries] on; [continue] is the recursive call. *)
Equations? retry_loop (attempt : Z) (lastError : Thrown) : M X T
  by wf (Z.to_nat (maxRetries + 1 - attempt)) lt :=
retry_loop attempt lastError :=
  if attempt <=? maxRetries then
    try_catch fn (fun error =>
      let lastError := error in
      status <- eval (error_status error) ;;
      code <- eval (JsOps.get code error) ;;
      if retryable status code then
        match Z_lt_dec attempt maxRetries with
        | left _ =>
            let delayMs := initialDelayMs * 2 ^ attempt in
            sleep delayMs ;;;
            retry_loop (attempt + 1) lastError
        | right _ => throw error
        end
      else throw error)
  else throw lastError.
Proof. lia. Qed.

Definition retryWithBackoff : M X T := retry_loop 0 (ThrownVal JUndefined).

(** *** The vocabulary of the retry policy *)

(** Whether the [catch] block takes a thrown value for a transient
    failure; [None] when reading its properties throws. *)
Definition transient (error : Thrown) : option bool :=
  match error_status error, JsOps.get code error with
  | Ok status, Ok code => Some (retryable status code)
  | _, _ => None
  end.

(** What the [catch] block throws when it gives up on [error]. *)
Definition rethrown (error : Thrown) : Thrown :=
  match error_status error with
  | Ok _ => error
  | Throw t => t
  end.

(** The result of the whole call when an attempt that ended with [r] is
    the last one. *)
Definition propagate (r : Outcome T * State X) : Outcome T * State X :=
  match r with
  | (Ok v, st) => (Ok v, st)
  | (Throw error, st) => (Throw (rethrown error), st)
  end.

Definition failed_transiently (r : Outcome T * State X) : bool :=
  match r with
  | (Throw error, _) => bool_decide (transient error = Some true)
  | (Ok _, _) => false
  end.

(** The state after sleeping [ms] milliseconds. *)
Definition after_sleep (ms : Z) (st : State X) : State X := (sleep ms st).2.

(** The delays that follow the failed attempts number [first],
    [first + 1], ... ([count] of them), each twice the one before. *)
Definition backoff_delays (first count : nat) : list Z :=
  (fun k => initialDelayMs * 2 ^ Z.of_nat k) <$> seq first count.

(** The state reached from [st] by one attempt and one sleep for each of
    the [delays], in order. *)
Definition after_attempts (delays : list Z) (st : State X) : State X :=
  fold_left (fun s ms => after_sleep ms (fn s).2) delays st.

(** The state in which attempt number [k] begins, when attempt [k' < k]
    was followed by a sleep of [initialDelayMs * 2 ^ k']. *)
Definition attempt_state (k : nat) (st : State X) : State X :=
  after_attempts (backoff_delays 0 k) st.

End Retry.

(** ** Sending a text message *)

Section Send.

Context {X : Type} {P : Platform X}.

(** The reads [error.message || error], [error.code] and [error.status]
    that build the argument of [console.error] in a [catch] block. *)
Definition log_error_details (error : Thrown) : M X unit :=
  eval (JsOps.get message error) ;;;
  eval (JsOps.get code error) ;;;
  eval (JsOps.get status error) ;;;
  ret tt.

(** [`whatsapp:${config.whatsappNumber.replace(/^\+/, "")}`] *)
Definition fromNumber (config : TwilioConfig) : string :=
  "whatsapp:" +:+ JsOps.remove_leading_plus (whatsappNumber config).

(** [`whatsapp:${recipientNumber.startsWith("+") ? recipientNumber
                                                 : `+${recipientNumber}`}`] *)
Definition toNumber (recipientNumber : string) : string :=
  "whatsapp:" +:+
    (if Js.startsWith "+" recipientNumber then recipientNumber
     else "+" +:+ recipientNumber).

(** The operation that [sendTextMessageWithRetry] retries;
    [maxRetries] and [initialDelayMs] keep their defaults, 3 and 1000. *)
Definition create_text (client : Client) (config : TwilioConfig)
    (recipientNumber messageText : string) : M X MessageInstance :=
  client_messages_create client
    {| msg_from := fromNumber config; msg_to := toNumber recipientNumber;
       msg_body := messageText |}.

Definition sendTextMessageWithRetry (recipientNumber messageText : string)
    : M X bool :=
  client <- getTwilioClient ;;
  match client with
  | None => ret false
  | Some client =>
      if negb (validateE164 recipientNumber) then ret false
      else
        config <- getConfig ;;
        match config with
        | None => ret false
        | Some config =>
            try_catch
              (message <-
                 retryWithBackoff
                   (create_text client config recipientNumber messageText)
                   3 1000 ;;
               ret true)
              (fun error => log_error_details error ;;; ret false)
        end
  end.

End Send.

(** ** Voice-note media *)

(** The result of [downloadVoiceNoteMedia]; [fileSize] is what [parseInt]
    gives. *)
Record VoiceNoteMedia := {
  url : string;
  mimeType : string;
  sha256 : string;
  fileSize : JsOps.Num
}.

(** [s || d] for a string property [s] that may be missing. *)
Definition or_default (s : option string) (d : string) : string :=
  match s with
  | Some v => if String.eqb v "" then d else v
  | None => d
  end.

(** The record returned when no metadata is available. *)
Definition media_defaults (mediaUrl : string) : VoiceNoteMedia :=
  {| url := mediaUrl; mimeType := "audio/ogg"; sha256 := "";
     fileSize := JsOps.Finite 0 |}.

(** The first of the two revisions of the module: metadata and bytes are
    fetched through the Twilio client. *)
Module Rev1.
Section Media.

Context {X : Type} {P : Platform X}.

Definition downloadVoiceNoteMedia (mediaUrl : string)
    : M X (option VoiceNoteMedia) :=
  try_catch
    (config <- getConfig ;;
     match config with
     | None => ret None
     | Some _ =>
         client <- getTwilioClient ;;
         match client with
         | None => ret None
         | Some client =>
             match JsOps.match_media_sid mediaUrl with
             | None => ret (Some (media_defaults mediaUrl))
             | Some mediaSid =>
                 media <- client_media_fetch client mediaSid mediaSid ;;
                 ret (Some
                   {| url := JsOps.remove_json_suffix (uri media);
                      mimeType := or_default (contentType media) "audio/ogg";
                      sha256 := "";
                      fileSize :=
                        JsOps.parseInt10 (or_default (contentLength media) "0") |})
             end
         end
     end)
    (fun error =>
       eval (JsOps.get message error) ;;;
       ret (Some (media_defaults mediaUrl))).

(** [axios.get(url, { responseType: "arraybuffer", auth: ... })] with the
    credentials of the environment, each [|| ""]. *)
Definition download_with_env_auth (url : string) : M X (option (list Byte.byte)) :=
  username <- process_env "TWILIO_ACCOUNT_SID" ;;
  password <- process_env "TWILIO_AUTH_TOKEN" ;;
  response <-
    axios_get_request url
      {| auth_username := or_default username "";
         auth_password := or_default password "";
         timeout := None |} ;;
  ret (Some (data response)).

Definition downloadMediaFile (mediaUrl : string) (accessToken : option string)
    : M X (option (list Byte.byte)) :=
  try_catch
    (client <- getTwilioClient ;;
     match client with
     | None => download_with_env_auth mediaUrl
     | Some client =>
         match JsOps.match_media_sid mediaUrl, JsOps.match_message_sid mediaUrl with
         | Some mediaSid, Some messageSid =>
             media <- client_media_fetch client messageSid mediaSid ;;
             download_with_env_auth (JsOps.remove_json_suffix (uri media))
         | _, _ => download_with_env_auth mediaUrl
         end
     end)
    (fun error => eval (JsOps.get message error) ;;; ret None).

End Media.
End Rev1.

(** The second revision: the webhook URL is used as it is, and the bytes are
    downloaded with basic authentication. *)
Module Rev2.
Section Media.

Context {X : Type} {P : Platform X}.

Definition downloadVoiceNoteMedia (mediaUrl : string)
    : M X (option VoiceNoteMedia) :=
  try_catch
    (config <- getConfig ;;
     match config with
     | None => ret None
     | Some _ =>
         client <- getTwilioClient ;;
         match client with
         | None => ret None
         | Some client =>
             match JsOps.match_media_sid_q mediaUrl,
                   JsOps.match_message_sid mediaUrl with
             | Some mediaSid, Some messageSid =>
                 try_catch
                   (media <- client_media_fetch client messageSid mediaSid ;;
                    ret (Some
                      {| url := mediaUrl;
                         mimeType := or_default (contentType media) "audio/ogg";
                         sha256 := "";
                         fileSize :=
                           JsOps.parseInt10
                             (or_default (contentLength media) "0") |}))
                   (fun fetchError =>
                      eval (JsOps.get message fetchError) ;;;
                      ret (Some (media_defaults mediaUrl)))
             | _, _ => ret (Some (media_defaults mediaUrl))
             end
         end
     end)
    (fun error =>
       eval (JsOps.get message error) ;;;
       ret (Some (media_defaults mediaUrl))).

Definition downloadMediaFile (mediaUrl : string) (accessToken : option string)
    : M X (option (list Byte.byte)) :=
  try_catch
    (accountSid <- process_env "TWILIO_ACCOUNT_SID" ;;
     authToken <- process_env "TWILIO_AUTH_TOKEN" ;;
     match accountSid, authToken with
     | Some accountSid, Some authToken =>
         response <-
           axios_get_request mediaUrl
             {| auth_username := accountSid; auth_password := authToken;
                timeout := Some 30000 |} ;;
         let buffer := data response in
         ret (Some buffer)
     | _, _ => ret None
     end)
    (fun error => eval (JsOps.get message error) ;;; ret None).

End Media.
End Rev2.

(** ** The relational store *)

Module Sql.

Inductive Value :=
| Null
| Int (n : Z)
| Text (s : string)
| Timestamp (t : Z).

#[global] Instance Value_eq_dec : EqDecision Value.
Proof. solve_decision. Defined.

Inductive ColType :=
| Varchar (limit : option nat)
| Integer
| TextType
| TimestampTz.

Inductive DefaultExpr :=
| DefaultValue (v : Value)
| DefaultNow.

Record Column := {
  col_name : string;
  col_type : ColType;
  col_default : option DefaultExpr;
  col_not_null : bool
}.

Record Table := {
  tbl_name : string;
  tbl_primary_key : string;
  tbl_columns : list Column
}.

Record ForeignKey := {
  fk_name : string;
  fk_table : string;
  fk_column : string;
  fk_ref_table : string;
  fk_ref_column : string;
  fk_on_delete_cascade : bool
}.

Record Index := {
  idx_name : string;
  idx_table : string;
  idx_columns : list string;
  idx_unique : bool
}.

Inductive Error :=
| UndefinedTable (table : string)
| UndefinedColumn (column : string)
| DuplicateColumn
| DataError (column : string)
| NotNullViolation (column : string)
| UniqueViolation (constraint : string)
| ForeignKeyViolation (constraint : string).

Definition col (name : string) (ty : ColType) (default : option DefaultExpr)
    (not_null : bool) : Column :=
  {| col_name := name; col_type := ty; col_default := default;
     col_not_null := not_null |}.

(** *** The migration *)

Definition free_trials : Table :=
  {| tbl_name := "free_trials";
     tbl_primary_key := "id";
     tbl_columns :=
       [ col "id" (Varchar None) None true;
         col "customer_phone" (Varchar (Some 20%nat)) None true;
         col "buyer_name" (Varchar (Some 255%nat)) None true;
         col "storyteller_name" (Varchar (Some 255%nat)) None true;
         col "selected_album" (Varchar (Some 255%nat)) None true;
         col "storyteller_phone" (Varchar (Some 20%nat)) None false;
         col "conversation_state" (Varchar (Some 50%nat))
             (Some (DefaultValue (Text "awaiting_initial_contact"))) true;
         col "current_question_index" Integer (Some (DefaultValue (Int 0))) true;
         col "retry_readiness_at" TimestampTz None false;
         col "retry_count" Integer (Some (DefaultValue (Int 0))) true;
         col "last_readiness_response" (Varchar (Some 50%nat)) None false;
         col "welcome_sent_at" TimestampTz None false;
         col "readiness_asked_at" TimestampTz None false;
         col "last_question_sent_at" TimestampTz None false;
         col "reminder_sent_at" TimestampTz None false;
         col "next_question_scheduled_for" TimestampTz None false;
         col "created_at" TimestampTz (Some DefaultNow) true ] |}.

Definition voice_notes : Table :=
  {| tbl_name := "voice_notes";
     tbl_primary_key := "id";
     tbl_columns :=
       [ col "id" (Varchar None) None true;
         col "free_trial_id" (Varchar (Some 255%nat)) None true;
         col "question_index" Integer None true;
         col "question_text" TextType None true;
         col "media_id" (Varchar (Some 255%nat)) None true;
         col "media_url" TextType None false;
         col "local_file_path" TextType None false;
         col "mime_type" (Varchar (Some 100%nat)) None false;
         col "media_sha256" (Varchar (Some 64%nat)) None false;
         col "download_status" (Varchar (Some 20%nat))
             (Some (DefaultValue (Text "pending"))) true;
         col "size_bytes" Integer None false;
         col "received_at" TimestampTz (Some DefaultNow) true ] |}.

Definition tables : list Table := [free_trials; voice_notes].

Definition foreign_keys : list ForeignKey :=
  [ {| fk_name := "voice_notes_free_trial_id_free_trials_id_fk";
       fk_table := "voice_notes"; fk_column := "free_trial_id";
       fk_ref_table := "free_trials"; fk_ref_column := "id";
       fk_on_delete_cascade := true |} ].

Definition voice_notes_trial_question_idx : Index :=
  {| idx_name := "voice_notes_trial_question_idx"; idx_table := "voice_notes";
     idx_columns := ["free_trial_id"; "question_index"]; idx_unique := true |}.

Definition indexes : list Index :=
  [ {| idx_name := "free_trials_conversation_state_idx"; idx_table := "free_trials";
       idx_columns := ["conversation_state"]; idx_unique := false |};
    {| idx_name := "free_trials_retry_readiness_at_idx"; idx_table := "free_trials";
       idx_columns := ["retry_readiness_at"]; idx_unique := false |};
    {| idx_name := "free_trials_next_question_scheduled_idx";
       idx_table := "free_trials";
       idx_columns := ["next_question_scheduled_for"]; idx_unique := false |};
    {| idx_name := "voice_notes_free_trial_id_idx"; idx_table := "voice_notes";
       idx_columns := ["free_trial_id"]; idx_unique := false |};
    voice_notes_trial_question_idx ].

(** *** Rows, tables and statements *)

(** A row maps each column name to its value; a database maps each table
    name to its rows, oldest first. *)
Abbreviation Row := (gmap string Value).
Abbreviation Db := (gmap string (list (gmap string Value))).

Definition rows_of (db : Db) (table : string) : list Row :=
  default [] (db !! table).

Inductive Statement :=
| Insert (table : string) (values : list (string * Value))
| Delete (table : string) (id : Value).

Definition find_table (name : string) : option Table :=
  List.find (fun t => String.eqb (tbl_name t) name) tables.

Definition find_column (t : Table) (name : string) : option Column :=
  List.find (fun c => String.eqb (col_name c) name) (tbl_columns t).

Fixpoint assoc (k : string) (l : list (string * Value)) : option Value :=
  match l with
  | [] => None
  | (k', v) :: l' => if String.eqb k k' then Some v else assoc k l'
  end.

Definition char_length (s : string) : nat := String.length s.

(** Store [v] in a column of type [ty]. An [integer] is 32 bits wide. A
    string longer than the limit of a [varchar(n)] is refused, unless the
    excess is all spaces, which are then cut off. *)
Definition coerce (ty : ColType) (v : Value) : option Value :=
  match v, ty with
  | Null, _ => Some Null
  | Int n, Integer =>
      if (- 2 ^ 31 <=? n) && (n <? 2 ^ 31) then Some (Int n) else None
  | Text s, TextType => Some (Text s)
  | Text s, Varchar None => Some (Text s)
  | Text s, Varchar (Some limit) =>
      if (char_length s <=? limit)%nat then Some (Text s)
      else if forallb (Ascii.eqb " ") (skipn limit (Js.chars s))
      then Some (Text (Js.of_chars (firstn limit (Js.chars s))))
      else None
  | Timestamp t, TimestampTz => Some (Timestamp t)
  | _, _ => None
  end.

(** The value an [INSERT] gives a column: the one listed, else the
    column's default, else [NULL]. *)
Definition column_value (now : Z) (values : list (string * Value)) (c : Column)
    : Value :=
  match assoc (col_name c) values with
  | Some v => v
  | None =>
      match col_default c with
      | Some (DefaultValue v) => v
      | Some DefaultNow => Timestamp now
      | None => Null
      end
  end.

Fixpoint build_columns (now : Z) (values : list (string * Value))
    (cols : list Column) : Error + list (string * Value) :=
  match cols with
  | [] => inr []
  | c :: cols' =>
      match coerce (col_type c) (column_value now values c) with
      | None => inl (DataError (col_name c))
      | Some v =>
          if col_not_null c && bool_decide (v = Null)
          then inl (NotNullViolation (col_name c))
          else
            match build_columns now values cols' with
            | inl e => inl e
            | inr fields => inr ((col_name c, v) :: fields)
            end
      end
  end.

Definition known_column (t : Table) (name : string) : bool :=
  existsb (fun c => String.eqb (col_name c) name) (tbl_columns t).

Definition build_row (t : Table) (now : Z) (values : list (string * Value))
    : Error + Row :=
  match List.find (fun kv => negb (known_column t kv.1)) values with
  | Some kv => inl (UndefinedColumn kv.1)
  | None =>
      if bool_decide (NoDup values.*1) then
        match build_columns now values (tbl_columns t) with
        | inl e => inl e
        | inr fields => inr (list_to_map fields)
        end
      else inl DuplicateColumn
  end.

(** *** Constraints *)

(** The key of a row under a list of columns; [None] when one of them is
    [NULL], and such a row conflicts with no other. *)
Definition key_of (cols : list string) (r : Row) : option (list Value) :=
  mapM (fun c => match r !! c with
                 | Some Null | None => None
                 | Some v => Some v
                 end) cols.

Fixpoint distinct_keys (keys : list (option (list Value))) : bool :=
  match keys with
  | [] => true
  | None :: keys' => distinct_keys keys'
  | Some k :: keys' => negb (bool_decide (Some k ∈ keys')) && distinct_keys keys'
  end.

Definition unique_holds (cols : list string) (rows : list Row) : bool :=
  distinct_keys (key_of cols <$> rows).

Definition primary_key_error (db : Db) (t : Table) : option Error :=
  if unique_holds [tbl_primary_key t] (rows_of db (tbl_name t)) then None
  else Some (UniqueViolation (tbl_name t +:+ "_pkey")).

Definition index_error (db : Db) (i : Index) : option Error :=
  if negb (idx_unique i) || unique_holds (idx_columns i) (rows_of db (idx_table i))
  then None
  else Some (UniqueViolation (idx_name i)).

(** The value by which [child] refers to its parent; [None] when it is
    [NULL], and then the row refers to nothing. *)
Definition fk_value (fk : ForeignKey) (child : Row) : option Value :=
  match child !! fk_column fk with
  | Some Null | None => None
  | Some v => Some v
  end.

Definition has_parent (fk : ForeignKey) (parents : list Row) (v : Value) : bool :=
  existsb (fun parent => bool_decide (parent !! fk_ref_column fk = Some v)) parents.

Definition references (db : Db) (fk : ForeignKey) (child : Row) : bool :=
  match fk_value fk child with
  | None => true
  | Some v => has_parent fk (rows_of db (fk_ref_table fk)) v
  end.

Definition foreign_key_error (db : Db) (fk : ForeignKey) : option Error :=
  if forallb (references db fk) (rows_of db (fk_table fk)) then None
  else Some (ForeignKeyViolation (fk_name fk)).

Fixpoint first_error {A} (check : A -> option Error) (l : list A) : option Error :=
  match l with
  | [] => None
  | a :: l' => match check a with Some e => Some e | None => first_error check l' end
  end.

(** The first constraint of the schema that [db] violates, if any. *)
Definition violation (db : Db) : option Error :=
  match first_error (primary_key_error db) tables with
  | Some e => Some e
  | None =>
      match first_error (index_error db) indexes with
      | Some e => Some e
      | None => first_error (foreign_key_error db) foreign_keys
      end
  end.

Definition commit (db : Db) : Error + Db :=
  match violation db with
  | Some e => inl e
  | None => inr db
  end.

(** *** Execution *)

(** [ON DELETE cascade]: the rows of the referencing table that point to
    one of the deleted rows go with them. *)
Definition cascade (deleted : list Row) (db : Db) (fk : ForeignKey) : Db :=
  if fk_on_delete_cascade fk then
    <[fk_table fk :=
        List.filter
          (fun child =>
             match fk_value fk child with
             | None => true
             | Some v => negb (has_parent fk deleted v)
             end)
          (rows_of db (fk_table fk))]> db
  else db.

(** A statement leaves a new database, or an error and no change. *)
Definition exec (s : Statement) (now : Z) (db : Db) : Error + Db :=
  match s with
  | Insert table values =>
      match find_table table with
      | None => inl (UndefinedTable table)
      | Some t =>
          match build_row t now values with
          | inl e => inl e
          | inr row => commit (<[table := rows_of db table ++ [row]]> db)
          end
      end
  | Delete table id =>
      match find_table table with
      | None => inl (UndefinedTable table)
      | Some t =>
          let is_target (r : Row) := bool_decide (r !! tbl_primary_key t = Some id) in
          let deleted := List.filter is_target (rows_of db table) in
          let kept := List.filter (fun r => negb (is_target r)) (rows_of db table) in
          let db1 := <[table := kept]> db in
          commit (fold_left (cascade deleted)
                    (List.filter (fun fk => String.eqb (fk_ref_table fk) table)
                                 foreign_keys)
                    db1)
      end
  end.

(** The databases the store can hold: the empty one, and the result of
    every statement that succeeds. *)
Inductive reachable : Db -> Prop :=
| reachable_empty : reachable ∅
| reachable_exec s now db db' :
    reachable db -> exec s now db = inr db' -> reachable db'.

(** The columns of the unique index, and the key of the slot of question
    [q] of trial [trial] under it. *)
Abbreviation slot_columns := (idx_columns voice_notes_trial_question_idx).

Definition slot_key (trial : string) (q : Z) : option (list Value) :=
  Some [Text trial; Int q].

(** The voice notes stored for question [q] of trial [trial]. *)
Definition slot_rows (db : Db) (trial : string) (q : Z) : list Row :=
  List.filter
    (fun r => bool_decide (r !! "free_trial_id" = Some (Text trial))
              && bool_decide (r !! "question_index" = Some (Int q)))
    (rows_of db "voice_notes").

End Sql.

(** ** Content hashes *)

Definition is_hex_digit (c : ascii) : bool :=
  let n := nat_of_ascii c in
  ((48 <=? n)%nat && (n <=? 57)%nat)
  || ((97 <=? n)%nat && (n <=? 102)%nat)
  || ((65 <=? n)%nat && (n <=? 70)%nat).

(** A SHA-256 digest written in hexadecimal, the form the column
    [media_sha256 varchar(64)] holds: 64 hexadecimal digits. *)
Definition is_sha256_hex (s : string) : bool :=
  (String.length s =? 64)%nat && forallb is_hex_digit (Js.chars s).

(** ** A scripted outside world *)

(** A world for running the gateway on concrete inputs. Its state is a
    script: the errors that the next requests are answered with, in order;
    once the script is used up every request succeeds. *)
Module Sample.

Definition overloaded : JsError :=
  {| message := JStr "Service Unavailable"; status := JNum 503; code := JUndefined |}.

Definition bad_recipient : JsError :=
  {| message := JStr "The 'To' number is not a valid phone number";
     status := JNum 400; code := JNum 21211 |}.

Definition not_found : JsError :=
  {| message := JStr "The requested resource was not found";
     status := JNum 404; code := JNum 20404 |}.

Definition queued : MessageInstance := {| msg_sid := "SM1"; msg_status := "queued" |}.

Definition ogg : MediaInstance :=
  {| contentType := Some "audio/ogg"; contentLength := Some "4";
     uri := "/2010-04-01/Accounts/AC1/Messages/MM1/Media/ME1.json" |}.

Definition audio : AxiosResponse :=
  {| data := [Byte.x4f; Byte.x67; Byte.x67; Byte.x53];
     header_content_type := Some "audio/ogg" |}.

Definition answer {A} (a : A) (script : list JsError) : (A + JsError) * list JsError :=
  match script with
  | e :: script' => (inr e, script')
  | [] => (inl a, [])
  end.

#[global] Instance scripted : Platform (list JsError) :=
  {| messages_create := fun _ _ => answer queued;
     media_fetch := fun _ _ _ => answer ogg;
     axios_get := fun _ _ => answer audio;
     elapse := fun _ script => script;
     StringToNumber := fun _ => None |}.

Definition configured : gmap string string :=
  list_to_map [("TWILIO_ACCOUNT_SID", "AC1"); ("TWILIO_AUTH_TOKEN", "secret");
               ("TWILIO_WHATSAPP_NUMBER", "+14155238886")].

Definition start (script : list JsError) : State (list JsError) :=
  {| env := configured; world := script; trace := [] |}.

Definition media_url : string :=
  "https://api.twilio.com/2010-04-01/Accounts/AC1/Messages/MM1/Media/ME1".

Definition client : Client :=
  {| client_accountSid := "AC1"; client_authToken := "secret" |}.

Definition hello : MessageParams :=
  {| msg_from := "whatsapp:14155238886"; msg_to := "whatsapp:+919876543210";
     msg_body := "hello" |}.

Definition twilio_config : TwilioConfig :=
  {| accountSid := "AC1"; authToken := "secret"; whatsappNumber := "+14155238886" |}.

(** The request of [hello], as an operation to retry. *)
Definition send_hello : M (list JsError) MessageInstance :=
  client_messages_create client hello.

(** A trial, and a voice note that answers its question [q]. *)
Definition trial_values : list (string * Sql.Value) :=
  [("id", Sql.Text "t1"); ("customer_phone", Sql.Text "919876543210");
   ("buyer_name", Sql.Text "Ritu"); ("storyteller_name", Sql.Text "Asha");
   ("selected_album", Sql.Text "Memories of Home")].

Definition note_values (id : string) (q : Z) : list (string * Sql.Value) :=
  [("id", Sql.Text id); ("free_trial_id", Sql.Text "t1");
   ("question_index", Sql.Int q); ("question_text", Sql.Text "Where did you grow up?");
   ("media_id", Sql.Text "ME1")].

Definition run (s : Sql.Statement) (now : Z) (db : Sql.Db) : Sql.Db :=
  match Sql.exec s now db with
  | inr db' => db'
  | inl _ => db
  end.

(** The store after the trial is created, and after its first voice note
    is stored. *)
Definition db_trial : Sql.Db := run (Sql.Insert "free_trials" trial_values) 5 ∅.

Definition db_note : Sql.Db :=
  run (Sql.Insert "voice_notes" (note_values "v1" 0)) 7 db_trial.

End Sample.

(** ** The other senders *)

(** The double quote character, a line feed, and a template literal: its
    pieces put together. *)
Definition dquote : string := String (ascii_of_nat 34) "".
Definition newline : string := String (ascii_of_nat 10) "".
Definition template (pieces : list string) : string :=
  fold_right String.append "" pieces.

(** [sendTemplateMessage]: the text sent in place of a template. *)
Definition template_body_once (templateName : string) : string :=
  template ["Hello! This is a message from Kahani. (Template: ";
    templateName; ")"].

(** [sendTemplateMessageWithRetry]: the text sent in place of a template. *)
Definition template_body (templateName : string) : string :=
  template ["Hello! This is a message from Kahani. (Template: ";
    templateName; ")"].

(** [sendTemplateMessageWithRetry]: what the parameters add to the text. *)
Definition template_details (paramTexts : string) : string :=
  template [newline; newline; "Details: "; paramTexts].

(** [sendFreeTrialConfirmation]: the message of the production branch. *)
Definition confirmation_message_production
    (customerName relation albumName : string) : string :=
  template ["Hi "; customerName; ", Thank you for choosing Kahani. You and ";
    relation; " are about to start something truly special. Their Kahani ";
    "will soon always stay with you. To confirm, you would like ";
    "a mini album on "; dquote; albumName; dquote; " for "; relation;
    ", right? If this looks different, please reply and let us ";
    "know. To get started, you will get a short message to ";
    "forward to your "; relation;
    ". They just need to click the link and send the pre-filled ";
    "message - that's it."].

(** [sendFreeTrialConfirmation]: the message of the other branch. *)
Definition confirmation_message_development
    (customerName relation albumName : string) : string :=
  template ["Hi "; customerName; ", Thank you for choosing Kahani. You and ";
    relation; " are about to start something truly special. Their Kahani ";
    "will soon always stay with you. To confirm, you would like ";
    "a mini album on "; dquote; albumName; dquote; " for "; relation;
    ", right? If this looks different, please reply and let us ";
    "know. To get started, you will get a short message to ";
    "forward to your "; relation;
    ". They just need to click the link and send the pre-filled ";
    "message - that's it."].

(** [sendStorytellerOnboarding]: the message of the production branch. *)
Definition onboarding_message_production
    (relation customerName : string) : string :=
  template ["Hi "; relation; ", I am Vaani from Kahani. "; customerName;
    " has asked me to record your stories in your own voice. ";
    "Every day, I'll send you one simple question. You can reply ";
    "with a voice note whenever you wish. Your stories will ";
    "become a beautiful book your family can keep forever. ";
    "Please pin this chat for us to get started on this journey!"].

(** [sendStorytellerOnboarding]: the message of the other branch. *)
Definition onboarding_message_development
    (relation customerName : string) : string :=
  template ["Hi "; relation; ", I am Vaani from Kahani. "; customerName;
    " has asked me to record your stories in your own voice. ";
    "Every day, I'll send you one simple question. You can reply ";
    "with a voice note whenever you wish. Your stories will ";
    "become a beautiful book your family can keep forever. ";
    "Please pin this chat for us to get started on this journey!"].

(** [sendShareableLink]: the message the link fills in. *)
Definition prefilled_message (buyerName orderId : string) : string :=
  template ["Hi, "; buyerName; " has placed an order "; orderId; " for me."].

(** [sendShareableLink]: the link, given the phone and the encoded text. *)
Definition whatsapp_link (businessPhone encodedText : string) : string :=
  template ["https://wa.me/"; businessPhone; "?text="; encodedText].

(** [sendShareableLink]: the message sent. *)
Definition shareable_link_message
    (storytellerName whatsappLink : string) : string :=
  template ["Please share this link with *"; storytellerName; "*:"; newline;
    newline; whatsappLink; newline; newline; "When "; storytellerName;
    " opens this link, they'll be able to start chatting with us ";
    "directly on WhatsApp!"].

(** [sendReadinessCheck]: the message of the production branch. *)
Definition readiness_message_production (relation : string) : string :=
  template ["Hi "; relation; ", are you ready to share your Kahani?"].

(** [sendReadinessCheck]: the message of the other branch. *)
Definition readiness_message_development (relation : string) : string :=
  template ["Hi "; relation; ", are you ready to share your Kahani?"].

(** [sendVoiceNoteAcknowledgment]: the message of the production branch. *)
Definition acknowledgment_message_production : string :=
  template ["Thank you for sharing your story! It's been saved and ";
    "recorded safely. We will send you the next question very "; "soon."].

(** [sendVoiceNoteAcknowledgment]: the message of the other branch. *)
Definition acknowledgment_message_development : string :=
  template ["Thank you for sharing your story! It's been saved and ";
    "recorded safely. We will send you the next question very "; "soon."].

(** [sendAlbumCompletionMessage]: the message of the production branch. *)
Definition completion_message_production
    (playlistAlbumLink vinylAlbumLink : string) : string :=
  template ["Here's your mini album:"; newline; newline; "Playlist Album: ";
    playlistAlbumLink; newline; newline; "Vinyl Album: "; vinylAlbumLink;
    newline; newline;
    "A short glimpse of the memories you've shared so far."].

(** [sendAlbumCompletionMessage]: the message of the other branch. *)
Definition completion_message_development
    (playlistAlbumLink vinylAlbumLink : string) : string :=
  template ["Here's your mini album:"; newline; newline; "Playlist Album: ";
    playlistAlbumLink; newline; newline; "Vinyl Album: "; vinylAlbumLink;
    newline; newline;
    "A short glimpse of the memories you've shared so far."].

(** An element of [templateParams]: [{ type, text }], each a string or
    missing. *)
Record TemplateParam := {
  param_type : option string;
  param_text : option string
}.

(** ToBoolean of a string that may be missing. *)
Definition string_truthy (s : option string) : bool :=
  match s with
  | Some v => negb (String.eqb v "")
  | None => false
  end.

(** [p.text || p.type === "text" ? p.text : ""]: the conditional takes the
    whole disjunction for its test. *)
Definition param_text_of (p : TemplateParam) : option string :=
  if string_truthy (param_text p) || bool_decide (param_type p = Some "text")
  then param_text p
  else Some "".

(** [l.join(sep)] *)
Fixpoint join (sep : string) (l : list string) : string :=
  match l with
  | [] => ""
  | [s] => s
  | s :: l' => s +:+ sep +:+ join sep l'
  end.

(** [templateParams.map(...).filter(Boolean).join(", ")] *)
Definition paramTexts (templateParams : list TemplateParam) : string :=
  join ", "
    (omap (fun p => let t := param_text_of p in
                    if string_truthy t then t else None)
          templateParams).

(** The [messageBody] of [sendTemplateMessageWithRetry]. *)
Definition messageBody (templateName : string) (templateParams : list TemplateParam)
    : string :=
  let messageBody := template_body templateName in
  if (0 <? Z.of_nat (length templateParams)) then
    let paramTexts := paramTexts templateParams in
    if negb (String.eqb paramTexts "")
    then messageBody +:+ template_details paramTexts
    else messageBody
  else messageBody.

Section Senders.

Context {X : Type} {P : Platform X}.

(** [sendTextMessage]: one request, no validation of the recipient and no
    retry. *)
Definition sendTextMessage (recipientNumber messageText : string) : M X bool :=
  client <- getTwilioClient ;;
  match client with
  | None => ret false
  | Some client =>
      config <- getConfig ;;
      match config with
      | None => ret false
      | Some config =>
          try_catch
            (message <-
               create_text client config recipientNumber messageText ;;
             ret true)
            (fun error => log_error_details error ;;; ret false)
      end
  end.

(** [sendTemplateMessage]; a missing [templateName] is ["hello_world"], and
    [languageCode] is not used. *)
Definition sendTemplateMessage (recipientNumber : string)
    (templateName languageCode : option string) : M X bool :=
  let templateName := default "hello_world" templateName in
  client <- getTwilioClient ;;
  match client with
  | None => ret false
  | Some client =>
      config <- getConfig ;;
      match config with
      | None => ret false
      | Some config =>
          try_catch
            (message <-
               create_text client config recipientNumber
                 (template_body_once templateName) ;;
             ret true)
            (fun error => log_error_details error ;;; ret false)
      end
  end.

Definition sendTemplateMessageWithRetry (recipientNumber templateName : string)
    (templateParams : list TemplateParam) : M X bool :=
  client <- getTwilioClient ;;
  match client with
  | None => ret false
  | Some client =>
      if negb (validateE164 recipientNumber) then ret false
      else
        config <- getConfig ;;
        match config with
        | None => ret false
        | Some config =>
            try_catch
              (let messageBody := messageBody templateName templateParams in
               message <-
                 retryWithBackoff
                   (create_text client config recipientNumber messageBody)
                   3 1000 ;;
               ret true)
              (fun error => log_error_details error ;;; ret false)
        end
  end.

(** [process.env.NODE_ENV === "production"] *)
Definition isProduction : M X bool :=
  fun st => (Ok (bool_decide (env st !! "NODE_ENV" = Some "production")), st).

Definition sendFreeTrialConfirmation
    (recipientNumber customerName relation albumName : string) : M X bool :=
  isProduction <- isProduction ;;
  if isProduction then
    sendTextMessageWithRetry recipientNumber
      (confirmation_message_production customerName relation albumName)
  else
    sendTextMessageWithRetry recipientNumber
      (confirmation_message_development customerName relation albumName).

Definition sendStorytellerOnboarding
    (recipientNumber relation customerName : string) : M X bool :=
  isProduction <- isProduction ;;
  if isProduction then
    sendTextMessageWithRetry recipientNumber
      (onboarding_message_production relation customerName)
  else
    sendTextMessageWithRetry recipientNumber
      (onboarding_message_development relation customerName).

Definition sendReadinessCheck (recipientNumber relation : string) : M X bool :=
  isProduction <- isProduction ;;
  if isProduction then
    sendTextMessageWithRetry recipientNumber (readiness_message_production relation)
  else
    sendTextMessageWithRetry recipientNumber (readiness_message_development relation).

Definition sendVoiceNoteAcknowledgment (recipientNumber : string) : M X bool :=
  isProduction <- isProduction ;;
  if isProduction then
    sendTextMessageWithRetry recipientNumber acknowledgment_message_production
  else
    sendTextMessageWithRetry recipientNumber acknowledgment_message_development.

Definition sendAlbumCompletionMessage
    (recipientNumber playlistAlbumLink vinylAlbumLink : string) : M X bool :=
  isProduction <- isProduction ;;
  if isProduction then
    sendTextMessageWithRetry recipientNumber
      (completion_message_production playlistAlbumLink vinylAlbumLink)
  else
    sendTextMessageWithRetry recipientNumber
      (completion_message_development playlistAlbumLink vinylAlbumLink).

(** [process.env.WHATSAPP_BUSINESS_NUMBER_E164 ||
     process.env.TWILIO_WHATSAPP_NUMBER?.replace(/^\+/, "") ||
     "919876543210"] *)
Definition businessPhone (e : gmap string string) : string :=
  or_default (e !! "WHATSAPP_BUSINESS_NUMBER_E164")
    (or_default (JsOps.remove_leading_plus <$> e !! "TWILIO_WHATSAPP_NUMBER")
       "919876543210").

(** The language's [encodeURIComponent], passed in. *)
Variable encodeURIComponent : string -> string.

Definition sendShareableLink
    (recipientNumber storytellerName buyerName orderId : string) : M X bool :=
  fun st =>
    let businessPhone := businessPhone (env st) in
    let prefilledMessage := prefilled_message buyerName orderId in
    let whatsappLink :=
      whatsapp_link businessPhone (encodeURIComponent prefilledMessage) in
    let message := shareable_link_message storytellerName whatsappLink in
    sendTextMessageWithRetry recipientNumber message st.

End Senders.

(** ** The traces of the senders *)

(** What a call that retries [r] leaves in the trace when it sleeps
    [delays]: the request before each delay, and once more at the end. *)
Definition backoff_trace (r : Request) (delays : list Z) : list Event :=
  flat_map (fun ms => [Sent r; Slept ms]) delays ++ [Sent r].

(** ** The segments of a URL *)

(** A path: each of the [segments] behind a slash. *)
Definition path (segments : list (list ascii)) : list ascii :=
  flat_map (fun seg => "/"%char :: seg) segments.

(** No slash in [l]. *)
Definition slash_free (l : list ascii) : bool :=
  forallb (fun c => negb (JsOps.is_slash c)) l.

(** The match of the regular expression at the start of [l] only. *)
Definition regex_here (lit : list ascii) (excl : ascii -> bool) (slash : bool)
    (l : list ascii) : option (list ascii) :=
  if JsOps.is_prefix lit l then
    let rest := skipn (length lit) l in
    let run := JsOps.take_while (fun c => negb (excl c)) rest in
    match run with
    | [] => None
    | _ =>
        if slash then
          match skipn (length run) rest with
          | "/"%char :: _ => Some run
          | _ => None
          end
        else Some run
    end
  else None.

(** The start of the segment that follows the first segment [name] of
    [segments] whose successor does not start with a character of [excl]:
    the characters of that successor up to the first one of [excl]. *)
Fixpoint segment_after (name : list ascii) (excl : ascii -> bool)
    (segments : list (list ascii)) : option (list ascii) :=
  match segments with
  | [] => None
  | seg :: tail =>
      match tail with
      | [] => None
      | next :: _ =>
          match JsOps.take_while (fun c => negb (excl c)) next with
          | [] => segment_after name excl tail
          | run => if bool_decide (seg = name) then Some run
                   else segment_after name excl tail
          end
      end
  end.

(** The segment that follows the first segment [name] of [segments] whose
    successor is not empty and is followed by a further segment. *)
Fixpoint segment_between (name : list ascii) (segments : list (list ascii))
    : option (list ascii) :=
  match segments with
  | [] => None
  | seg :: tail =>
      match tail with
      | next :: _ :: _ =>
          match next with
          | [] => segment_between name tail
          | _ => if bool_decide (seg = name) then Some next
                 else segment_between name tail
          end
      | _ => segment_between name tail
      end
  end.

(** The form of the media URL of a webhook, as the comments of
    [downloadVoiceNoteMedia] give it:
    [https://api.twilio.com/2010-04-01/Accounts/{AccountSid}/Messages/{MessageSid}/Media/{MediaSid}] *)
Definition twilio_media_url (accountSid messageSid mediaSid : string) : string :=
  "https://api.twilio.com/2010-04-01/Accounts/" +:+ accountSid
  +:+ "/Messages/" +:+ messageSid +:+ "/Media/" +:+ mediaSid.

(** An identifier: not empty, and without slash and question mark. *)
Definition is_sid (s : string) : bool :=
  negb (String.eqb s "")
  && forallb (fun c => negb (JsOps.is_slash_or_qmark c)) (Js.chars s).

(** ** The star rating *)

Module StarRating.

(** [ratingLabels[n]] *)
Definition ratingLabels (n : Z) : option string :=
  if n =? 1 then Some "Poor"
  else if n =? 2 then Some "Fair"
  else if n =? 3 then Some "Good"
  else if n =? 4 then Some "Very Good"
  else if n =? 5 then Some "Excellent!"
  else None.

(** [hoverRating || value] *)
Definition displayRating (hoverRating value : Z) : Z :=
  if hoverRating =? 0 then value else hoverRating.

(** What the component shows: for each of the stars 1 to 5 whether it is
    filled, and the label; [None] is no paragraph at all, [Some None] a
    paragraph without text. *)
Record View := {
  filled : list bool;
  label : option (option string)
}.

Definition render (hoverRating value : Z) : View :=
  let displayRating := displayRating hoverRating value in
  {| filled := (fun rating => rating <=? displayRating) <$> [1; 2; 3; 4; 5];
     label := if 0 <? displayRating then Some (ratingLabels displayRating)
              else None |}.

(** What the user does to star [rating]. *)
Inductive Action :=
| Click (rating : Z)
| MouseEnter (rating : Z)
| MouseLeave (rating : Z).

(** The state is [hoverRating]; a click only calls [onChange], whose
    arguments are collected. *)
Definition step (a : Action) (s : Z * list Z) : Z * list Z :=
  let '(hoverRating, changes) := s in
  match a with
  | Click rating => (hoverRating, changes ++ [rating])
  | MouseEnter rating => (rating, changes)
  | MouseLeave _ => (0, changes)
  end.

End StarRating.

(** ** More sample data *)

Module Scenario.

(** A network error: no [status], and a [code] that is no number. *)
Definition connection_reset : JsError :=
  {| message := JStr "read ECONNRESET"; status := JUndefined;
     code := JStr "ECONNRESET" |}.

(** An operation that rejects with [undefined]. *)
Definition reject_undefined : M (list JsError) unit := throw (ThrownVal JUndefined).

Definition media_url_with_query : string :=
  "https://api.twilio.com/2010-04-01/Accounts/AC1/Messages/MM1/Media/ME1?size=full".

(** A trial without its customer. *)
Definition incomplete_trial : list (string * Sql.Value) := [("id", Sql.Text "t2")].

(** The user points at the fifth star, clicks it and leaves. *)
Definition hover_and_click : list StarRating.Action :=
  [StarRating.MouseEnter 5; StarRating.Click 5; StarRating.MouseLeave 5].

(** An environment whose account SID is not one. *)
Definition misconfigured : gmap string string :=
  list_to_map [("TWILIO_ACCOUNT_SID", "XX1"); ("TWILIO_AUTH_TOKEN", "secret");
               ("TWILIO_WHATSAPP_NUMBER", "+14155238886")].

Definition start_misconfigured : State (list JsError) :=
  {| env := misconfigured; world := []; trace := [] |}.

(** The hover rating and the reported ratings after that. *)
Definition after_hover_and_click : Z * list Z :=
  fold_left (fun s a => StarRating.step a s) hover_and_click (0, []).

End Scenario.

(* ===================================================================== *)
(** * Part II. Theorems                                                   *)
(* ===================================================================== *)

Local Open Scope js_scope.

(** ** Strings *)

Lemma chars_of_chars (l : list ascii) : Js.chars (Js.of_chars l) = l.
Proof. apply String.list_ascii_of_string_of_list_ascii. Qed.

Lemma of_chars_chars (s : string) : Js.of_chars (Js.chars s) = s.
Proof. apply String.string_of_list_ascii_of_string. Qed.

Lemma strlen_chars (s : string) : Js.strlen s = Z.of_nat (length (Js.chars s)).
Proof.
  unfold Js.strlen, Js.chars. f_equal.
  induction s as [|c s IH]; simpl; [reflexivity | now rewrite IH].
Qed.

Lemma chars_append (s t : string) :
  Js.chars (s +:+ t) = Js.chars s ++ Js.chars t.
Proof.
  unfold Js.chars. induction s as [|c s IH]; simpl; [reflexivity | now rewrite IH].
Qed.

Lemma filter_digits_fixed (l : list ascii) :
  forallb Js.is_digit l = true -> List.filter Js.is_digit l = l.
Proof.
  induction l as [|c l IH]; simpl; [reflexivity |].
  intros H. apply andb_prop in H as [Hc Hl]. rewrite Hc, IH; auto.
Qed.

Lemma forallb_filter_digits (l : list ascii) :
  forallb Js.is_digit (List.filter Js.is_digit l) = true.
Proof.
  induction l as [|c l IH]; simpl; [reflexivity |].
  destruct (Js.is_digit c) eqn:E; simpl; [rewrite E |]; auto.
Qed.

Lemma remove_non_digits_digits_only (s : string) :
  Js.digits_only (Js.remove_non_digits s) = true.
Proof.
  unfold Js.digits_only, Js.remove_non_digits.
  rewrite chars_of_chars. apply forallb_filter_digits.
Qed.

Lemma remove_non_digits_fixed (s : string) :
  Js.digits_only s = true -> Js.remove_non_digits s = s.
Proof.
  unfold Js.digits_only, Js.remove_non_digits. intros H.
  rewrite filter_digits_fixed by assumption. apply of_chars_chars.
Qed.

Lemma digits_only_append (s t : string) :
  Js.digits_only (s +:+ t) = Js.digits_only s && Js.digits_only t.
Proof. unfold Js.digits_only. rewrite chars_append. apply forallb_app. Qed.

Lemma strlen_append (s t : string) : Js.strlen (s +:+ t) = Js.strlen s + Js.strlen t.
Proof. rewrite !strlen_chars, chars_append, length_app. lia. Qed.

Lemma startsWith_append (p s : string) : Js.startsWith p (p +:+ s) = true.
Proof.
  unfold Js.startsWith. induction p as [|c p IH]; simpl.
  - destruct s; reflexivity.
  - destruct (ascii_dec c c); [assumption | congruence].
Qed.

(** ** [normalizePhoneNumber] *)

(** C6. [normalizePhoneNumber] returns a digits-only string. With [d] the
    input stripped of every non-digit character (its digits, in order):
    exactly 10 digits give ["91"] followed by [d]; exactly 12 digits
    starting with ["91"] give [d] unchanged; anything else gives [d] as it
    is. *)
Theorem normalizePhoneNumber_cases (phone : string) :
  let d := Js.remove_non_digits phone in
  Js.chars d = List.filter Js.is_digit (Js.chars phone) /\
  Js.digits_only (normalizePhoneNumber phone) = true /\
  normalizePhoneNumber phone =
    (if Js.strlen d =? 10 then "91" +:+ d
     else if (Js.strlen d =? 12) && Js.startsWith "91" d then d
     else d).
Proof.
  intros d. split; [apply chars_of_chars |].
  unfold normalizePhoneNumber. fold d.
  pose proof (remove_non_digits_digits_only phone) as Hd. fold d in Hd.
  destruct (Js.strlen d =? 10) eqn:E10.
  - apply Z.eqb_eq in E10.
    replace (Js.strlen d =? 12) with false by (symmetry; apply Z.eqb_neq; lia).
    rewrite andb_false_r. split; [|reflexivity].
    rewrite digits_only_append, Hd. reflexivity.
  - destruct (Js.startsWith "91" d && (Js.strlen d =? 12)) eqn:E12;
      (split; [assumption |]);
      destruct ((Js.strlen d =? 12) && Js.startsWith "91" d); reflexivity.
Qed.

(** C9. [normalizePhoneNumber] is idempotent. *)
Theorem normalizePhoneNumber_idempotent (s : string) :
  normalizePhoneNumber (normalizePhoneNumber s) = normalizePhoneNumber s.
Proof.
  unfold normalizePhoneNumber at 2 3.
  set (d := Js.remove_non_digits s).
  pose proof (remove_non_digits_digits_only s) as Hd. fold d in Hd.
  destruct (Js.startsWith "91" d && (Js.strlen d =? 12)) eqn:E12.
  - unfold normalizePhoneNumber. rewrite (remove_non_digits_fixed d Hd), E12.
    reflexivity.
  - destruct (Js.strlen d =? 10) eqn:E10.
    + apply Z.eqb_eq in E10. unfold normalizePhoneNumber.
      assert (H91 : Js.digits_only ("91" +:+ d) = true)
        by (rewrite digits_only_append, Hd; reflexivity).
      rewrite (remove_non_digits_fixed _ H91).
      rewrite startsWith_append, strlen_append, E10. reflexivity.
    + unfold normalizePhoneNumber.
      rewrite (remove_non_digits_fixed d Hd), E12, E10. reflexivity.
Qed.

(** ** [retryWithBackoff] *)

Section RetryFacts.

Context {X : Type} {P : Platform X} {T : Type}.
Variable fn : M X T.
Variable maxRetries : Z.
Variable initialDelayMs : Z.

Abbreviation loop := (retry_loop fn maxRetries initialDelayMs).

(** Reading [error.code] succeeds once reading [error.status] has. *)
Lemma transient_rethrown (error : Thrown) (b : bool) :
  transient error = Some b -> rethrown error = error.
Proof.
  unfold transient, rethrown. destruct (error_status error); [reflexivity |].
  discriminate.
Qed.

Lemma error_status_get_code (error : Thrown) (s : JsVal) :
  error_status error = Ok s -> exists c, JsOps.get code error = Ok c.
Proof.
  destruct error as [e | v]; simpl; [eauto |].
  destruct v; simpl; try discriminate; eauto.
Qed.

(** One iteration of the loop. *)
Lemma retry_loop_step (attempt : Z) (lastError : Thrown) (st : State X) :
  attempt <= maxRetries ->
  loop attempt lastError st =
    match fn st with
    | (Ok v, st') => (Ok v, st')
    | (Throw error, st') =>
        match transient error with
        | Some true =>
            if attempt <? maxRetries
            then loop (attempt + 1) error
                      (after_sleep (initialDelayMs * 2 ^ attempt) st')
            else (Throw error, st')
        | _ => (Throw (rethrown error), st')
        end
    end.
Proof.
  intros Hle. rewrite retry_loop_equation_1.
  replace (attempt <=? maxRetries) with true by (symmetry; apply Z.leb_le; lia).
  unfold try_catch. destruct (fn st) as [[v | error] st']; [reflexivity |].
  unfold transient, rethrown, bind, eval.
  destruct (error_status error) as [s | t] eqn:Es; [| reflexivity].
  destruct (error_status_get_code _ _ Es) as [c Ec]. rewrite Ec.
  destruct (retryable s c); [| reflexivity].
  destruct (Z_lt_dec attempt maxRetries) as [Hlt | Hge].
  - replace (attempt <? maxRetries) with true by (symmetry; apply Z.ltb_lt; lia).
    reflexivity.
  - replace (attempt <? maxRetries) with false by (symmetry; apply Z.ltb_ge; lia).
    reflexivity.
Qed.

Lemma backoff_delays_S (first count : nat) :
  backoff_delays initialDelayMs first (S count) =
    initialDelayMs * 2 ^ Z.of_nat first
      :: backoff_delays initialDelayMs (S first) count.
Proof. reflexivity. Qed.

(** The run of the loop from attempt number [a], with [j] retries left. *)
Lemma retry_loop_run (j a : nat) (lastError : Thrown) (st : State X) :
  Z.of_nat (a + j) = maxRetries ->
  exists n : nat,
    (n <= j)%nat /\
    (forall k, (k < n)%nat ->
       failed_transiently
         (fn (after_attempts fn (backoff_delays initialDelayMs a k) st)) = true) /\
    loop (Z.of_nat a) lastError st =
      propagate (fn (after_attempts fn (backoff_delays initialDelayMs a n) st)) /\
    ((n < j)%nat ->
       failed_transiently
         (fn (after_attempts fn (backoff_delays initialDelayMs a n) st)) = false).
Proof.
  revert a lastError st. induction j as [| j IH]; intros a lastError st Hm.
  - exists 0%nat. rewrite retry_loop_step by lia. simpl.
    split; [lia |]. split; [intros k Hk; lia |]. split; [| lia].
    destruct (fn st) as [[v | error] st']; [reflexivity |]. simpl.
    destruct (transient error) as [[|]|] eqn:Et; try reflexivity.
    replace (Z.of_nat a <? maxRetries) with false by (symmetry; apply Z.ltb_ge; lia).
    now rewrite (transient_rethrown _ _ Et).
  - rewrite retry_loop_step by lia.
    destruct (fn st) as [[v | error] st'] eqn:Efn.
    + exists 0%nat. simpl. rewrite Efn. simpl. repeat split; lia.
    + destruct (transient error) as [[|]|] eqn:Et.
      * replace (Z.of_nat a <? maxRetries) with true by (symmetry; apply Z.ltb_lt; lia).
        destruct (IH (S a) error
                    (after_sleep (initialDelayMs * 2 ^ Z.of_nat a) st'))
          as (n & Hn & Hbefore & Hrun & Hstop); [lia |].
        exists (S n). rewrite backoff_delays_S. simpl. rewrite Efn. simpl.
        split; [lia |]. split; [| split].
        -- intros [| k] Hk.
           ++ simpl. rewrite Efn. simpl. rewrite Et. apply bool_decide_eq_true_2. reflexivity.
           ++ rewrite backoff_delays_S. simpl. rewrite Efn. simpl. apply Hbefore. lia.
        -- replace (Z.of_nat a + 1) with (Z.of_nat (S a)) by lia. exact Hrun.
        -- intros Hlt. apply Hstop. lia.
      * exists 0%nat. simpl. rewrite Efn. simpl. rewrite Et.
        repeat split; lia || reflexivity.
      * exists 0%nat. simpl. rewrite Efn. simpl. rewrite Et.
        repeat split; lia || reflexivity.
Qed.

Lemma retryWithBackoff_run (st : State X) :
  0 <= maxRetries ->
  exists n : nat,
    Z.of_nat n <= maxRetries /\
    (forall k, (k < n)%nat ->
       failed_transiently (fn (attempt_state fn initialDelayMs k st)) = true) /\
    retryWithBackoff fn maxRetries initialDelayMs st =
      propagate (fn (attempt_state fn initialDelayMs n st)) /\
    (Z.of_nat n < maxRetries ->
       failed_transiently (fn (attempt_state fn initialDelayMs n st)) = false).
Proof.
  intros Hm.
  destruct (retry_loop_run (Z.to_nat maxRetries) 0 (ThrownVal JUndefined) st)
    as (n & Hn & Hbefore & Hrun & Hstop); [lia |].
  exists n. split; [lia |]. split; [exact Hbefore |]. split; [exact Hrun |].
  intros Hlt. apply Hstop. lia.
Qed.

Lemma propagate_state (r : Outcome T * State X) : (propagate r).2 = r.2.
Proof. destruct r as [[v | error] st]; reflexivity. Qed.

Lemma sleeps_app (l1 l2 : list Event) : sleeps (l1 ++ l2) = sleeps l1 ++ sleeps l2.
Proof. unfold sleeps. apply omap_app. Qed.

(** An operation that does not sleep leaves the delays of the schedule,
    and no other, in the trace. *)
Lemma sleeps_after_attempts (delays : list Z) (st : State X) :
  (forall s, sleeps (trace (fn s).2) = sleeps (trace s)) ->
  sleeps (trace (after_attempts fn delays st)) = sleeps (trace st) ++ delays.
Proof.
  intros Hquiet. revert st. induction delays as [| ms delays IH]; intros st.
  - simpl. now rewrite app_nil_r.
  - change (after_attempts fn (ms :: delays) st)
      with (after_attempts fn delays (after_sleep ms (fn st).2)).
    rewrite IH. unfold after_sleep, sleep. simpl.
    rewrite sleeps_app, Hquiet. simpl. now rewrite <- app_assoc.
Qed.

End RetryFacts.

(** ** A request, retried *)

Section RequestFacts.

Context {X : Type} {P : Platform X}.

Lemma send_request_state {A} (r : Request) (h : X -> (A + JsError) * X)
    (st : State X) :
  env (send_request r h st).2 = env st /\
  trace (send_request r h st).2 = trace st ++ [Sent r].
Proof.
  unfold send_request. destruct (h (world st)) as [[a | e] w]; split; reflexivity.
Qed.

(** Retrying one request leaves it in the trace before each delay. *)
Lemma after_attempts_request {A} (r : Request) (h : X -> (A + JsError) * X)
    (delays : list Z) (st : State X) :
  env (after_attempts (send_request r h) delays st) = env st /\
  trace (after_attempts (send_request r h) delays st)
    = trace st ++ flat_map (fun ms => [Sent r; Slept ms]) delays.
Proof.
  revert st. induction delays as [| ms delays IH]; intros st.
  - simpl. now rewrite app_nil_r.
  - change (after_attempts (send_request r h) (ms :: delays) st)
      with (after_attempts (send_request r h) delays
              (after_sleep ms (send_request r h st).2)).
    destruct (IH (after_sleep ms (send_request r h st).2)) as [-> ->].
    destruct (send_request_state r h st) as [He Ht].
    unfold after_sleep, sleep. simpl. rewrite He, Ht. split; [reflexivity |].
    rewrite <- !app_assoc. reflexivity.
Qed.

End RequestFacts.

Section RetryClaims.

Context {X : Type} {P : Platform X} {T : Type}.

(** C2. Let attempts number [0] to [k - 1] of [retryWithBackoff] fail
    transiently, and let attempt number [k] fail with [error], a thrown
    value whose properties can be read. Its status is [error.status], or
    [error.code] when that is falsy. If [error] is permanent (its status
    is not 429, its code is not 20003 and its status is not within 500 to
    599), it is thrown to the caller in the state this attempt left: no
    sleep and no further attempt follow. If [error] is transient and
    retries remain ([k < maxRetries]), the operation is tried again: the
    call ends with a later attempt, at most number [maxRetries], reached
    through transient failures only. If [error] is transient and attempt
    [k] is number [maxRetries], this last error is thrown to the caller. *)
Theorem retryWithBackoff_error_policy
    (fn : M X T) (maxRetries initialDelayMs : Z) (st : State X)
    (k : nat) (error : Thrown) (st' : State X) :
  0 <= maxRetries ->
  Z.of_nat k <= maxRetries ->
  (forall j, (j < k)%nat ->
     failed_transiently (fn (attempt_state fn initialDelayMs j st)) = true) ->
  fn (attempt_state fn initialDelayMs k st) = (Throw error, st') ->
  (transient error = Some false ->
     retryWithBackoff fn maxRetries initialDelayMs st = (Throw error, st')) /\
  (transient error = Some true -> Z.of_nat k < maxRetries ->
     exists n : nat,
       (k < n)%nat /\ Z.of_nat n <= maxRetries /\
       (forall j, (j < n)%nat ->
          failed_transiently (fn (attempt_state fn initialDelayMs j st)) = true) /\
       retryWithBackoff fn maxRetries initialDelayMs st =
         propagate (fn (attempt_state fn initialDelayMs n st))) /\
  (transient error = Some true -> Z.of_nat k = maxRetries ->
     retryWithBackoff fn maxRetries initialDelayMs st = (Throw error, st')).
Proof.
  intros Hm Hk Hbefore Hfn.
  destruct (retryWithBackoff_run fn maxRetries initialDelayMs st Hm)
    as (n & Hn & Htrans & Hrun & Hstop).
  assert (Hcmp : (n < k)%nat -> False).
  { intros Hlt. specialize (Hbefore n Hlt). rewrite Hstop in Hbefore by lia.
    discriminate. }
  assert (Hat : failed_transiently (fn (attempt_state fn initialDelayMs k st))
                = bool_decide (transient error = Some true))
    by (rewrite Hfn; reflexivity).
  split; [| split].
  - intros Hperm.
    assert (n = k) as ->.
    { destruct (lt_eq_lt_dec n k) as [[Hlt | Heq] | Hgt]; [tauto | exact Heq |].
      specialize (Htrans k Hgt). rewrite Hat, Hperm in Htrans. discriminate. }
    rewrite Hrun, Hfn. simpl. now rewrite (transient_rethrown _ _ Hperm).
  - intros Htr Hlt. exists n.
    split; [| split; [exact Hn | split; [exact Htrans | exact Hrun]]].
    destruct (lt_eq_lt_dec n k) as [[Hlt' | Heq] | Hgt]; [tauto | | exact Hgt].
    subst n. rewrite Hat, Htr in Hstop. specialize (Hstop Hlt). discriminate.
  - intros Htr Heq.
    assert (n = k) as -> by (destruct (lt_eq_lt_dec n k) as [[? | ?] | ?]; [tauto | auto | lia]).
    rewrite Hrun, Hfn. simpl. now rewrite (transient_rethrown _ _ Htr).
Qed.

(** C3. In the loop of [retryWithBackoff], an attempt number
    [attempt < maxRetries] that fails transiently is followed by a sleep
    of exactly [initialDelayMs * 2 ^ attempt] milliseconds, and then by
    attempt number [attempt + 1]. A call makes [retries + 1] attempts with
    [retries <= maxRetries]: each attempt [k < retries] fails transiently
    and is followed by that sleep; attempt number [retries] is the last
    because it is number [maxRetries] or does not fail transiently, and
    its result is the result of the call. When the operation itself does
    not sleep, the delays slept during the call are
    [initialDelayMs * 2 ^ 0, ..., initialDelayMs * 2 ^ (retries - 1)];
    when the operation is one request, the call leaves in the trace the
    request, then each of these delays followed by the request again. *)
Theorem retryWithBackoff_backoff_schedule
    (fn : M X T) (maxRetries initialDelayMs : Z) (st : State X) :
  0 <= maxRetries ->
  (forall attempt lastError s error s',
     0 <= attempt < maxRetries ->
     fn s = (Throw error, s') ->
     transient error = Some true ->
     retry_loop fn maxRetries initialDelayMs attempt lastError s =
       retry_loop fn maxRetries initialDelayMs (attempt + 1) error
         {| env := env s';
            world := elapse (initialDelayMs * 2 ^ attempt) (world s');
            trace := trace s' ++ [Slept (initialDelayMs * 2 ^ attempt)] |}) /\
  exists retries : nat,
    Z.of_nat retries <= maxRetries /\
    (forall k, (k < retries)%nat ->
       failed_transiently (fn (attempt_state fn initialDelayMs k st)) = true /\
       let s' := (fn (attempt_state fn initialDelayMs k st)).2 in
       attempt_state fn initialDelayMs (S k) st =
         {| env := env s';
            world := elapse (initialDelayMs * 2 ^ Z.of_nat k) (world s');
            trace := trace s' ++ [Slept (initialDelayMs * 2 ^ Z.of_nat k)] |}) /\
    (Z.of_nat retries < maxRetries ->
       failed_transiently (fn (attempt_state fn initialDelayMs retries st)) = false) /\
    retryWithBackoff fn maxRetries initialDelayMs st =
      propagate (fn (attempt_state fn initialDelayMs retries st)) /\
    ((forall s, sleeps (trace (fn s).2) = sleeps (trace s)) ->
     sleeps (trace (retryWithBackoff fn maxRetries initialDelayMs st).2) =
       sleeps (trace st) ++
       ((fun k => initialDelayMs * 2 ^ Z.of_nat k) <$> seq 0 retries)) /\
    (forall r h, fn = send_request r h ->
     trace (retryWithBackoff fn maxRetries initialDelayMs st).2 =
       trace st ++ backoff_trace r (backoff_delays initialDelayMs 0 retries)).
Proof.
  intros Hm. split.
  - intros attempt lastError s error s' Hattempt Hfn Htransient.
    rewrite retry_loop_step by lia. rewrite Hfn, Htransient.
    replace (attempt <? maxRetries) with true by (symmetry; apply Z.ltb_lt; lia).
    reflexivity.
  - destruct (retryWithBackoff_run fn maxRetries initialDelayMs st Hm)
      as (n & Hn & Htrans & Hrun & Hstop).
    exists n. split; [exact Hn |].
    split; [| split; [exact Hstop | split; [exact Hrun | split]]].
    + intros k Hk. split; [apply Htrans; exact Hk |].
      unfold attempt_state, backoff_delays, after_attempts.
      rewrite seq_S, fmap_app, fold_left_app. reflexivity.
    + intros Hquiet. rewrite Hrun, propagate_state, Hquiet.
      apply sleeps_after_attempts. exact Hquiet.
    + intros r h ->. rewrite Hrun, propagate_state.
      destruct (send_request_state r h
                  (attempt_state (send_request r h) initialDelayMs n st)) as [_ ->].
      unfold attempt_state.
      destruct (after_attempts_request r h (backoff_delays initialDelayMs 0 n) st)
        as [_ ->].
      unfold backoff_trace. now rewrite app_assoc.
Qed.

(** With no attempt allowed, the loop body never runs and [lastError],
    still [undefined], is thrown. *)
Lemma retryWithBackoff_negative
    (fn : M X T) (maxRetries initialDelayMs : Z) (st : State X) :
  maxRetries < 0 ->
  retryWithBackoff fn maxRetries initialDelayMs st = (Throw (ThrownVal JUndefined), st).
Proof.
  intros Hneg. unfold retryWithBackoff. rewrite retry_loop_equation_1.
  replace (0 <=? maxRetries) with false by (symmetry; apply Z.leb_gt; lia).
  reflexivity.
Qed.

End RetryClaims.

(** ** The gateway *)

Section GatewayFacts.

Context {X : Type} {P : Platform X}.

Lemma process_env_pure (name : string) (st : State X) :
  exists v, process_env name st = (Ok v, st).
Proof. unfold process_env. eauto. Qed.

(** Reading the configuration neither fails nor changes the state. *)
Lemma getConfig_pure (st : State X) :
  exists config, getConfig st = (Ok config, st).
Proof.
  unfold getConfig, bind, process_env.
  repeat match goal with
         | |- context [match ?o with Some _ => _ | None => _ end] => destruct o
         | |- context [if ?b then _ else _] => destruct b
         end; unfold ret; eauto.
Qed.

(** Building the client changes nothing: without a configuration there is
    no client; with one, the constructor builds the client or throws. *)
Lemma getTwilioClient_unconfigured (st : State X) :
  getConfig st = (Ok None, st) -> getTwilioClient st = (Ok None, st).
Proof. intros H. unfold getTwilioClient, bind. rewrite H. reflexivity. Qed.

Lemma getTwilioClient_configured (st : State X) (config : TwilioConfig) :
  getConfig st = (Ok (Some config), st) ->
  Js.startsWith "AC" (accountSid config) = true ->
  getTwilioClient st = (Ok (Some (client_of config)), st).
Proof.
  intros H Hac. unfold getTwilioClient, bind. rewrite H.
  unfold eval, twilio. rewrite Hac. reflexivity.
Qed.

Lemma getTwilioClient_refused (st : State X) (config : TwilioConfig) :
  getConfig st = (Ok (Some config), st) ->
  Js.startsWith "AC" (accountSid config) = false ->
  getTwilioClient st = (Throw (ThrownErr (twilio_error (accountSid config))), st).
Proof.
  intros H Hac. unfold getTwilioClient, bind. rewrite H.
  unfold eval, twilio. rewrite Hac. reflexivity.
Qed.

Lemma getTwilioClient_cases (st : State X) :
  (getConfig st = (Ok None, st) /\ getTwilioClient st = (Ok None, st)) \/
  (exists config,
     getConfig st = (Ok (Some config), st) /\
     Js.startsWith "AC" (accountSid config) = true /\
     getTwilioClient st = (Ok (Some (client_of config)), st)) \/
  (exists config,
     getConfig st = (Ok (Some config), st) /\
     Js.startsWith "AC" (accountSid config) = false /\
     getTwilioClient st =
       (Throw (ThrownErr (twilio_error (accountSid config))), st)).
Proof.
  destruct (getConfig_pure st) as [[config |] Hc].
  - destruct (Js.startsWith "AC" (accountSid config)) eqn:Hac.
    + right. left. exists config. auto using getTwilioClient_configured.
    + right. right. exists config. auto using getTwilioClient_refused.
  - left. auto using getTwilioClient_unconfigured.
Qed.

(** A request that is rejected throws an error object. *)
Lemma send_request_throws {A} (r : Request) (h : X -> (A + JsError) * X)
    (st st' : State X) (t : Thrown) :
  send_request r h st = (Throw t, st') -> exists e, t = ThrownErr e.
Proof.
  unfold send_request. destruct (h (world st)) as [[a | e] w]; intros H;
    inversion H; eauto.
Qed.

Lemma client_messages_create_throws (client : Client) (params : MessageParams)
    (st st' : State X) (t : Thrown) :
  client_messages_create client params st = (Throw t, st') ->
  exists e, t = ThrownErr e.
Proof.
  unfold client_messages_create.
  destruct (isValidPathParam (client_accountSid client));
    [apply send_request_throws | intros H; inversion H; eauto].
Qed.

Lemma client_media_fetch_throws (client : Client) (messageSid mediaSid : string)
    (st st' : State X) (t : Thrown) :
  client_media_fetch client messageSid mediaSid st = (Throw t, st') ->
  exists e, t = ThrownErr e.
Proof.
  unfold client_media_fetch.
  destruct (_ && _); [apply send_request_throws | intros H; inversion H; eauto].
Qed.

Lemma rethrown_object (e : JsError) : rethrown (ThrownErr e) = ThrownErr e.
Proof.
  unfold rethrown, error_status. simpl. destruct (JsOps.truthy (status e)); reflexivity.
Qed.

(** [retryWithBackoff] throws an error object when the operation throws
    nothing else. *)
Lemma retryWithBackoff_throws {T} (fn : M X T) (maxRetries initialDelayMs : Z)
    (st st' : State X) (t : Thrown) :
  (forall s s' t', fn s = (Throw t', s') -> exists e, t' = ThrownErr e) ->
  0 <= maxRetries ->
  retryWithBackoff fn maxRetries initialDelayMs st = (Throw t, st') ->
  exists e, t = ThrownErr e.
Proof.
  intros Hfn Hm Hrun.
  destruct (retryWithBackoff_run fn maxRetries initialDelayMs st Hm)
    as (n & _ & _ & Heq & _).
  rewrite Heq in Hrun.
  destruct (fn (attempt_state fn initialDelayMs n st)) as [[v | t'] s'] eqn:E;
    simpl in Hrun; [discriminate |].
  destruct (Hfn _ _ _ E) as [e ->]. rewrite rethrown_object in Hrun.
  inversion Hrun. eauto.
Qed.

Lemma log_error_details_object (e : JsError) (st : State X) :
  log_error_details (ThrownErr e) st = (Ok tt, st).
Proof. reflexivity. Qed.

Lemma get_message_object (e : JsError) (st : State X) :
  eval (JsOps.get message (ThrownErr e)) st = (Ok (message e), st).
Proof. reflexivity. Qed.

(** A body that throws only error objects, under a handler that reads
    [error.message] and returns [a], returns a value. *)
Lemma try_catch_returns {A} (body : M X A) (a : A) (st : State X) :
  (forall s' t, body st = (Throw t, s') -> exists e, t = ThrownErr e) ->
  exists r st',
    try_catch body (fun error => eval (JsOps.get message error) ;;; ret a) st
    = (Ok r, st').
Proof.
  intros Hbody. unfold try_catch.
  destruct (body st) as [[v | t] s'] eqn:E; [eauto |].
  destruct (Hbody _ _ eq_refl) as [e ->]. unfold bind. rewrite get_message_object.
  unfold ret. eauto.
Qed.

Lemma download_with_env_auth_throws (url : string) (st st' : State X) (t : Thrown) :
  Rev1.download_with_env_auth url st = (Throw t, st') -> exists e, t = ThrownErr e.
Proof.
  unfold Rev1.download_with_env_auth. intros H.
  destruct (process_env_pure "TWILIO_ACCOUNT_SID" st) as [u Hu].
  destruct (process_env_pure "TWILIO_AUTH_TOKEN" st) as [p Hp].
  unfold bind in H. rewrite Hu, Hp in H.
  destruct (axios_get_request _ _ st) as [[v | t'] s] eqn:E; simpl in H; [discriminate |].
  inversion H; subst. eapply send_request_throws. exact E.
Qed.

(** [sendTextMessageWithRetry] once the client is built and the recipient
    has passed. *)
Lemma sendTextMessageWithRetry_configured
    (recipientNumber messageText : string) (st : State X) (config : TwilioConfig) :
  validateE164 recipientNumber = true ->
  getConfig st = (Ok (Some config), st) ->
  Js.startsWith "AC" (accountSid config) = true ->
  sendTextMessageWithRetry recipientNumber messageText st =
    match
      retryWithBackoff
        (create_text (client_of config) config recipientNumber messageText)
        3 1000 st
    with
    | (Ok _, st') => (Ok true, st')
    | (Throw _, st') => (Ok false, st')
    end.
Proof.
  intros Hvalid Hconfig Hac. unfold sendTextMessageWithRetry, bind.
  rewrite (getTwilioClient_configured _ _ Hconfig Hac), Hvalid. cbv beta iota.
  unfold negb. unfold bind. rewrite Hconfig. unfold try_catch.
  match goal with
  | |- context [retryWithBackoff ?fn ?m ?d st] =>
      destruct (retryWithBackoff fn m d st) as [[v | t] s'] eqn:E
  end; [reflexivity |].
  apply retryWithBackoff_throws in E as [e ->]; [reflexivity | | lia].
  intros s s1 t'. apply client_messages_create_throws.
Qed.

(** What the constructor throws leaves [sendTextMessageWithRetry]: the
    client is built before the [try]. *)
Lemma sendTextMessageWithRetry_refused
    (recipientNumber messageText : string) (st : State X) (config : TwilioConfig) :
  getConfig st = (Ok (Some config), st) ->
  Js.startsWith "AC" (accountSid config) = false ->
  sendTextMessageWithRetry recipientNumber messageText st =
    (Throw (ThrownErr (twilio_error (accountSid config))), st).
Proof.
  intros Hconfig Hac. unfold sendTextMessageWithRetry, bind.
  rewrite (getTwilioClient_refused _ _ Hconfig Hac). reflexivity.
Qed.

(** C5. [sendTextMessageWithRetry] builds the Twilio client before its
    [try]. With an account SID that is configured and does not start with
    [AC], what the constructor throws reaches the caller, in the state as
    it was. In every other state the call returns [true] or [false], and
    [false] when the retried request ends with a thrown error.
    [downloadMediaFile], in both revisions, returns a buffer or [null] in
    every state, and [null] when the download request is rejected: what
    the constructor throws there is caught. *)
Theorem gateway_throws_only_from_constructor :
  (forall recipientNumber messageText (st : State X) config,
     getConfig st = (Ok (Some config), st) ->
     Js.startsWith "AC" (accountSid config) = false ->
     sendTextMessageWithRetry recipientNumber messageText st =
       (Throw (ThrownErr (twilio_error (accountSid config))), st)) /\
  (forall recipientNumber messageText (st : State X),
     (forall config, getConfig st = (Ok (Some config), st) ->
        Js.startsWith "AC" (accountSid config) = true) ->
     (exists (b : bool) st',
        sendTextMessageWithRetry recipientNumber messageText st = (Ok b, st')) /\
     (forall config error st',
        validateE164 recipientNumber = true ->
        getConfig st = (Ok (Some config), st) ->
        retryWithBackoff
          (create_text (client_of config) config recipientNumber messageText)
          3 1000 st
        = (Throw error, st') ->
        sendTextMessageWithRetry recipientNumber messageText st = (Ok false, st'))) /\
  (forall mediaUrl accessToken (st : State X),
     (exists (r : option (list Byte.byte)) st',
        Rev2.downloadMediaFile mediaUrl accessToken st = (Ok r, st')) /\
     (forall username password e w',
        process_env "TWILIO_ACCOUNT_SID" st = (Ok (Some username), st) ->
        process_env "TWILIO_AUTH_TOKEN" st = (Ok (Some password), st) ->
        let config := {| auth_username := username; auth_password := password;
                         timeout := Some 30000 |} in
        axios_get mediaUrl config (world st) = (inr e, w') ->
        Rev2.downloadMediaFile mediaUrl accessToken st =
          (Ok None,
           {| env := env st; world := w';
              trace := trace st ++ [Sent (AxiosGet mediaUrl config)] |}))) /\
  (forall mediaUrl accessToken (st : State X),
     exists (r : option (list Byte.byte)) st',
       Rev1.downloadMediaFile mediaUrl accessToken st = (Ok r, st')).
Proof.
  split; [| split; [| split]].
  - intros recipientNumber messageText st config.
    apply sendTextMessageWithRetry_refused.
  - intros recipientNumber messageText st Hbuilt. split.
    + destruct (getTwilioClient_cases st)
        as [[Hc Hclient] | [(config & Hc & Hac & Hclient)
                           | (config & Hc & Hac & _)]].
      * unfold sendTextMessageWithRetry, bind. rewrite Hclient. unfold ret. eauto.
      * destruct (validateE164 recipientNumber) eqn:Hvalid.
        -- rewrite (sendTextMessageWithRetry_configured _ _ _ _ Hvalid Hc Hac).
           match goal with
           | |- context [retryWithBackoff ?fn ?m ?d st] =>
               destruct (retryWithBackoff fn m d st) as [[v | t] s']
           end; eauto.
        -- unfold sendTextMessageWithRetry, bind. rewrite Hclient, Hvalid.
           unfold ret. simpl. eauto.
      * rewrite (Hbuilt config Hc) in Hac. discriminate.
    + intros config error st' Hvalid Hconfig Hthrow.
      rewrite (sendTextMessageWithRetry_configured _ _ _ _ Hvalid Hconfig
                 (Hbuilt config Hconfig)), Hthrow.
      reflexivity.
  - intros mediaUrl accessToken st. split.
    + apply try_catch_returns.
      intros s' t H. unfold bind in H.
      destruct (process_env_pure "TWILIO_ACCOUNT_SID" st) as [u Hu].
      destruct (process_env_pure "TWILIO_AUTH_TOKEN" st) as [p Hp].
      rewrite Hu, Hp in H. destruct u, p; try discriminate.
      destruct (axios_get_request _ _ st) as [[v | t'] s1] eqn:E; [discriminate |].
      inversion H; subst. eapply send_request_throws. exact E.
    + intros username password e w' Hu Hp config Hget.
      unfold Rev2.downloadMediaFile, try_catch, bind. rewrite Hu, Hp.
      fold config. unfold axios_get_request, send_request. rewrite Hget.
      reflexivity.
  - intros mediaUrl accessToken st. apply try_catch_returns.
    intros s' t H. unfold bind in H.
    destruct (getTwilioClient_cases st)
      as [[_ Hclient] | [(config & _ & _ & Hclient) | (config & _ & _ & Hclient)]];
      rewrite Hclient in H.
    + now apply download_with_env_auth_throws in H.
    + destruct (JsOps.match_media_sid mediaUrl) as [mediaSid |];
        [| now apply download_with_env_auth_throws in H].
      destruct (JsOps.match_message_sid mediaUrl) as [messageSid |];
        [| now apply download_with_env_auth_throws in H].
      destruct (client_media_fetch (client_of config) messageSid mediaSid st)
        as [[media | t'] s] eqn:E.
      * now apply download_with_env_auth_throws in H.
      * inversion H; subst. eapply client_media_fetch_throws. exact E.
    + inversion H; eauto.
Qed.

Lemma validateE164_non_digit (phone : string) (c : ascii) :
  In c (Js.chars phone) -> Js.is_digit c = false -> validateE164 phone = false.
Proof.
  intros Hin Hc. unfold validateE164, Js.digits_only.
  assert (forallb Js.is_digit (Js.chars phone) = false) as ->; [| reflexivity].
  apply not_true_is_false. intros Hall.
  rewrite forallb_forall in Hall. rewrite (Hall _ Hin) in Hc. discriminate.
Qed.

(** C7. A recipient passes [validateE164] exactly when it is 10 to 15
    digits; one that contains a character other than a digit, a [+] for
    instance, fails it. For a recipient that fails it,
    [sendTextMessageWithRetry] leaves the state as it was: no request is
    sent and no delay is slept. It returns [false], unless the account SID
    is configured and does not start with [AC]: the client is built
    before the recipient is looked at, and what the constructor throws
    reaches the caller. *)
Theorem sendTextMessageWithRetry_invalid_recipient
    (recipientNumber messageText : string) (st : State X) :
  (validateE164 recipientNumber = true <->
     Js.digits_only recipientNumber = true /\
     10 <= Js.strlen recipientNumber <= 15) /\
  (forall c, In c (Js.chars recipientNumber) -> Js.is_digit c = false ->
     validateE164 recipientNumber = false) /\
  (validateE164 recipientNumber = false ->
     (sendTextMessageWithRetry recipientNumber messageText st).2 = st /\
     ((forall config, getConfig st = (Ok (Some config), st) ->
         Js.startsWith "AC" (accountSid config) = true) ->
      sendTextMessageWithRetry recipientNumber messageText st = (Ok false, st)) /\
     (forall config, getConfig st = (Ok (Some config), st) ->
        Js.startsWith "AC" (accountSid config) = false ->
        sendTextMessageWithRetry recipientNumber messageText st =
          (Throw (ThrownErr (twilio_error (accountSid config))), st))).
Proof.
  split; [| split].
  - unfold validateE164. rewrite !andb_true_iff, !Z.leb_le. tauto.
  - apply validateE164_non_digit.
  - intros Hbad.
    assert (Hcases :
      sendTextMessageWithRetry recipientNumber messageText st = (Ok false, st) \/
      exists config,
        getConfig st = (Ok (Some config), st) /\
        Js.startsWith "AC" (accountSid config) = false /\
        sendTextMessageWithRetry recipientNumber messageText st =
          (Throw (ThrownErr (twilio_error (accountSid config))), st)).
    { destruct (getTwilioClient_cases st)
        as [[Hc Hclient] | [(config & Hc & Hac & Hclient)
                           | (config & Hc & Hac & _)]].
      - left. unfold sendTextMessageWithRetry, bind. rewrite Hclient. reflexivity.
      - left. unfold sendTextMessageWithRetry, bind. rewrite Hclient, Hbad.
        reflexivity.
      - right. exists config.
        auto using sendTextMessageWithRetry_refused. }
    split; [| split].
    + destruct Hcases as [-> | (config & _ & _ & ->)]; reflexivity.
    + intros Hbuilt. destruct Hcases as [H | (config & Hc & Hac & _)]; [exact H |].
      rewrite (Hbuilt config Hc) in Hac. discriminate.
    + intros config Hc Hac. now apply sendTextMessageWithRetry_refused.
Qed.

(** *** [downloadVoiceNoteMedia] *)

(** The request for the metadata is sent when the three identifiers are
    valid in a path, and else an error is thrown in its place. *)
Lemma client_media_fetch_sent (client : Client) (messageSid mediaSid : string) :
  isValidPathParam (client_accountSid client) = true ->
  isValidPathParam messageSid = true ->
  isValidPathParam mediaSid = true ->
  client_media_fetch client messageSid mediaSid =
    send_request (MediaFetch client messageSid mediaSid)
                 (media_fetch client messageSid mediaSid).
Proof. intros Ha Hm Hd. unfold client_media_fetch. now rewrite Ha, Hm, Hd. Qed.

Lemma client_media_fetch_refused (client : Client) (messageSid mediaSid : string)
    (st : State X) :
  isValidPathParam (client_accountSid client)
  && isValidPathParam messageSid && isValidPathParam mediaSid = false ->
  client_media_fetch client messageSid mediaSid st =
    (Throw (ThrownErr invalid_path_param), st).
Proof. intros H. unfold client_media_fetch. now rewrite H. Qed.

Lemma fetch_is_sent_valid (config : TwilioConfig) (messageSid mediaSid : string) :
  fetch_is_sent config messageSid mediaSid = true ->
  Js.startsWith "AC" (accountSid config) = true /\
  client_media_fetch (client_of config) messageSid mediaSid =
    send_request (MediaFetch (client_of config) messageSid mediaSid)
                 (media_fetch (client_of config) messageSid mediaSid).
Proof.
  unfold fetch_is_sent.
  intros [[[Hac Ha]%andb_true_iff Hm]%andb_true_iff Hd]%andb_true_iff.
  split; [exact Hac | now apply client_media_fetch_sent].
Qed.

Lemma client_media_fetch_rejected (client : Client) (messageSid mediaSid : string)
    (st : State X) (e : JsError) (w' : X) :
  client_media_fetch client messageSid mediaSid =
    send_request (MediaFetch client messageSid mediaSid)
                 (media_fetch client messageSid mediaSid) ->
  media_fetch client messageSid mediaSid (world st) = (inr e, w') ->
  client_media_fetch client messageSid mediaSid st =
    (Throw (ThrownErr e),
     {| env := env st; world := w';
        trace := trace st ++ [Sent (MediaFetch client messageSid mediaSid)] |}).
Proof. intros -> H. unfold send_request. now rewrite H. Qed.

Lemma client_media_fetch_answered (client : Client) (messageSid mediaSid : string)
    (st : State X) (media : MediaInstance) (w' : X) :
  client_media_fetch client messageSid mediaSid =
    send_request (MediaFetch client messageSid mediaSid)
                 (media_fetch client messageSid mediaSid) ->
  media_fetch client messageSid mediaSid (world st) = (inl media, w') ->
  client_media_fetch client messageSid mediaSid st =
    (Ok media,
     {| env := env st; world := w';
        trace := trace st ++ [Sent (MediaFetch client messageSid mediaSid)] |}).
Proof. intros -> H. unfold send_request. now rewrite H. Qed.

Lemma client_media_fetch_trace (client : Client) (messageSid mediaSid : string)
    (st : State X) :
  trace (client_media_fetch client messageSid mediaSid st).2 = trace st \/
  trace (client_media_fetch client messageSid mediaSid st).2 =
    trace st ++ [Sent (MediaFetch client messageSid mediaSid)].
Proof.
  unfold client_media_fetch. destruct (_ && _); [right | left; reflexivity].
  unfold send_request.
  destruct (media_fetch _ _ _ _) as [[m | e] w]; reflexivity.
Qed.

(** Without credentials both revisions return [null]. *)
Lemma downloadVoiceNoteMedia_unconfigured (mediaUrl : string) (st : State X) :
  getConfig st = (Ok None, st) ->
  Rev1.downloadVoiceNoteMedia mediaUrl st = (Ok None, st) /\
  Rev2.downloadVoiceNoteMedia mediaUrl st = (Ok None, st).
Proof.
  intros Hc. split.
  - unfold Rev1.downloadVoiceNoteMedia. unfold try_catch at 1. unfold bind at 1.
    rewrite Hc. reflexivity.
  - unfold Rev2.downloadVoiceNoteMedia. unfold try_catch at 1. unfold bind at 1.
    rewrite Hc. reflexivity.
Qed.

(** With an account SID that the constructor refuses, both revisions
    catch what it throws and return the defaults; nothing is sent. *)
Lemma downloadVoiceNoteMedia_refused
    (mediaUrl : string) (st : State X) (config : TwilioConfig) :
  getConfig st = (Ok (Some config), st) ->
  Js.startsWith "AC" (accountSid config) = false ->
  Rev1.downloadVoiceNoteMedia mediaUrl st = (Ok (Some (media_defaults mediaUrl)), st) /\
  Rev2.downloadVoiceNoteMedia mediaUrl st = (Ok (Some (media_defaults mediaUrl)), st).
Proof.
  intros Hc Hac. split.
  - unfold Rev1.downloadVoiceNoteMedia. unfold try_catch at 1. unfold bind at 1.
    rewrite Hc. cbv beta iota. unfold bind at 1.
    rewrite (getTwilioClient_refused _ _ Hc Hac). reflexivity.
  - unfold Rev2.downloadVoiceNoteMedia. unfold try_catch at 1. unfold bind at 1.
    rewrite Hc. cbv beta iota. unfold bind at 1.
    rewrite (getTwilioClient_refused _ _ Hc Hac). reflexivity.
Qed.

(** The first revision, with a client. *)
Lemma Rev1_downloadVoiceNoteMedia_configured
    (mediaUrl : string) (st : State X) (config : TwilioConfig) :
  getConfig st = (Ok (Some config), st) ->
  Js.startsWith "AC" (accountSid config) = true ->
  Rev1.downloadVoiceNoteMedia mediaUrl st =
    match JsOps.match_media_sid mediaUrl with
    | Some mediaSid =>
        match client_media_fetch (client_of config) mediaSid mediaSid st with
        | (Ok media, st') =>
            (Ok (Some {| url := JsOps.remove_json_suffix (uri media);
                         mimeType := or_default (contentType media) "audio/ogg";
                         sha256 := "";
                         fileSize :=
                           JsOps.parseInt10 (or_default (contentLength media) "0") |}),
             st')
        | (Throw _, st') => (Ok (Some (media_defaults mediaUrl)), st')
        end
    | None => (Ok (Some (media_defaults mediaUrl)), st)
    end.
Proof.
  intros Hc Hac. unfold Rev1.downloadVoiceNoteMedia.
  unfold try_catch at 1. unfold bind at 1. rewrite Hc. cbv beta iota.
  unfold bind at 1. rewrite (getTwilioClient_configured _ _ Hc Hac). cbv beta iota.
  destruct (JsOps.match_media_sid mediaUrl) as [mediaSid |]; [| reflexivity].
  unfold bind.
  destruct (client_media_fetch _ mediaSid mediaSid st) as [[media | t] s] eqn:E;
    [reflexivity |].
  apply client_media_fetch_throws in E as [e ->]. reflexivity.
Qed.

(** The second revision, with a client. *)
Lemma Rev2_downloadVoiceNoteMedia_configured
    (mediaUrl : string) (st : State X) (config : TwilioConfig) :
  getConfig st = (Ok (Some config), st) ->
  Js.startsWith "AC" (accountSid config) = true ->
  Rev2.downloadVoiceNoteMedia mediaUrl st =
    match JsOps.match_media_sid_q mediaUrl, JsOps.match_message_sid mediaUrl with
    | Some mediaSid, Some messageSid =>
        match client_media_fetch (client_of config) messageSid mediaSid st with
        | (Ok media, st') =>
            (Ok (Some {| url := mediaUrl;
                         mimeType := or_default (contentType media) "audio/ogg";
                         sha256 := "";
                         fileSize :=
                           JsOps.parseInt10 (or_default (contentLength media) "0") |}),
             st')
        | (Throw _, st') => (Ok (Some (media_defaults mediaUrl)), st')
        end
    | _, _ => (Ok (Some (media_defaults mediaUrl)), st)
    end.
Proof.
  intros Hc Hac. unfold Rev2.downloadVoiceNoteMedia.
  unfold try_catch at 1. unfold bind at 1. rewrite Hc. cbv beta iota.
  unfold bind at 1. rewrite (getTwilioClient_configured _ _ Hc Hac). cbv beta iota.
  destruct (JsOps.match_media_sid_q mediaUrl) as [mediaSid |]; [| reflexivity].
  destruct (JsOps.match_message_sid mediaUrl) as [messageSid |]; [| reflexivity].
  unfold try_catch, bind.
  destruct (client_media_fetch _ messageSid mediaSid st) as [[media | t] s] eqn:E;
    [reflexivity |].
  apply client_media_fetch_throws in E as [e ->]. reflexivity.
Qed.

(** C10. With the Twilio credentials configured, the second revision of
    [downloadVoiceNoteMedia] returns a record: never [null], and nothing
    thrown. When the URL has not the expected format, and when the
    metadata request is rejected, the record is the original URL with
    mime type ["audio/ogg"], an empty [sha256] and [fileSize] 0; a
    metadata request answered with no content type and no content length
    returns the same record. The same record is returned, and nothing is
    sent, when the constructor of the client throws. Where the request
    is sent, it is the one event of the call. *)
Theorem downloadVoiceNoteMedia_fallback
    (mediaUrl : string) (st : State X) (config : TwilioConfig) :
  getConfig st = (Ok (Some config), st) ->
  let client := client_of config in
  (exists media st',
     Rev2.downloadVoiceNoteMedia mediaUrl st = (Ok (Some media), st')) /\
  (JsOps.match_media_sid_q mediaUrl = None \/
   JsOps.match_message_sid mediaUrl = None ->
   Rev2.downloadVoiceNoteMedia mediaUrl st =
     (Ok (Some (media_defaults mediaUrl)), st)) /\
  (forall mediaSid messageSid e w',
     JsOps.match_media_sid_q mediaUrl = Some mediaSid ->
     JsOps.match_message_sid mediaUrl = Some messageSid ->
     media_fetch client messageSid mediaSid (world st) = (inr e, w') ->
     (Rev2.downloadVoiceNoteMedia mediaUrl st).1 =
       Ok (Some (media_defaults mediaUrl)) /\
     (fetch_is_sent config messageSid mediaSid = true ->
      Rev2.downloadVoiceNoteMedia mediaUrl st =
        (Ok (Some (media_defaults mediaUrl)),
         {| env := env st; world := w';
            trace := trace st ++ [Sent (MediaFetch client messageSid mediaSid)] |}))) /\
  (forall mediaSid messageSid media w',
     JsOps.match_media_sid_q mediaUrl = Some mediaSid ->
     JsOps.match_message_sid mediaUrl = Some messageSid ->
     media_fetch client messageSid mediaSid (world st) = (inl media, w') ->
     contentType media = None -> contentLength media = None ->
     (Rev2.downloadVoiceNoteMedia mediaUrl st).1 =
       Ok (Some (media_defaults mediaUrl)) /\
     (fetch_is_sent config messageSid mediaSid = true ->
      Rev2.downloadVoiceNoteMedia mediaUrl st =
        (Ok (Some (media_defaults mediaUrl)),
         {| env := env st; world := w';
            trace := trace st ++ [Sent (MediaFetch client messageSid mediaSid)] |}))) /\
  (forall mediaSid messageSid,
     JsOps.match_media_sid_q mediaUrl = Some mediaSid ->
     JsOps.match_message_sid mediaUrl = Some messageSid ->
     fetch_is_sent config messageSid mediaSid = false ->
     Rev2.downloadVoiceNoteMedia mediaUrl st =
       (Ok (Some (media_defaults mediaUrl)), st)).
Proof.
  intros Hconfig client.
  assert (Hunsent : forall mediaSid messageSid,
            JsOps.match_media_sid_q mediaUrl = Some mediaSid ->
            JsOps.match_message_sid mediaUrl = Some messageSid ->
            fetch_is_sent config messageSid mediaSid = false ->
            Rev2.downloadVoiceNoteMedia mediaUrl st =
              (Ok (Some (media_defaults mediaUrl)), st)).
  { intros mediaSid messageSid Hmedia Hmessage Hsent.
    destruct (Js.startsWith "AC" (accountSid config)) eqn:Hac.
    - rewrite (Rev2_downloadVoiceNoteMedia_configured _ _ _ Hconfig Hac),
              Hmedia, Hmessage.
      rewrite client_media_fetch_refused; [reflexivity |].
      unfold fetch_is_sent in Hsent. rewrite Hac in Hsent. exact Hsent.
    - exact (proj2 (downloadVoiceNoteMedia_refused mediaUrl st config Hconfig Hac)). }
  assert (Hsent : forall mediaSid messageSid,
            JsOps.match_media_sid_q mediaUrl = Some mediaSid ->
            JsOps.match_message_sid mediaUrl = Some messageSid ->
            fetch_is_sent config messageSid mediaSid = true ->
            Rev2.downloadVoiceNoteMedia mediaUrl st =
              match send_request (MediaFetch client messageSid mediaSid)
                      (media_fetch client messageSid mediaSid) st with
              | (Ok media, st') =>
                  (Ok (Some {| url := mediaUrl;
                               mimeType := or_default (contentType media) "audio/ogg";
                               sha256 := "";
                               fileSize :=
                                 JsOps.parseInt10
                                   (or_default (contentLength media) "0") |}),
                   st')
              | (Throw _, st') => (Ok (Some (media_defaults mediaUrl)), st')
              end).
  { intros mediaSid messageSid Hmedia Hmessage Hs.
    destruct (fetch_is_sent_valid _ _ _ Hs) as [Hac Hfetch].
    rewrite (Rev2_downloadVoiceNoteMedia_configured _ _ _ Hconfig Hac),
            Hmedia, Hmessage.
    fold client in Hfetch |- *. rewrite Hfetch. reflexivity. }
  split; [| split; [| split; [| split]]].
  - destruct (JsOps.match_media_sid_q mediaUrl) as [mediaSid |] eqn:Hmedia.
    2:{ destruct (Js.startsWith "AC" (accountSid config)) eqn:Hac.
        - rewrite (Rev2_downloadVoiceNoteMedia_configured _ _ _ Hconfig Hac), Hmedia.
          eauto.
        - rewrite (proj2 (downloadVoiceNoteMedia_refused mediaUrl st config
                            Hconfig Hac)).
          eauto. }
    destruct (JsOps.match_message_sid mediaUrl) as [messageSid |] eqn:Hmessage.
    2:{ destruct (Js.startsWith "AC" (accountSid config)) eqn:Hac.
        - rewrite (Rev2_downloadVoiceNoteMedia_configured _ _ _ Hconfig Hac),
                  Hmedia, Hmessage.
          eauto.
        - rewrite (proj2 (downloadVoiceNoteMedia_refused mediaUrl st config
                            Hconfig Hac)).
          eauto. }
    destruct (fetch_is_sent config messageSid mediaSid) eqn:Hs.
    + rewrite (Hsent _ _ eq_refl eq_refl Hs).
      destruct (send_request _ _ st) as [[media | t] s]; eauto.
    + rewrite (Hunsent _ _ eq_refl eq_refl Hs). eauto.
  - intros Hnone.
    destruct (Js.startsWith "AC" (accountSid config)) eqn:Hac.
    + rewrite (Rev2_downloadVoiceNoteMedia_configured _ _ _ Hconfig Hac).
      destruct Hnone as [-> | ->]; [reflexivity |].
      destruct (JsOps.match_media_sid_q mediaUrl); reflexivity.
    + exact (proj2 (downloadVoiceNoteMedia_refused mediaUrl st config Hconfig Hac)).
  - intros mediaSid messageSid e w' Hmedia Hmessage Hfetch.
    assert (Hfull : fetch_is_sent config messageSid mediaSid = true ->
              Rev2.downloadVoiceNoteMedia mediaUrl st =
                (Ok (Some (media_defaults mediaUrl)),
                 {| env := env st; world := w';
                    trace := trace st ++
                             [Sent (MediaFetch client messageSid mediaSid)] |})).
    { intros Hs. rewrite (Hsent _ _ Hmedia Hmessage Hs).
      unfold send_request. rewrite Hfetch. reflexivity. }
    split; [| exact Hfull].
    destruct (fetch_is_sent config messageSid mediaSid) eqn:Hs.
    + now rewrite Hfull.
    + now rewrite (Hunsent _ _ Hmedia Hmessage Hs).
  - intros mediaSid messageSid media w' Hmedia Hmessage Hfetch Htype Hlength.
    assert (Hfull : fetch_is_sent config messageSid mediaSid = true ->
              Rev2.downloadVoiceNoteMedia mediaUrl st =
                (Ok (Some (media_defaults mediaUrl)),
                 {| env := env st; world := w';
                    trace := trace st ++
                             [Sent (MediaFetch client messageSid mediaSid)] |})).
    { intros Hs. rewrite (Hsent _ _ Hmedia Hmessage Hs).
      unfold send_request. rewrite Hfetch.
      unfold media_defaults. rewrite Htype, Hlength. reflexivity. }
    split; [| exact Hfull].
    destruct (fetch_is_sent config messageSid mediaSid) eqn:Hs.
    + now rewrite Hfull.
    + now rewrite (Hunsent _ _ Hmedia Hmessage Hs).
  - exact Hunsent.
Qed.

(** C4 as the code has it. The record that [downloadVoiceNoteMedia]
    returns, in either revision, has an empty [sha256], which is not a
    SHA-256 digest; and the call sends at most one request, for the
    metadata of the media: it downloads no bytes. *)
Theorem downloadVoiceNoteMedia_sha256_empty
    (mediaUrl : string) (st st' : State X) (media : VoiceNoteMedia) :
  Rev1.downloadVoiceNoteMedia mediaUrl st = (Ok (Some media), st') \/
  Rev2.downloadVoiceNoteMedia mediaUrl st = (Ok (Some media), st') ->
  sha256 media = "" /\
  is_sha256_hex (sha256 media) = false /\
  (trace st' = trace st \/
   exists client messageSid mediaSid,
     trace st' = trace st ++ [Sent (MediaFetch client messageSid mediaSid)]).
Proof.
  intros H.
  assert (Hempty : sha256 media = "" /\
                   (trace st' = trace st \/
                    exists client messageSid mediaSid,
                      trace st' =
                        trace st ++ [Sent (MediaFetch client messageSid mediaSid)])).
  { destruct (getConfig_pure st) as [[config |] Hc].
    - destruct (Js.startsWith "AC" (accountSid config)) eqn:Hac.
      + rewrite (Rev1_downloadVoiceNoteMedia_configured _ _ _ Hc Hac),
                (Rev2_downloadVoiceNoteMedia_configured _ _ _ Hc Hac) in H.
        destruct H as [H | H].
        * destruct (JsOps.match_media_sid mediaUrl) as [mediaSid |];
            [| inversion H; subst; auto].
          pose proof (client_media_fetch_trace (client_of config)
                        mediaSid mediaSid st) as Htr.
          destruct (client_media_fetch _ _ _ st) as [[m | t] s];
            inversion H; subst; simpl in *; destruct Htr; eauto 6.
        * destruct (JsOps.match_media_sid_q mediaUrl) as [mediaSid |];
            [| inversion H; subst; auto].
          destruct (JsOps.match_message_sid mediaUrl) as [messageSid |];
            [| inversion H; subst; auto].
          pose proof (client_media_fetch_trace (client_of config)
                        messageSid mediaSid st) as Htr.
          destruct (client_media_fetch _ _ _ st) as [[m | t] s];
            inversion H; subst; simpl in *; destruct Htr; eauto 6.
      + destruct (downloadVoiceNoteMedia_refused mediaUrl st config Hc Hac)
          as [H1 H2].
        rewrite H1, H2 in H. destruct H as [H | H]; inversion H; subst; auto.
    - destruct (downloadVoiceNoteMedia_unconfigured mediaUrl st Hc) as [H1 H2].
      rewrite H1, H2 in H. destruct H; discriminate. }
  destruct Hempty as [Hsha Htrace]. rewrite Hsha. auto.
Qed.

End GatewayFacts.

(** ** The relational store *)

Section StoreFacts.

Import Sql.

Lemma rows_of_insert (db : Db) (table : string) (rows : list Row) :
  rows_of (<[table := rows]> db) table = rows.
Proof. unfold rows_of. now rewrite lookup_insert_eq. Qed.

Lemma commit_inr (db db' : Db) :
  commit db = inr db' -> db' = db /\ violation db = None.
Proof.
  unfold commit. destruct (violation db); [discriminate |].
  intros H. inversion H. auto.
Qed.

(** A successful [INSERT] appends the row it built. *)
Lemma exec_insert_inr (t : Table) (values : list (string * Value)) (now : Z)
    (db db' : Db) :
  find_table (tbl_name t) = Some t ->
  exec (Insert (tbl_name t) values) now db = inr db' ->
  exists row,
    build_row t now values = inr row /\
    db' = <[tbl_name t := rows_of db (tbl_name t) ++ [row]]> db /\
    violation db' = None.
Proof.
  intros Ht. unfold exec. rewrite Ht.
  destruct (build_row t now values) as [e | row]; [discriminate |].
  intros H. apply commit_inr in H as [-> Hv]. eauto.
Qed.

(** The fields of a built row: each column of the table holds its value. *)
Lemma build_columns_lookup (now : Z) (values : list (string * Value))
    (cols : list Column) (fields : list (string * Value)) (c : Column) :
  build_columns now values cols = inr fields ->
  NoDup (col_name <$> cols) ->
  In c cols ->
  exists v,
    coerce (col_type c) (column_value now values c) = Some v /\
    (list_to_map fields : Row) !! col_name c = Some v.
Proof.
  revert fields. induction cols as [| c0 cols IH]; intros fields Hb Hnd Hin.
  - destruct Hin.
  - simpl in Hb.
    destruct (coerce (col_type c0) (column_value now values c0)) as [v0 |] eqn:Ec;
      [| discriminate].
    destruct (col_not_null c0 && bool_decide (v0 = Null)); [discriminate |].
    destruct (build_columns now values cols) as [e | fields'] eqn:Eb; [discriminate |].
    inversion Hb; subst fields. clear Hb.
    rewrite fmap_cons in Hnd. apply NoDup_cons in Hnd as [Hnotin Hnd].
    simpl. destruct Hin as [-> | Hin].
    + exists v0. split; [exact Ec |]. apply lookup_insert_eq.
    + destruct (IH fields' eq_refl Hnd Hin) as (v & Hv & Hl).
      exists v. split; [exact Hv |].
      rewrite lookup_insert_ne; [exact Hl |].
      intros Heq. apply Hnotin. rewrite Heq.
      apply list_elem_of_fmap. exists c. split; [reflexivity |].
      now apply list_elem_of_In.
Qed.

Lemma build_row_lookup (t : Table) (now : Z) (values : list (string * Value))
    (row : Row) (c : Column) :
  build_row t now values = inr row ->
  NoDup (col_name <$> tbl_columns t) ->
  In c (tbl_columns t) ->
  exists v,
    coerce (col_type c) (column_value now values c) = Some v /\
    row !! col_name c = Some v.
Proof.
  unfold build_row. intros Hb Hnd Hin.
  destruct (List.find _ values); [discriminate |].
  destruct (bool_decide (NoDup values.*1)); [| discriminate].
  destruct (build_columns now values (tbl_columns t)) as [e | fields] eqn:Eb;
    [discriminate |].
  inversion Hb; subst row. eapply build_columns_lookup; eauto.
Qed.

Lemma free_trials_columns_distinct : NoDup (col_name <$> tbl_columns free_trials).
Proof. apply (bool_decide_unpack _). vm_compute. exact I. Qed.

Lemma voice_notes_columns_distinct : NoDup (col_name <$> tbl_columns voice_notes).
Proof. apply (bool_decide_unpack _). vm_compute. exact I. Qed.

(** C8. The migration declares the defaults ['awaiting_initial_contact'],
    [0] and [0] for [conversation_state], [current_question_index] and
    [retry_count] of [free_trials], and ['pending'] for [download_status] of
    [voice_notes]; and a row inserted without a value for such a column
    holds the column's default. *)
Theorem new_rows_start_in_initial_state :
  (col_default <$> find_column free_trials "conversation_state"
     = Some (Some (DefaultValue (Text "awaiting_initial_contact"))) /\
   col_default <$> find_column free_trials "current_question_index"
     = Some (Some (DefaultValue (Int 0))) /\
   col_default <$> find_column free_trials "retry_count"
     = Some (Some (DefaultValue (Int 0))) /\
   col_default <$> find_column voice_notes "download_status"
     = Some (Some (DefaultValue (Text "pending")))) /\
  (forall values now (db db' : Db),
     exec (Insert "free_trials" values) now db = inr db' ->
     exists row,
       rows_of db' "free_trials" = rows_of db "free_trials" ++ [row] /\
       (assoc "conversation_state" values = None ->
        row !! "conversation_state" = Some (Text "awaiting_initial_contact")) /\
       (assoc "current_question_index" values = None ->
        row !! "current_question_index" = Some (Int 0)) /\
       (assoc "retry_count" values = None ->
        row !! "retry_count" = Some (Int 0))) /\
  (forall values now (db db' : Db),
     exec (Insert "voice_notes" values) now db = inr db' ->
     exists row,
       rows_of db' "voice_notes" = rows_of db "voice_notes" ++ [row] /\
       (assoc "download_status" values = None ->
        row !! "download_status" = Some (Text "pending"))).
Proof.
  split; [repeat split |]. split.
  - intros values now db db' Hexec.
    apply (exec_insert_inr free_trials) in Hexec as (row & Hrow & -> & _);
      [| reflexivity].
    exists row. split; [apply rows_of_insert |].
    pose proof (fun c => build_row_lookup _ _ _ _ c Hrow free_trials_columns_distinct)
      as Hcol.
    split; [| split]; intros Hnone.
    + destruct (Hcol (col "conversation_state" (Varchar (Some 50%nat))
                        (Some (DefaultValue (Text "awaiting_initial_contact"))) true))
        as (v & Hv & Hl); [simpl; tauto |].
      unfold column_value in Hv. simpl in Hv, Hl. rewrite Hnone in Hv.
      simpl in Hv. inversion Hv; subst v. exact Hl.
    + destruct (Hcol (col "current_question_index" Integer
                        (Some (DefaultValue (Int 0))) true))
        as (v & Hv & Hl); [simpl; tauto |].
      unfold column_value in Hv. simpl in Hv, Hl. rewrite Hnone in Hv.
      simpl in Hv. inversion Hv; subst v. exact Hl.
    + destruct (Hcol (col "retry_count" Integer (Some (DefaultValue (Int 0))) true))
        as (v & Hv & Hl); [simpl; tauto |].
      unfold column_value in Hv. simpl in Hv, Hl. rewrite Hnone in Hv.
      simpl in Hv. inversion Hv; subst v. exact Hl.
  - intros values now db db' Hexec.
    apply (exec_insert_inr voice_notes) in Hexec as (row & Hrow & -> & _);
      [| reflexivity].
    exists row. split; [apply rows_of_insert |]. intros Hnone.
    destruct (build_row_lookup _ _ _ _
                (col "download_status" (Varchar (Some 20%nat))
                     (Some (DefaultValue (Text "pending"))) true)
                Hrow voice_notes_columns_distinct)
      as (v & Hv & Hl); [simpl; tauto |].
    unfold column_value in Hv. simpl in Hv, Hl. rewrite Hnone in Hv.
    simpl in Hv. inversion Hv; subst v. exact Hl.
Qed.

(** *** The unique index on [(free_trial_id, question_index)] *)

Lemma key_of_slot (r : Row) (trial : string) (q : Z) :
  bool_decide (r !! "free_trial_id" = Some (Text trial))
  && bool_decide (r !! "question_index" = Some (Int q))
  = bool_decide (key_of slot_columns r = slot_key trial q).
Proof.
  unfold key_of, slot_key. simpl.
  destruct (r !! "free_trial_id") as [[| n | s | t] |];
    destruct (r !! "question_index") as [[| n' | s' | t'] |]; simpl;
    unfold mret, option_ret; rewrite ?andb_false_r; try reflexivity;
    try (symmetry; apply bool_decide_eq_false_2; intros H; inversion H).
  destruct (decide (s = trial)) as [-> | Hs], (decide (n' = q)) as [-> | Hn].
  - rewrite !bool_decide_eq_true_2; reflexivity.
  - rewrite (bool_decide_eq_false_2 (Some (Int n') = _)) by congruence.
    rewrite (bool_decide_eq_false_2 (Some [_; _] = _)) by congruence.
    apply andb_false_r.
  - rewrite (bool_decide_eq_false_2 (Some (Text s) = _)) by congruence.
    rewrite (bool_decide_eq_false_2 (Some [_; _] = _)) by congruence.
    reflexivity.
  - rewrite (bool_decide_eq_false_2 (Some (Text s) = _)) by congruence.
    rewrite (bool_decide_eq_false_2 (Some [_; _] = _)) by congruence.
    reflexivity.
Qed.

Lemma slot_rows_keys (db : Db) (trial : string) (q : Z) :
  slot_rows db trial q =
    List.filter (fun r => bool_decide (key_of slot_columns r = slot_key trial q))
                (rows_of db "voice_notes").
Proof.
  unfold slot_rows. apply List.filter_ext. intros r. apply key_of_slot.
Qed.

Lemma filter_absent_key (keys : list (option (list Value))) (k : list Value) :
  Some k ∉ keys -> List.filter (fun x => bool_decide (x = Some k)) keys = [].
Proof.
  induction keys as [| x keys IH]; intros Hnotin; [reflexivity |]. simpl.
  rewrite bool_decide_eq_false_2.
  - apply IH. intros Hin. apply Hnotin. now apply list_elem_of_further.
  - intros ->. apply Hnotin. apply list_elem_of_here.
Qed.

(** Among distinct keys, a key that is not [NULL] occurs at most once. *)
Lemma distinct_keys_once (keys : list (option (list Value))) (k : list Value) :
  distinct_keys keys = true ->
  (length (List.filter (fun x => bool_decide (x = Some k)) keys) <= 1)%nat.
Proof.
  induction keys as [| [k0 |] keys IH]; simpl; intros Hd.
  - lia.
  - apply andb_prop in Hd as [Hnotin Hd]. specialize (IH Hd).
    destruct (decide (k0 = k)) as [-> | Hne].
    + rewrite bool_decide_eq_true_2 by reflexivity.
      apply negb_true_iff, bool_decide_eq_false in Hnotin.
      rewrite (filter_absent_key keys k Hnotin). simpl. lia.
    + rewrite bool_decide_eq_false_2 by congruence. exact IH.
  - auto.
Qed.

(** A key that is already present makes the keys no longer distinct. *)
Lemma distinct_keys_repeat (keys : list (option (list Value))) (k : list Value) :
  Some k ∈ keys -> distinct_keys (keys ++ [Some k]) = false.
Proof.
  induction keys as [| x keys IH]; intros Hin.
  - inversion Hin.
  - simpl. destruct x as [k0 |].
    + destruct (decide (k0 = k)) as [-> | Hne].
      * rewrite bool_decide_eq_true_2; [reflexivity |].
        apply elem_of_app. right. apply list_elem_of_here.
      * rewrite IH; [apply andb_false_r |].
        apply elem_of_cons in Hin as [Heq | Hin]; [congruence | exact Hin].
    + apply IH. apply elem_of_cons in Hin as [Heq | Hin];
        [discriminate | exact Hin].
Qed.

Lemma filter_fmap_length {A B} (f : A -> B) (p : B -> bool) (l : list A) :
  length (List.filter p (f <$> l)) = length (List.filter (fun a => p (f a)) l).
Proof.
  induction l as [| a l IH]; [reflexivity |].
  rewrite fmap_cons. simpl. destruct (p (f a)); simpl; now rewrite IH.
Qed.

(** A database that violates nothing satisfies the unique index. *)
Lemma violation_none_index (db : Db) :
  violation db = None ->
  unique_holds slot_columns (rows_of db "voice_notes") = true.
Proof.
  unfold violation. destruct (first_error (primary_key_error db) tables);
    [discriminate |].
  destruct (first_error (index_error db) indexes) eqn:Ei; [discriminate |].
  intros _. simpl in Ei. unfold index_error in Ei. simpl in Ei.
  change (unique_holds slot_columns (rows_of db "voice_notes"))
    with (unique_holds ["free_trial_id"; "question_index"] (rows_of db "voice_notes")).
  destruct (unique_holds _ (rows_of db "voice_notes")); [reflexivity | discriminate].
Qed.

Lemma first_error_In {A} (check : A -> option Error) (l : list A) (a : A) (e : Error) :
  In a l -> check a = Some e -> exists e', first_error check l = Some e'.
Proof.
  induction l as [| b l IH]; intros Hin Hc; [destruct Hin |]. simpl.
  destruct (check b) as [eb |] eqn:Eb; [eauto |].
  destruct Hin as [-> | Hin]; [congruence | eauto].
Qed.

(** A database that breaks the unique index is not committed. *)
Lemma commit_index_violated (db : Db) :
  unique_holds slot_columns (rows_of db "voice_notes") = false ->
  exists e, commit db = inl e.
Proof.
  intros Hu. unfold commit.
  assert (exists e, violation db = Some e) as [e ->]; [| eauto].
  unfold violation.
  destruct (first_error (primary_key_error db) tables); [eauto |].
  destruct (first_error_In (index_error db) indexes voice_notes_trial_question_idx
              (UniqueViolation "voice_notes_trial_question_idx"))
    as [e ->]; [simpl; tauto | | eauto].
  unfold index_error.
  change (idx_table voice_notes_trial_question_idx) with "voice_notes".
  rewrite Hu. reflexivity.
Qed.

Lemma violation_empty : violation (∅ : Db) = None.
Proof. reflexivity. Qed.

(** Every database the store can hold satisfies the constraints. *)
Lemma reachable_consistent (db : Db) : reachable db -> violation db = None.
Proof.
  induction 1 as [| s now db db' _ _ Hexec]; [apply violation_empty |].
  destruct s as [table values | table id]; simpl in Hexec;
    destruct (find_table table); try discriminate.
  - destruct (build_row t now values); [discriminate |].
    now apply commit_inr in Hexec as [-> Hv].
  - now apply commit_inr in Hexec as [-> Hv].
Qed.

Lemma slot_rows_at_most_one (db : Db) (trial : string) (q : Z) :
  violation db = None -> (length (slot_rows db trial q) <= 1)%nat.
Proof.
  intros Hv. rewrite slot_rows_keys.
  pose proof (filter_fmap_length (key_of slot_columns)
                (fun x => bool_decide (x = slot_key trial q))
                (rows_of db "voice_notes")) as Hlen.
  cbv beta in Hlen. rewrite <- Hlen.
  apply distinct_keys_once. apply (violation_none_index db Hv).
Qed.

Lemma slot_rows_elem (db : Db) (trial : string) (q : Z) :
  slot_rows db trial q <> [] ->
  slot_key trial q ∈ key_of slot_columns <$> rows_of db "voice_notes".
Proof.
  rewrite slot_rows_keys. intros Hne.
  destruct (List.filter _ _) as [| r rs] eqn:Ef; [congruence |].
  assert (Hin : In r (r :: rs)) by (left; reflexivity).
  rewrite <- Ef in Hin. apply filter_In in Hin as [Hin Hk].
  apply bool_decide_eq_true in Hk. rewrite <- Hk.
  apply list_elem_of_fmap. exists r. split; [reflexivity |].
  now apply list_elem_of_In.
Qed.

(** An [INSERT] into a slot that is filled fails. *)
Lemma insert_filled_slot (db : Db) (now : Z) (values : list (string * Value))
    (trial : string) (q : Z) :
  slot_rows db trial q <> [] ->
  (forall row, build_row voice_notes now values = inr row ->
     row !! "free_trial_id" = Some (Text trial) /\
     row !! "question_index" = Some (Int q)) ->
  exists e, exec (Insert "voice_notes" values) now db = inl e.
Proof.
  intros Hfilled Hslot. simpl.
  destruct (build_row voice_notes now values) as [e | row] eqn:Erow; [eauto |].
  apply commit_index_violated. rewrite rows_of_insert.
  unfold unique_holds. rewrite fmap_app.
  change (key_of slot_columns <$> [row]) with [key_of slot_columns row].
  destruct (Hslot row eq_refl) as [Ht Hq].
  assert (Hkey : key_of slot_columns row = slot_key trial q).
  { apply (bool_decide_eq_true_1 _). rewrite <- key_of_slot.
    rewrite !bool_decide_eq_true_2 by assumption. reflexivity. }
  rewrite Hkey. apply distinct_keys_repeat. now apply slot_rows_elem.
Qed.

(** The slot of the row that a statement builds does not depend on when
    the statement runs. *)
Lemma build_row_slot (now now' : Z) (values : list (string * Value)) (row row' : Row) :
  build_row voice_notes now values = inr row ->
  build_row voice_notes now' values = inr row' ->
  row' !! "free_trial_id" = row !! "free_trial_id" /\
  row' !! "question_index" = row !! "question_index".
Proof.
  intros Hrow Hrow'.
  pose proof (fun c => build_row_lookup _ _ _ _ c Hrow voice_notes_columns_distinct)
    as Hcol.
  pose proof (fun c => build_row_lookup _ _ _ _ c Hrow' voice_notes_columns_distinct)
    as Hcol'.
  split.
  - destruct (Hcol (col "free_trial_id" (Varchar (Some 255%nat)) None true))
      as (v & Hv & Hl); [simpl; tauto |].
    destruct (Hcol' (col "free_trial_id" (Varchar (Some 255%nat)) None true))
      as (v' & Hv' & Hl'); [simpl; tauto |].
    unfold column_value in Hv, Hv'. simpl in Hv, Hv', Hl, Hl'. congruence.
  - destruct (Hcol (col "question_index" Integer None true))
      as (v & Hv & Hl); [simpl; tauto |].
    destruct (Hcol' (col "question_index" Integer None true))
      as (v' & Hv' & Hl'); [simpl; tauto |].
    unfold column_value in Hv, Hv'. simpl in Hv, Hv', Hl, Hl'. congruence.
Qed.

(** C1. In every database the store can hold, a pair
    [(free_trial_id, question_index)] has at most one row of [voice_notes].
    An [INSERT] for a pair that already has a row is refused with an error,
    and the database stays as it was. After a successful [INSERT] the pair
    of the new row has exactly one row, and running the same [INSERT] again
    is refused. *)
Theorem voice_notes_one_row_per_slot (db : Db) :
  reachable db ->
  (forall trial q, (length (slot_rows db trial q) <= 1)%nat) /\
  (forall now values trial q,
     slot_rows db trial q <> [] ->
     (forall row, build_row voice_notes now values = inr row ->
        row !! "free_trial_id" = Some (Text trial) /\
        row !! "question_index" = Some (Int q)) ->
     exists e, exec (Insert "voice_notes" values) now db = inl e) /\
  (forall now values db' row trial q,
     exec (Insert "voice_notes" values) now db = inr db' ->
     build_row voice_notes now values = inr row ->
     row !! "free_trial_id" = Some (Text trial) ->
     row !! "question_index" = Some (Int q) ->
     length (slot_rows db' trial q) = 1%nat /\
     forall now', exists e, exec (Insert "voice_notes" values) now' db' = inl e).
Proof.
  intros Hreach. split; [| split].
  - intros trial q. apply slot_rows_at_most_one. now apply reachable_consistent.
  - intros now values trial q. apply insert_filled_slot.
  - intros now values db' row trial q Hexec Hrow Ht Hq.
    assert (Hreach' : reachable db') by (eapply reachable_exec; eauto).
    pose proof Hexec as Hexec'.
    apply (exec_insert_inr voice_notes) in Hexec' as (row0 & Hrow0 & Hdb' & _);
      [| reflexivity].
    rewrite Hrow in Hrow0. inversion Hrow0; subst row0. clear Hrow0.
    assert (Hfilled : slot_rows db' trial q <> []).
    { rewrite Hdb'. unfold slot_rows. rewrite rows_of_insert.
      rewrite List.filter_app. simpl. rewrite !bool_decide_eq_true_2 by assumption.
      simpl. intros Hnil. apply app_eq_nil in Hnil as [_ Hnil]. discriminate. }
    split.
    + pose proof (slot_rows_at_most_one db' trial q
                    (reachable_consistent db' Hreach')) as Hle.
      destruct (slot_rows db' trial q) as [| r [| r' rs]]; simpl in *;
        [congruence | reflexivity | lia].
    + intros now'. apply (insert_filled_slot db' now' values trial q Hfilled).
      intros row' Hrow'.
      destruct (build_row_slot now now' values row row' Hrow Hrow') as [-> ->].
      auto.
Qed.

End StoreFacts.

(** ** The theorems on the sample world *)

(** A 503 and then a 400: the 400 is thrown at once. A 503 with retries
    left: the call goes on. Four times 503: the fourth is thrown. *)
Lemma retryWithBackoff_error_policy_sample :
  retryWithBackoff Sample.send_hello 3 1000
      (Sample.start [Sample.overloaded; Sample.bad_recipient])
  = (Throw (ThrownErr Sample.bad_recipient),
     (Sample.send_hello
        (attempt_state Sample.send_hello 1000 1
           (Sample.start [Sample.overloaded; Sample.bad_recipient]))).2)
  /\
  (exists n : nat,
     (0 < n)%nat /\ Z.of_nat n <= 3 /\
     (forall j, (j < n)%nat ->
        failed_transiently
          (Sample.send_hello
             (attempt_state Sample.send_hello 1000 j
                (Sample.start [Sample.overloaded]))) = true) /\
     retryWithBackoff Sample.send_hello 3 1000 (Sample.start [Sample.overloaded])
     = propagate
         (Sample.send_hello
            (attempt_state Sample.send_hello 1000 n
               (Sample.start [Sample.overloaded]))))
  /\
  retryWithBackoff Sample.send_hello 3 1000
      (Sample.start (replicate 4 Sample.overloaded))
  = (Throw (ThrownErr Sample.overloaded),
     (Sample.send_hello
        (attempt_state Sample.send_hello 1000 3
           (Sample.start (replicate 4 Sample.overloaded)))).2).
Proof.
  split; [| split].
  - destruct (retryWithBackoff_error_policy Sample.send_hello 3 1000
                (Sample.start [Sample.overloaded; Sample.bad_recipient]) 1
                (ThrownErr Sample.bad_recipient)
                (Sample.send_hello
                   (attempt_state Sample.send_hello 1000 1
                      (Sample.start [Sample.overloaded; Sample.bad_recipient]))).2)
      as (Hpermanent & _ & _).
    + lia.
    + lia.
    + intros [| j] Hj; [vm_compute; reflexivity | lia].
    + vm_compute; reflexivity.
    + apply Hpermanent. vm_compute; reflexivity.
  - destruct (retryWithBackoff_error_policy Sample.send_hello 3 1000
                (Sample.start [Sample.overloaded]) 0
                (ThrownErr Sample.overloaded)
                (Sample.send_hello (Sample.start [Sample.overloaded])).2)
      as (_ & Hretried & _).
    + lia.
    + lia.
    + intros j Hj; lia.
    + vm_compute; reflexivity.
    + apply Hretried; [vm_compute; reflexivity | lia].
  - destruct (retryWithBackoff_error_policy Sample.send_hello 3 1000
                (Sample.start (replicate 4 Sample.overloaded)) 3
                (ThrownErr Sample.overloaded)
                (Sample.send_hello
                   (attempt_state Sample.send_hello 1000 3
                      (Sample.start (replicate 4 Sample.overloaded)))).2)
      as (_ & _ & Hexhausted).
    + lia.
    + lia.
    + intros [| [| [| j]]] Hj; [vm_compute; reflexivity .. | lia].
    + vm_compute; reflexivity.
    + apply Hexhausted; [vm_compute; reflexivity | reflexivity].
Defined.

Lemma retryWithBackoff_backoff_schedule_sample :
  retryWithBackoff Sample.send_hello 3 1000
      (Sample.start [Sample.overloaded; Sample.overloaded])
  = (Ok Sample.queued,
     {| env := Sample.configured; world := [];
        trace := [Sent (MessagesCreate Sample.client Sample.hello); Slept 1000;
                  Sent (MessagesCreate Sample.client Sample.hello); Slept 2000;
                  Sent (MessagesCreate Sample.client Sample.hello)] |}).
Proof.
  destruct (retryWithBackoff_backoff_schedule Sample.send_hello 3 1000
              (Sample.start [Sample.overloaded; Sample.overloaded]))
    as (_ & retries & Hle & Htrans & Hstop & Hrun & _ & _); [lia |].
  assert (retries = 2%nat) as ->.
  { destruct retries as [| [| [| n]]].
    - assert (H : Z.of_nat 0 < 3) by lia. apply Hstop in H.
      vm_compute in H. discriminate H.
    - assert (H : Z.of_nat 1 < 3) by lia. apply Hstop in H.
      vm_compute in H. discriminate H.
    - reflexivity.
    - assert (H : (2 < S (S (S n)))%nat) by lia. apply Htrans in H as [H _].
      vm_compute in H. discriminate H. }
  rewrite Hrun. vm_compute. reflexivity.
Defined.

(** The run of the sample above, computed: two delays, 1000 and 2000
    milliseconds, between three requests. *)
Example retryWithBackoff_sample_trace :
  let r := retryWithBackoff Sample.send_hello 3 1000
             (Sample.start [Sample.overloaded; Sample.overloaded]) in
  r.1 = Ok Sample.queued /\
  trace r.2 =
    [Sent (MessagesCreate Sample.client Sample.hello); Slept 1000;
     Sent (MessagesCreate Sample.client Sample.hello); Slept 2000;
     Sent (MessagesCreate Sample.client Sample.hello)].
Proof. vm_compute. split; reflexivity. Qed.

(** A 400 at the first attempt: one request, no delay, and the 400 thrown. *)
Example retryWithBackoff_sample_permanent :
  let r := retryWithBackoff Sample.send_hello 3 1000
             (Sample.start [Sample.bad_recipient]) in
  r.1 = Throw (ThrownErr Sample.bad_recipient) /\
  trace r.2 = [Sent (MessagesCreate Sample.client Sample.hello)].
Proof. vm_compute. split; reflexivity. Qed.

Lemma gateway_throws_only_from_constructor_sample :
  sendTextMessageWithRetry "919876543210" "hello" Scenario.start_misconfigured
  = (Throw (ThrownErr (JsOps.Error "accountSid must start with AC")),
     Scenario.start_misconfigured)
  /\
  sendTextMessageWithRetry "919876543210" "hello"
      (Sample.start (replicate 4 Sample.overloaded))
  = (Ok false,
     (retryWithBackoff
        (create_text Sample.client Sample.twilio_config "919876543210" "hello")
        3 1000 (Sample.start (replicate 4 Sample.overloaded))).2)
  /\
  Rev2.downloadMediaFile Sample.media_url None (Sample.start [Sample.not_found])
  = (Ok None,
     {| env := Sample.configured; world := [];
        trace := [Sent (AxiosGet Sample.media_url
                          {| auth_username := "AC1"; auth_password := "secret";
                             timeout := Some 30000 |})] |}).
Proof.
  destruct (@gateway_throws_only_from_constructor (list JsError) Sample.scripted)
    as (Hthrow & Hsend & Hget & _).
  split; [| split].
  - apply (Hthrow "919876543210" "hello" Scenario.start_misconfigured
             {| accountSid := "XX1"; authToken := "secret";
                whatsappNumber := "+14155238886" |}).
    + vm_compute; reflexivity.
    + reflexivity.
  - destruct (Hsend "919876543210" "hello"
                (Sample.start (replicate 4 Sample.overloaded))) as [_ Hfalse].
    + intros config Hc. vm_compute in Hc. inversion Hc. reflexivity.
    + apply (Hfalse Sample.twilio_config (ThrownErr Sample.overloaded)).
      * vm_compute; reflexivity.
      * vm_compute; reflexivity.
      * vm_compute; reflexivity.
  - destruct (Hget Sample.media_url None (Sample.start [Sample.not_found]))
      as [_ Hnull].
    apply (Hnull "AC1" "secret" Sample.not_found ([] : list JsError)).
    + vm_compute; reflexivity.
    + vm_compute; reflexivity.
    + vm_compute; reflexivity.
Defined.

Lemma sendTextMessageWithRetry_invalid_recipient_sample :
  sendTextMessageWithRetry "+919876543210" "hello" Scenario.start_misconfigured
  = (Throw (ThrownErr (JsOps.Error "accountSid must start with AC")),
     Scenario.start_misconfigured)
  /\
  sendTextMessageWithRetry "+919876543210" "hello" (Sample.start [])
  = (Ok false, Sample.start []).
Proof.
  split.
  - destruct (sendTextMessageWithRetry_invalid_recipient
                "+919876543210" "hello" Scenario.start_misconfigured)
      as (_ & _ & Hbad).
    destruct Hbad as (_ & _ & Hthrow); [vm_compute; reflexivity |].
    apply (Hthrow {| accountSid := "XX1"; authToken := "secret";
                     whatsappNumber := "+14155238886" |}).
    + vm_compute; reflexivity.
    + reflexivity.
  - destruct (sendTextMessageWithRetry_invalid_recipient
                "+919876543210" "hello" (Sample.start [])) as (_ & _ & Hbad).
    destruct Hbad as (_ & Hfalse & _); [vm_compute; reflexivity |].
    apply Hfalse. intros config Hc. vm_compute in Hc. inversion Hc. reflexivity.
Defined.

Lemma downloadVoiceNoteMedia_fallback_sample :
  Rev2.downloadVoiceNoteMedia Sample.media_url (Sample.start [Sample.not_found])
  = (Ok (Some (media_defaults Sample.media_url)),
     {| env := Sample.configured; world := [];
        trace := [Sent (MediaFetch Sample.client "MM1" "ME1")] |}).
Proof.
  destruct (downloadVoiceNoteMedia_fallback Sample.media_url
              (Sample.start [Sample.not_found]) Sample.twilio_config)
    as (_ & _ & Hrejected & _).
  - vm_compute; reflexivity.
  - destruct (Hrejected "ME1" "MM1" Sample.not_found ([] : list JsError))
      as [_ Hsent].
    + vm_compute; reflexivity.
    + vm_compute; reflexivity.
    + vm_compute; reflexivity.
    + apply Hsent. reflexivity.
Defined.

Lemma downloadVoiceNoteMedia_sha256_empty_sample :
  sha256 {| url := Sample.media_url; mimeType := "audio/ogg"; sha256 := "";
            fileSize := JsOps.Finite 4 |} = "" /\
  is_sha256_hex
    (sha256 {| url := Sample.media_url; mimeType := "audio/ogg"; sha256 := "";
               fileSize := JsOps.Finite 4 |}) = false /\
  (trace (Rev2.downloadVoiceNoteMedia Sample.media_url (Sample.start [])).2
   = trace (Sample.start []) \/
   exists client messageSid mediaSid,
     trace (Rev2.downloadVoiceNoteMedia Sample.media_url (Sample.start [])).2
     = trace (Sample.start []) ++ [Sent (MediaFetch client messageSid mediaSid)]).
Proof.
  apply (downloadVoiceNoteMedia_sha256_empty Sample.media_url (Sample.start [])).
  right. vm_compute; reflexivity.
Defined.

(** C4, as stated, on the sample world. Twilio answers the metadata request
    for a voice note of four bytes; both revisions return a record whose
    [sha256] is the empty string, which is the hash of no content, and the
    only request sent is the one for the metadata. *)
Lemma downloadVoiceNoteMedia_sha256_not_content_hash :
  (Rev2.downloadVoiceNoteMedia Sample.media_url (Sample.start [])).1
    = Ok (Some {| url := Sample.media_url; mimeType := "audio/ogg"; sha256 := "";
                  fileSize := JsOps.Finite 4 |}) /\
  (Rev1.downloadVoiceNoteMedia Sample.media_url (Sample.start [])).1
    = Ok (Some {| url := "/2010-04-01/Accounts/AC1/Messages/MM1/Media/ME1";
                  mimeType := "audio/ogg"; sha256 := ""; fileSize := JsOps.Finite 4 |}) /\
  is_sha256_hex "" = false /\
  requests (trace (Rev2.downloadVoiceNoteMedia Sample.media_url (Sample.start [])).2)
    = [MediaFetch Sample.client "MM1" "ME1"] /\
  requests (trace (Rev1.downloadVoiceNoteMedia Sample.media_url (Sample.start [])).2)
    = [MediaFetch Sample.client "ME1" "ME1"].
Proof. vm_compute. repeat split. Qed.

Section StoreSamples.

Import Sql.

Lemma db_trial_reachable : reachable Sample.db_trial.
Proof.
  apply (reachable_exec (Insert "free_trials" Sample.trial_values) 5 ∅);
    [apply reachable_empty | vm_compute; reflexivity].
Qed.

Lemma voice_notes_one_row_per_slot_sample :
  length (slot_rows Sample.db_note "t1" 0) = 1%nat /\
  forall now', exists e,
    exec (Insert "voice_notes" (Sample.note_values "v1" 0)) now' Sample.db_note = inl e.
Proof.
  destruct (voice_notes_one_row_per_slot Sample.db_trial db_trial_reachable)
    as (_ & _ & Hreplay).
  apply (Hreplay 7 (Sample.note_values "v1" 0) Sample.db_note
           (match build_row voice_notes 7 (Sample.note_values "v1" 0) with
            | inr row => row
            | inl _ => ∅
            end)).
  - vm_compute; reflexivity.
  - vm_compute; reflexivity.
  - vm_compute; reflexivity.
  - vm_compute; reflexivity.
Defined.

Lemma new_rows_start_in_initial_state_sample :
  (exists row,
     rows_of Sample.db_trial "free_trials" = rows_of ∅ "free_trials" ++ [row] /\
     (assoc "conversation_state" Sample.trial_values = None ->
      row !! "conversation_state" = Some (Text "awaiting_initial_contact")) /\
     (assoc "current_question_index" Sample.trial_values = None ->
      row !! "current_question_index" = Some (Int 0)) /\
     (assoc "retry_count" Sample.trial_values = None ->
      row !! "retry_count" = Some (Int 0))) /\
  (exists row,
     rows_of Sample.db_note "voice_notes"
       = rows_of Sample.db_trial "voice_notes" ++ [row] /\
     (assoc "download_status" (Sample.note_values "v1" 0) = None ->
      row !! "download_status" = Some (Text "pending"))).
Proof.
  destruct new_rows_start_in_initial_state as (_ & Htrial & Hnote).
  split.
  - apply (Htrial Sample.trial_values 5 ∅ Sample.db_trial).
    vm_compute; reflexivity.
  - apply (Hnote (Sample.note_values "v1" 0) 7 Sample.db_trial Sample.db_note).
    vm_compute; reflexivity.
Defined.

End StoreSamples.

(** ** More on [retryWithBackoff] *)

Section RetryMore.

Context {X : Type} {P : Platform X} {T : Type}.

(** The first attempt that is not a transient failure ends the call. *)
Lemma retryWithBackoff_stops
    (fn : M X T) (maxRetries initialDelayMs : Z) (st : State X) (k : nat) :
  0 <= maxRetries ->
  Z.of_nat k <= maxRetries ->
  (forall j, (j < k)%nat ->
     failed_transiently (fn (attempt_state fn initialDelayMs j st)) = true) ->
  failed_transiently (fn (attempt_state fn initialDelayMs k st)) = false ->
  retryWithBackoff fn maxRetries initialDelayMs st =
    propagate (fn (attempt_state fn initialDelayMs k st)).
Proof.
  intros Hm Hk Hbefore Hlast.
  destruct (retryWithBackoff_run fn maxRetries initialDelayMs st Hm)
    as (n & Hn & Htrans & Hrun & Hstop).
  assert (n = k) as ->; [| exact Hrun].
  destruct (lt_eq_lt_dec n k) as [[Hlt | Heq] | Hgt]; [| exact Heq |].
  - specialize (Hbefore n Hlt). rewrite Hstop in Hbefore by lia. discriminate.
  - specialize (Htrans k Hgt). rewrite Hlast in Htrans. discriminate.
Qed.

(** X1. The value of the first attempt that succeeds is returned, in the
    state that attempt left. *)
Theorem retryWithBackoff_returns_first_success
    (fn : M X T) (maxRetries initialDelayMs : Z) (st : State X)
    (k : nat) (v : T) (st' : State X) :
  0 <= maxRetries ->
  Z.of_nat k <= maxRetries ->
  (forall j, (j < k)%nat ->
     failed_transiently (fn (attempt_state fn initialDelayMs j st)) = true) ->
  fn (attempt_state fn initialDelayMs k st) = (Ok v, st') ->
  retryWithBackoff fn maxRetries initialDelayMs st = (Ok v, st').
Proof.
  intros Hm Hk Hbefore Hfn.
  rewrite (retryWithBackoff_stops fn maxRetries initialDelayMs st k Hm Hk Hbefore).
  - rewrite Hfn. reflexivity.
  - rewrite Hfn. reflexivity.
Qed.

(** X2. An operation that rejects with [undefined] or [null] is not retried,
    and the caller gets a TypeError in place of the value thrown. *)
Theorem retryWithBackoff_nullish_rejection
    (fn : M X T) (maxRetries initialDelayMs : Z) (st st' : State X) (v : JsVal) :
  0 <= maxRetries ->
  v = JUndefined \/ v = JNull ->
  fn st = (Throw (ThrownVal v), st') ->
  retryWithBackoff fn maxRetries initialDelayMs st =
    (Throw (ThrownErr (JsOps.TypeError "Cannot read properties of undefined")), st').
Proof.
  intros Hm Hv Hfn.
  rewrite (retryWithBackoff_stops fn maxRetries initialDelayMs st 0 Hm).
  - change (attempt_state fn initialDelayMs 0 st) with st. rewrite Hfn.
    destruct Hv as [-> | ->]; reflexivity.
  - lia.
  - intros j Hj. lia.
  - change (attempt_state fn initialDelayMs 0 st) with st. rewrite Hfn.
    destruct Hv as [-> | ->]; reflexivity.
Qed.

(** X3. An error with no [status] is judged by its [code]: a network error,
    whose code is a string that is not a number, is thrown at once; a
    numeric code 429, or one from 500 to 599, is retried. *)
Theorem error_without_status_judged_by_code (e : JsError) :
  status e = JUndefined ->
  (forall s, code e = JStr s -> StringToNumber s = None ->
     transient (ThrownErr e) = Some false) /\
  (forall c, code e = JNum c ->
     transient (ThrownErr e) =
       Some ((c =? 429) || (c =? 20003) || ((500 <=? c) && (c <? 600)))).
Proof.
  intros Hs. unfold transient, error_status. simpl. rewrite Hs. simpl. split.
  - intros s Hc Hnan. rewrite Hc. unfold retryable, JsOps.ge_num, JsOps.lt_num.
    simpl. rewrite Hnan. reflexivity.
  - intros c Hc. rewrite Hc. unfold retryable, JsOps.ge_num, JsOps.lt_num.
    simpl. reflexivity.
Qed.

Lemma sum_backoff_delays (d : Z) (first count : nat) :
  foldr Z.add 0 (backoff_delays d first count)
  = d * 2 ^ Z.of_nat first * (2 ^ Z.of_nat count - 1).
Proof.
  revert first. induction count as [| count IH]; intros first.
  - simpl. lia.
  - change (backoff_delays d first (S count))
      with (d * 2 ^ Z.of_nat first :: backoff_delays d (S first) count).
    simpl foldr. rewrite IH.
    replace (Z.of_nat (S first)) with (Z.of_nat first + 1) by lia.
    replace (Z.of_nat (S count)) with (Z.of_nat count + 1) by lia.
    rewrite !Z.pow_add_r by lia. lia.
Qed.

(** X4. When the operation does not sleep itself, a call sleeps
    [initialDelayMs * (2 ^ retries - 1)] milliseconds in all, which is at
    most [initialDelayMs * (2 ^ maxRetries - 1)]. *)
Theorem retryWithBackoff_total_delay
    (fn : M X T) (maxRetries initialDelayMs : Z) (st : State X) :
  0 <= maxRetries ->
  0 <= initialDelayMs ->
  (forall s, sleeps (trace (fn s).2) = sleeps (trace s)) ->
  exists (retries : nat) (delays : list Z),
    Z.of_nat retries <= maxRetries /\
    sleeps (trace (retryWithBackoff fn maxRetries initialDelayMs st).2)
      = sleeps (trace st) ++ delays /\
    length delays = retries /\
    foldr Z.add 0 delays = initialDelayMs * (2 ^ Z.of_nat retries - 1) /\
    foldr Z.add 0 delays <= initialDelayMs * (2 ^ maxRetries - 1).
Proof.
  intros Hm Hd Hquiet.
  destruct (retryWithBackoff_run fn maxRetries initialDelayMs st Hm)
    as (n & Hn & _ & Hrun & _).
  exists n, (backoff_delays initialDelayMs 0 n).
  split; [exact Hn |]. split; [| split; [| split]].
  - rewrite Hrun, propagate_state, Hquiet.
    apply sleeps_after_attempts. exact Hquiet.
  - unfold backoff_delays. rewrite length_fmap. apply length_seq.
  - rewrite sum_backoff_delays. simpl. lia.
  - rewrite sum_backoff_delays. simpl.
    assert (2 ^ Z.of_nat n <= 2 ^ maxRetries)
      by (apply Z.pow_le_mono_r; lia).
    nia.
Qed.

End RetryMore.

(** ** More on the senders *)

Section SendersFacts.

Context {X : Type} {P : Platform X}.

Lemma retryWithBackoff_request_trace {A} (r : Request) (h : X -> (A + JsError) * X)
    (maxRetries initialDelayMs : Z) (st : State X) :
  0 <= maxRetries ->
  exists retries : nat,
    Z.of_nat retries <= maxRetries /\
    env (retryWithBackoff (send_request r h) maxRetries initialDelayMs st).2
      = env st /\
    trace (retryWithBackoff (send_request r h) maxRetries initialDelayMs st).2
      = trace st ++ backoff_trace r (backoff_delays initialDelayMs 0 retries).
Proof.
  intros Hm.
  destruct (retryWithBackoff_run (send_request r h) maxRetries initialDelayMs st Hm)
    as (n & Hn & _ & Hrun & _).
  exists n. split; [exact Hn |]. rewrite Hrun, propagate_state.
  destruct (send_request_state r h
              (attempt_state (send_request r h) initialDelayMs n st)) as [-> ->].
  unfold attempt_state.
  destruct (after_attempts_request r h (backoff_delays initialDelayMs 0 n) st)
    as [-> ->].
  split; [reflexivity |]. unfold backoff_trace. now rewrite app_assoc.
Qed.

Lemma backoff_trace_counts (r : Request) (delays : list Z) :
  requests (backoff_trace r delays) = replicate (S (length delays)) r /\
  sleeps (backoff_trace r delays) = delays.
Proof.
  unfold backoff_trace, requests, sleeps. rewrite !omap_app. simpl.
  induction delays as [| ms delays [IHr IHs]]; [split; reflexivity |].
  simpl. split.
  - f_equal. exact IHr.
  - f_equal. exact IHs.
Qed.

Lemma backoff_delays_le_3 (retries : nat) :
  (retries <= 3)%nat ->
  backoff_delays 1000 0 retries = firstn retries [1000; 2000; 4000].
Proof.
  intros H. destruct retries as [| [| [| [| n]]]]; try reflexivity. lia.
Qed.

(** An operation that throws an error object of the library at once is
    tried once: such an error has no status and no code. *)
Lemma retryWithBackoff_library_error {T} (msg : string) (st : State X) :
  retryWithBackoff (throw (ThrownErr (JsOps.Error msg)) : M X T) 3 1000 st
  = (Throw (ThrownErr (JsOps.Error msg)), st).
Proof.
  rewrite (retryWithBackoff_stops _ 3 1000 st 0); [reflexivity | lia | lia | |].
  - intros j Hj. lia.
  - reflexivity.
Qed.

(** A client whose account SID is not valid in a path sends no message. *)
Lemma sendTextMessageWithRetry_invalid_path
    (recipientNumber messageText : string) (st : State X) (config : TwilioConfig) :
  validateE164 recipientNumber = true ->
  getConfig st = (Ok (Some config), st) ->
  Js.startsWith "AC" (accountSid config) = true ->
  isValidPathParam (accountSid config) = false ->
  sendTextMessageWithRetry recipientNumber messageText st = (Ok false, st).
Proof.
  intros Hvalid Hc Hac Hpath.
  rewrite (sendTextMessageWithRetry_configured _ _ _ _ Hvalid Hc Hac).
  unfold create_text, client_messages_create. cbn [client_of client_accountSid].
  rewrite Hpath. unfold invalid_path_param.
  rewrite retryWithBackoff_library_error. reflexivity.
Qed.

(** X5. [sendTextMessageWithRetry] never changes the environment. It returns
    [false] and leaves the state as it was; or, with an account SID that
    does not start with [AC], it throws what the constructor of the client
    throws and leaves the state as it was; or it sends the same request
    one to four times, with sleeps of 1000, 2000 and 4000 milliseconds
    between the attempts: at most four requests and seven seconds. *)
Theorem sendTextMessageWithRetry_trace
    (recipientNumber messageText : string) (st : State X) :
  env (sendTextMessageWithRetry recipientNumber messageText st).2 = env st /\
  (sendTextMessageWithRetry recipientNumber messageText st = (Ok false, st) \/
   (exists config : TwilioConfig,
      getConfig st = (Ok (Some config), st) /\
      Js.startsWith "AC" (accountSid config) = false /\
      sendTextMessageWithRetry recipientNumber messageText st =
        (Throw (ThrownErr (twilio_error (accountSid config))), st)) \/
   exists (config : TwilioConfig) (retries : nat),
     getConfig st = (Ok (Some config), st) /\
     Js.startsWith "AC" (accountSid config) = true /\
     isValidPathParam (accountSid config) = true /\
     validateE164 recipientNumber = true /\
     (retries <= 3)%nat /\
     trace (sendTextMessageWithRetry recipientNumber messageText st).2
       = trace st ++
         backoff_trace
           (MessagesCreate (client_of config)
              {| msg_from := fromNumber config;
                 msg_to := toNumber recipientNumber;
                 msg_body := messageText |})
           (firstn retries [1000; 2000; 4000])).
Proof.
  assert (Hfalse :
    sendTextMessageWithRetry recipientNumber messageText st = (Ok false, st) ->
    env (sendTextMessageWithRetry recipientNumber messageText st).2 = env st /\
    (sendTextMessageWithRetry recipientNumber messageText st = (Ok false, st) \/
     (exists config : TwilioConfig,
        getConfig st = (Ok (Some config), st) /\
        Js.startsWith "AC" (accountSid config) = false /\
        sendTextMessageWithRetry recipientNumber messageText st =
          (Throw (ThrownErr (twilio_error (accountSid config))), st)) \/
     exists (config : TwilioConfig) (retries : nat),
       getConfig st = (Ok (Some config), st) /\
       Js.startsWith "AC" (accountSid config) = true /\
       isValidPathParam (accountSid config) = true /\
       validateE164 recipientNumber = true /\
       (retries <= 3)%nat /\
       trace (sendTextMessageWithRetry recipientNumber messageText st).2
         = trace st ++
           backoff_trace
             (MessagesCreate (client_of config)
                {| msg_from := fromNumber config;
                   msg_to := toNumber recipientNumber;
                   msg_body := messageText |})
             (firstn retries [1000; 2000; 4000]))).
  { intros H. split; [now rewrite H | now left]. }
  destruct (getTwilioClient_cases st)
    as [[Hc Hclient] | [(config & Hc & Hac & Hclient) | (config & Hc & Hac & _)]].
  - apply Hfalse. unfold sendTextMessageWithRetry, bind. rewrite Hclient.
    reflexivity.
  - destruct (validateE164 recipientNumber) eqn:Hvalid.
    + destruct (isValidPathParam (accountSid config)) eqn:Hpath.
      * clear Hfalse.
        rewrite (sendTextMessageWithRetry_configured _ _ _ _ Hvalid Hc Hac).
        unfold create_text, client_messages_create.
        cbn [client_of client_accountSid]. rewrite Hpath.
        match goal with
        | |- context [retryWithBackoff (send_request ?r ?h) 3 1000 st] =>
            destruct (retryWithBackoff_request_trace r h 3 1000 st)
              as (n & Hn & He & Ht); [lia |];
            destruct (retryWithBackoff (send_request r h) 3 1000 st)
              as [[v | t] s'] eqn:E
        end; simpl in He, Ht |- *.
        -- split; [exact He |]. right. right. exists config, n.
           rewrite <- backoff_delays_le_3 by lia. repeat split; auto; lia.
        -- split; [exact He |]. right. right. exists config, n.
           rewrite <- backoff_delays_le_3 by lia. repeat split; auto; lia.
      * apply Hfalse.
        now apply (sendTextMessageWithRetry_invalid_path _ _ _ config).
    + apply Hfalse. unfold sendTextMessageWithRetry, bind.
      rewrite Hclient, Hvalid. reflexivity.
  - rewrite (sendTextMessageWithRetry_refused _ _ _ _ Hc Hac).
    split; [reflexivity |]. right. left. exists config.
    repeat split; assumption.
Qed.

(** X6. [sendTextMessage] makes one attempt for any recipient, valid or
    not. Without the credentials it sends nothing and returns [false].
    With them, the client is built before the [try]: an account SID that
    does not start with [AC] makes the call throw what the constructor
    throws, with nothing sent; one that starts with [AC] and is valid in
    a path makes the call send exactly one request and return whether it
    was answered. *)
Theorem sendTextMessage_single_attempt
    (recipientNumber messageText : string) (st : State X) :
  (getConfig st = (Ok None, st) ->
   sendTextMessage recipientNumber messageText st = (Ok false, st)) /\
  (forall config,
     getConfig st = (Ok (Some config), st) ->
     Js.startsWith "AC" (accountSid config) = true ->
     isValidPathParam (accountSid config) = true ->
     let client := client_of config in
     let params := {| msg_from := fromNumber config;
                      msg_to := toNumber recipientNumber;
                      msg_body := messageText |} in
     let answer := messages_create client params (world st) in
     sendTextMessage recipientNumber messageText st =
       (Ok match answer.1 with inl _ => true | inr _ => false end,
        {| env := env st; world := answer.2;
           trace := trace st ++ [Sent (MessagesCreate client params)] |})) /\
  (forall config,
     getConfig st = (Ok (Some config), st) ->
     Js.startsWith "AC" (accountSid config) = false ->
     sendTextMessage recipientNumber messageText st =
       (Throw (ThrownErr (twilio_error (accountSid config))), st)) /\
  (forall config,
     getConfig st = (Ok (Some config), st) ->
     Js.startsWith "AC" (accountSid config) = true ->
     isValidPathParam (accountSid config) = false ->
     sendTextMessage recipientNumber messageText st = (Ok false, st)).
Proof.
  split; [| split; [| split]].
  - intros Hc. unfold sendTextMessage, getTwilioClient, bind. rewrite Hc. reflexivity.
  - intros config Hc Hac Hpath client params answer.
    unfold sendTextMessage, bind.
    rewrite (getTwilioClient_configured _ _ Hc Hac), Hc.
    unfold try_catch, bind, create_text, client_messages_create.
    cbn [client_of client_accountSid]. rewrite Hpath. unfold send_request.
    fold (client_of config). fold client. fold params. fold answer.
    destruct answer as [[m | e] w]; reflexivity.
  - intros config Hc Hac. unfold sendTextMessage, bind.
    rewrite (getTwilioClient_refused _ _ Hc Hac). reflexivity.
  - intros config Hc Hac Hpath. unfold sendTextMessage, bind.
    rewrite (getTwilioClient_configured _ _ Hc Hac), Hc.
    unfold try_catch, bind, create_text, client_messages_create.
    cbn [client_of client_accountSid]. rewrite Hpath. reflexivity.
Qed.

Lemma omap_truthy_text (templateParams : list TemplateParam) :
  omap (fun p => let t := param_text_of p in
                 if string_truthy t then t else None) templateParams
  = omap (fun p => if string_truthy (param_text p) then param_text p else None)
         templateParams.
Proof.
  apply list_omap_ext. apply Forall2_same_length_lookup_2; [reflexivity |].
  intros i p p' Hp Hp'. rewrite Hp in Hp'. inversion Hp'; subst p'.
  unfold param_text_of.
  destruct (string_truthy (param_text p)) eqn:Et; simpl.
  - rewrite Et. reflexivity.
  - destruct (bool_decide (param_type p = Some "text")); [rewrite Et |];
      reflexivity.
Qed.

(** X7. The body of [sendTemplateMessageWithRetry] lists the non-empty texts
    of the parameters, whatever their [type]; when no parameter has a
    non-empty text the body is the template text alone. *)
Theorem messageBody_lists_texts
    (templateName : string) (templateParams : list TemplateParam) :
  let texts :=
    omap (fun p => if string_truthy (param_text p) then param_text p else None)
         templateParams in
  paramTexts templateParams = join ", " texts /\
  (texts = [] -> messageBody templateName templateParams = template_body templateName) /\
  (texts <> [] ->
   messageBody templateName templateParams =
     template_body templateName +:+ template_details (join ", " texts)).
Proof.
  intros texts.
  assert (Hp : paramTexts templateParams = join ", " texts)
    by (unfold paramTexts; now rewrite omap_truthy_text).
  split; [exact Hp |]. unfold messageBody. rewrite Hp.
  assert (Hne : forall l : list string,
             Forall (fun s => s <> "") l -> l <> [] -> join ", " l <> "").
  { intros l Hall Hl. destruct l as [| s l]; [congruence |].
    apply Forall_cons in Hall as [Hs _].
    destruct s as [| c s]; [congruence |]. destruct l; discriminate. }
  assert (Hall : Forall (fun s => s <> "") texts).
  { apply Forall_forall. intros s Hin. unfold texts in Hin. apply list_elem_of_omap in Hin as (p & _ & Hp'). destruct (param_text p) as [v |]; simpl in Hp';
      [| discriminate].
    destruct (String.eqb v "") eqn:Ev; simpl in Hp'; [discriminate |].
    inversion Hp'; subst. intros ->. discriminate. }
  split.
  - intros Hnil. rewrite Hnil. simpl. destruct (0 <? _); reflexivity.
  - intros Hcons. specialize (Hne texts Hall Hcons).
    assert ((0 <? Z.of_nat (length templateParams)) = true) as ->.
    { apply Z.ltb_lt. destruct templateParams; [| simpl; lia]. now destruct Hcons. }
    destruct (String.eqb (join ", " texts) "") eqn:Ej; [| reflexivity].
    apply String.eqb_eq in Ej. congruence.
Qed.

(** X8. The template senders send plain text. [sendTemplateMessage] is
    [sendTextMessage] on the text that stands for the template: the
    language code changes nothing, and a missing template name is
    ["hello_world"]. [sendTemplateMessageWithRetry] is
    [sendTextMessageWithRetry] on the body above. *)
Theorem template_senders_send_text (recipientNumber : string) (st : State X) :
  (forall templateName languageCode,
     sendTemplateMessage recipientNumber templateName languageCode st =
       sendTextMessage recipientNumber
         (template_body_once (default "hello_world" templateName)) st) /\
  (forall templateName templateParams,
     sendTemplateMessageWithRetry recipientNumber templateName templateParams st =
       sendTextMessageWithRetry recipientNumber
         (messageBody templateName templateParams) st).
Proof. split; reflexivity. Qed.

(** X9. The five notifications do not depend on [NODE_ENV]: the two branches
    of each send the same message. *)
Theorem notifications_ignore_NODE_ENV (recipientNumber : string) (st : State X) :
  (forall customerName relation albumName,
     sendFreeTrialConfirmation recipientNumber customerName relation albumName st =
       sendTextMessageWithRetry recipientNumber
         (confirmation_message_production customerName relation albumName) st) /\
  (forall relation customerName,
     sendStorytellerOnboarding recipientNumber relation customerName st =
       sendTextMessageWithRetry recipientNumber
         (onboarding_message_production relation customerName) st) /\
  (forall relation,
     sendReadinessCheck recipientNumber relation st =
       sendTextMessageWithRetry recipientNumber
         (readiness_message_production relation) st) /\
  sendVoiceNoteAcknowledgment recipientNumber st =
    sendTextMessageWithRetry recipientNumber acknowledgment_message_production st /\
  (forall playlistAlbumLink vinylAlbumLink,
     sendAlbumCompletionMessage recipientNumber playlistAlbumLink vinylAlbumLink st =
       sendTextMessageWithRetry recipientNumber
         (completion_message_production playlistAlbumLink vinylAlbumLink) st).
Proof.
  repeat split; intros;
    unfold sendFreeTrialConfirmation, sendStorytellerOnboarding, sendReadinessCheck,
      sendVoiceNoteAcknowledgment, sendAlbumCompletionMessage, bind, isProduction;
    destruct (bool_decide _); reflexivity.
Qed.

(** X10. The link of [sendShareableLink] always names a phone: the business
    number when it is set, else the Twilio number without its leading [+]
    when that leaves something, else 919876543210. *)
Theorem businessPhone_never_empty (e : gmap string string) :
  businessPhone e <> "" /\
  (forall v, e !! "WHATSAPP_BUSINESS_NUMBER_E164" = Some v -> v <> "" ->
     businessPhone e = v) /\
  (string_truthy (e !! "WHATSAPP_BUSINESS_NUMBER_E164") = false ->
   forall w, e !! "TWILIO_WHATSAPP_NUMBER" = Some w ->
     businessPhone e =
       if String.eqb (JsOps.remove_leading_plus w) "" then "919876543210"
       else JsOps.remove_leading_plus w) /\
  (string_truthy (e !! "WHATSAPP_BUSINESS_NUMBER_E164") = false ->
   e !! "TWILIO_WHATSAPP_NUMBER" = None ->
   businessPhone e = "919876543210").
Proof.
  assert (Hod : forall s d, d <> "" -> or_default s d <> "").
  { intros [v |] d Hd; simpl; [| exact Hd].
    destruct (String.eqb v "") eqn:Ev; [exact Hd |].
    intros ->. discriminate. }
  unfold businessPhone. split; [| split; [| split]].
  - apply Hod, Hod. discriminate.
  - intros v -> Hv. simpl. destruct (String.eqb v "") eqn:Ev; [| reflexivity].
    apply String.eqb_eq in Ev. congruence.
  - intros Hb w ->. simpl.
    destruct (e !! "WHATSAPP_BUSINESS_NUMBER_E164") as [v |]; simpl in *;
      [| reflexivity].
    destruct (String.eqb v ""); [reflexivity | discriminate].
  - intros Hb ->. simpl.
    destruct (e !! "WHATSAPP_BUSINESS_NUMBER_E164") as [v |]; simpl in *;
      [| reflexivity].
    destruct (String.eqb v ""); [reflexivity | discriminate].
Qed.

End SendersFacts.

(** ** Phone numbers and addresses *)

(** X11. After [normalizePhoneNumber], [validateE164] accepts exactly the
    inputs that hold 10 to 15 digits. *)
Theorem validateE164_after_normalizePhoneNumber (phone : string) :
  validateE164 (normalizePhoneNumber phone)
  = (10 <=? Js.strlen (Js.remove_non_digits phone))
    && (Js.strlen (Js.remove_non_digits phone) <=? 15).
Proof.
  unfold normalizePhoneNumber. set (d := Js.remove_non_digits phone).
  pose proof (remove_non_digits_digits_only phone) as Hd. fold d in Hd.
  destruct (Js.startsWith "91" d && (Js.strlen d =? 12)) eqn:E12.
  - unfold validateE164. rewrite Hd. reflexivity.
  - destruct (Js.strlen d =? 10) eqn:E10.
    + apply Z.eqb_eq in E10. unfold validateE164.
      rewrite digits_only_append, Hd, strlen_append, E10. reflexivity.
    + unfold validateE164. rewrite Hd. reflexivity.
Qed.

Lemma startsWith_plus (s : string) :
  Js.startsWith "+" s = true -> exists s', s = String "+" s'.
Proof.
  unfold Js.startsWith. destruct s as [| c s]; [discriminate |].
  change (String.prefix "+" (String c s))
    with (if ascii_dec "+" c then String.prefix "" s else false).
  destruct (ascii_dec "+" c) as [<- | Hne]; intros H; [eauto | discriminate H].
Qed.

(** X12. The recipient address always starts with [whatsapp:+], and for a
    recipient that passes [validateE164] it is [whatsapp:+] followed by the
    recipient. *)
Theorem toNumber_has_plus (recipientNumber : string) :
  Js.startsWith "whatsapp:+" (toNumber recipientNumber) = true /\
  (validateE164 recipientNumber = true ->
   toNumber recipientNumber = "whatsapp:+" +:+ recipientNumber).
Proof.
  unfold toNumber. split.
  - destruct (Js.startsWith "+" recipientNumber) eqn:E.
    + apply startsWith_plus in E as [s' ->].
      apply (startsWith_append "whatsapp:+" s').
    + apply (startsWith_append "whatsapp:+" recipientNumber).
  - intros Hvalid.
    destruct (Js.startsWith "+" recipientNumber) eqn:E; [| reflexivity].
    apply startsWith_plus in E as [s' ->].
    unfold validateE164, Js.digits_only in Hvalid. simpl in Hvalid. discriminate.
Qed.

(** ** The identifiers in a media URL *)

Section UrlFacts.
Import JsOps.

Lemma regex_group_unfold lit excl slash l :
  regex_group lit excl slash l
  = match regex_here lit excl slash l with
    | Some g => Some g
    | None => match l with
              | [] => None
              | _ :: l' => regex_group lit excl slash l'
              end
    end.
Proof. destruct l; reflexivity. Qed.

Lemma regex_here_not_slash lit excl slash c l :
  is_slash c = false ->
  regex_here ("/"%char :: lit) excl slash (c :: l) = None.
Proof.
  intros Hc. unfold regex_here.
  change (is_prefix ("/"%char :: lit) (c :: l))
    with (Ascii.eqb "/" c && is_prefix lit l).
  unfold is_slash in Hc. rewrite Ascii.eqb_sym, Hc. reflexivity.
Qed.

Lemma regex_group_skip lit excl slash h l :
  slash_free h = true ->
  regex_group ("/"%char :: lit) excl slash (h ++ l)
  = regex_group ("/"%char :: lit) excl slash l.
Proof.
  induction h as [| c h IH]; [reflexivity |].
  unfold slash_free. cbn [forallb]. intros [Hc Hh]%andb_true_iff.
  apply negb_true_iff in Hc.
  rewrite <- app_comm_cons, regex_group_unfold, regex_here_not_slash by exact Hc.
  apply IH, Hh.
Qed.

Lemma path_cons seg tail : path (seg :: tail) = "/"%char :: seg ++ path tail.
Proof. reflexivity. Qed.

Lemma is_prefix_segment name seg tail :
  slash_free name = true -> slash_free seg = true ->
  is_prefix (name ++ ["/"%char]) (seg ++ path tail)
  = bool_decide (seg = name) && match tail with [] => false | _ => true end.
Proof.
  revert seg. induction name as [| a name IH]; intros seg Hname Hseg.
  - destruct seg as [| c seg].
    + destruct tail; reflexivity.
    + unfold slash_free in Hseg. cbn [forallb] in Hseg.
      apply andb_true_iff in Hseg as [Hc%negb_true_iff _].
      unfold is_slash in Hc. cbn [app is_prefix].
      rewrite Ascii.eqb_sym, Hc. reflexivity.
  - unfold slash_free in Hname. cbn [forallb] in Hname.
    apply andb_true_iff in Hname as [Ha%negb_true_iff Hname].
    unfold is_slash in Ha.
    destruct seg as [| c seg].
    + rewrite bool_decide_eq_false_2 by discriminate.
      destruct tail as [| next rest]; [reflexivity |].
      rewrite path_cons. cbn [app is_prefix]. rewrite Ha. reflexivity.
    + unfold slash_free in Hseg. cbn [forallb] in Hseg.
      apply andb_true_iff in Hseg as [_ Hseg].
      cbn [app is_prefix]. rewrite (IH seg Hname Hseg).
      destruct (Ascii.eqb a c) eqn:E.
      * apply Ascii.eqb_eq in E as ->.
        destruct (decide (seg = name)) as [-> | Hne].
        -- rewrite !bool_decide_eq_true_2 by reflexivity. reflexivity.
        -- rewrite !bool_decide_eq_false_2 by congruence. reflexivity.
      * apply Ascii.eqb_neq in E.
        rewrite (bool_decide_eq_false_2 (c :: seg = a :: name)) by congruence.
        reflexivity.
Qed.

Lemma take_while_app_stop (f : ascii -> bool) l1 l2 :
  match l2 with [] => True | c :: _ => f c = false end ->
  take_while f (l1 ++ l2) = take_while f l1.
Proof.
  intros H. induction l1 as [| c l1 IH].
  - destruct l2 as [| c l2]; [reflexivity |]. cbn. rewrite H. reflexivity.
  - cbn. destruct (f c); [rewrite IH |]; reflexivity.
Qed.

Lemma take_while_path (excl : ascii -> bool) next rest :
  excl "/"%char = true ->
  take_while (fun c => negb (excl c)) (next ++ path rest)
  = take_while (fun c => negb (excl c)) next.
Proof.
  intros H. apply take_while_app_stop.
  destruct rest; [exact I |]. rewrite path_cons, H. reflexivity.
Qed.

Lemma take_while_all (f : ascii -> bool) l :
  forallb f l = true -> take_while f l = l.
Proof.
  induction l as [| c l IH]; [reflexivity |].
  cbn. intros [-> Hl]%andb_true_iff. rewrite IH by exact Hl. reflexivity.
Qed.

(** The match at the start of a segment [seg], for the expression without
    the closing slash. *)
Lemma regex_here_segment name excl seg tail :
  slash_free name = true -> slash_free seg = true -> excl "/"%char = true ->
  regex_here ("/"%char :: name ++ ["/"%char]) excl false (path (seg :: tail))
  = match tail with
    | [] => None
    | next :: _ =>
        match take_while (fun c => negb (excl c)) next with
        | [] => None
        | run => if bool_decide (seg = name) then Some run else None
        end
    end.
Proof.
  intros Hname Hseg Hexcl. rewrite path_cons. unfold regex_here.
  change (is_prefix ("/"%char :: name ++ ["/"%char]) ("/"%char :: seg ++ path tail))
    with (is_prefix (name ++ ["/"%char]) (seg ++ path tail)).
  rewrite is_prefix_segment by assumption.
  destruct tail as [| next rest]; [rewrite andb_false_r; reflexivity |].
  rewrite andb_true_r.
  destruct (decide (seg = name)) as [-> | Hne].
  - rewrite !bool_decide_eq_true_2 by reflexivity.
    rewrite path_cons.
    replace (skipn (length ("/"%char :: name ++ ["/"%char]))
               ("/"%char :: name ++ "/"%char :: next ++ path rest))
      with (next ++ path rest).
    2:{ change ("/"%char :: name ++ "/"%char :: next ++ path rest)
          with (("/"%char :: name) ++ ["/"%char] ++ (next ++ path rest)).
        rewrite app_assoc.
        change (("/"%char :: name) ++ ["/"%char]) with ("/"%char :: name ++ ["/"%char]).
        rewrite drop_app_length. reflexivity. }
    cbv zeta. rewrite take_while_path by exact Hexcl.
    destruct (take_while _ next); reflexivity.
  - rewrite !bool_decide_eq_false_2 by congruence.
    destruct (take_while _ next); reflexivity.
Qed.

Lemma regex_group_path name excl segments :
  slash_free name = true -> forallb slash_free segments = true ->
  excl "/"%char = true ->
  regex_group ("/"%char :: name ++ ["/"%char]) excl false (path segments)
  = segment_after name excl segments.
Proof.
  intros Hname Hsegs Hexcl.
  induction segments as [| seg tail IH]; [reflexivity |].
  cbn [forallb] in Hsegs. apply andb_true_iff in Hsegs as [Hseg Htail].
  rewrite regex_group_unfold, regex_here_segment by assumption.
  rewrite path_cons, regex_group_skip, (IH Htail) by exact Hseg.
  cbn [segment_after].
  destruct tail as [| next rest]; [reflexivity |].
  destruct (take_while _ next); [reflexivity |].
  destruct (bool_decide (seg = name)); reflexivity.
Qed.

(** The match at the start of a segment, for the expression with the
    closing slash. *)
Lemma regex_here_segment_slash name seg tail :
  slash_free name = true -> forallb slash_free (seg :: tail) = true ->
  regex_here ("/"%char :: name ++ ["/"%char]) is_slash true (path (seg :: tail))
  = match tail with
    | next :: _ :: _ =>
        match next with
        | [] => None
        | _ => if bool_decide (seg = name) then Some next else None
        end
    | _ => None
    end.
Proof.
  intros Hname Hsegs.
  cbn [forallb] in Hsegs. apply andb_true_iff in Hsegs as [Hseg Htail].
  rewrite path_cons. unfold regex_here.
  change (is_prefix ("/"%char :: name ++ ["/"%char]) ("/"%char :: seg ++ path tail))
    with (is_prefix (name ++ ["/"%char]) (seg ++ path tail)).
  rewrite is_prefix_segment by assumption.
  destruct tail as [| next rest]; [rewrite andb_false_r; reflexivity |].
  rewrite andb_true_r.
  cbn [forallb] in Htail. apply andb_true_iff in Htail as [Hnext Hrest].
  destruct (decide (seg = name)) as [-> | Hne].
  - rewrite !bool_decide_eq_true_2 by reflexivity.
    rewrite path_cons.
    replace (skipn (length ("/"%char :: name ++ ["/"%char]))
               ("/"%char :: name ++ "/"%char :: next ++ path rest))
      with (next ++ path rest).
    2:{ change ("/"%char :: name ++ "/"%char :: next ++ path rest)
          with (("/"%char :: name) ++ ["/"%char] ++ (next ++ path rest)).
        rewrite app_assoc.
        change (("/"%char :: name) ++ ["/"%char]) with ("/"%char :: name ++ ["/"%char]).
        rewrite drop_app_length. reflexivity. }
    cbv zeta. rewrite take_while_path by reflexivity.
    rewrite take_while_all by exact Hnext.
    rewrite drop_app_length.
    destruct next as [| c next]; [destruct rest as [| ? ?]; reflexivity |].
    destruct rest as [| r rest]; reflexivity.
  - rewrite !bool_decide_eq_false_2 by congruence.
    destruct rest; destruct next; reflexivity.
Qed.

Lemma regex_group_path_slash name segments :
  slash_free name = true -> forallb slash_free segments = true ->
  regex_group ("/"%char :: name ++ ["/"%char]) is_slash true (path segments)
  = segment_between name segments.
Proof.
  intros Hname Hsegs.
  induction segments as [| seg tail IH]; [reflexivity |].
  rewrite regex_group_unfold, regex_here_segment_slash by assumption.
  cbn [forallb] in Hsegs. apply andb_true_iff in Hsegs as [Hseg Htail].
  rewrite path_cons, regex_group_skip, (IH Htail) by exact Hseg.
  cbn [segment_between].
  destruct tail as [| next [| r rest]]; try reflexivity.
  destruct next; [reflexivity |].
  destruct (bool_decide (seg = name)); reflexivity.
Qed.

Lemma match_sids_path (head : list ascii) (segments : list (list ascii)) :
  slash_free head = true -> forallb slash_free segments = true ->
  let url := Js.of_chars (head ++ path segments) in
  match_media_sid url
    = Js.of_chars <$> segment_after (Js.chars "Media") is_slash segments /\
  match_media_sid_q url
    = Js.of_chars <$> segment_after (Js.chars "Media") is_slash_or_qmark segments /\
  match_message_sid url
    = Js.of_chars <$> segment_between (Js.chars "Messages") segments.
Proof.
  intros Hhead Hsegs url. unfold url, match_media_sid, match_media_sid_q, match_message_sid.
  rewrite chars_of_chars.
  change (Js.chars "/Media/") with ("/"%char :: Js.chars "Media" ++ ["/"%char]).
  change (Js.chars "/Messages/") with ("/"%char :: Js.chars "Messages" ++ ["/"%char]).
  rewrite !regex_group_skip by exact Hhead.
  rewrite !regex_group_path, regex_group_path_slash by (assumption || reflexivity).
  repeat split.
Qed.

(** X13. In a URL whose part before the first slash is [head] and whose
    slash-separated segments are [segments], the three expressions find:
    the segment after the first [Media] segment that has a non-empty
    successor; the start, up to the first question mark, of the segment
    after the first [Media] segment whose successor is not empty and does
    not start with a question mark; and the segment after the first
    [Messages] segment whose successor is non-empty and followed by a
    further segment. *)
Theorem sids_are_path_segments (head : list ascii) (segments : list (list ascii)) :
  slash_free head = true -> forallb slash_free segments = true ->
  let url := Js.of_chars (head ++ path segments) in
  match_media_sid url
    = Js.of_chars <$> segment_after (Js.chars "Media") is_slash segments /\
  match_media_sid_q url
    = Js.of_chars <$> segment_after (Js.chars "Media") is_slash_or_qmark segments /\
  match_message_sid url
    = Js.of_chars <$> segment_between (Js.chars "Messages") segments.
Proof. exact (match_sids_path head segments). Qed.


Lemma segment_after_skip name excl seg tail :
  seg <> name -> segment_after name excl (seg :: tail) = segment_after name excl tail.
Proof.
  intros Hne. cbn [segment_after].
  destruct tail as [| next rest]; [reflexivity |].
  destruct (take_while _ next); [reflexivity |].
  rewrite bool_decide_eq_false_2 by exact Hne. reflexivity.
Qed.

Lemma segment_between_skip name seg tail :
  seg <> name -> segment_between name (seg :: tail) = segment_between name tail.
Proof.
  intros Hne. cbn [segment_between].
  destruct tail as [| next [| r rest]]; try reflexivity.
  destruct next; [reflexivity |].
  rewrite bool_decide_eq_false_2 by exact Hne. reflexivity.
Qed.

Lemma chars_inj (s t : string) : Js.chars s = Js.chars t -> s = t.
Proof. intros H. rewrite <- (of_chars_chars s), H. apply of_chars_chars. Qed.

Lemma is_sid_chars (s : string) :
  is_sid s = true ->
  Js.chars s <> [] /\ slash_free (Js.chars s) = true /\
  take_while (fun c => negb (is_slash c)) (Js.chars s) = Js.chars s /\
  take_while (fun c => negb (is_slash_or_qmark c)) (Js.chars s) = Js.chars s.
Proof.
  unfold is_sid. intros [Hne Hall]%andb_true_iff.
  apply negb_true_iff, String.eqb_neq in Hne.
  assert (Hslash : forallb (fun c => negb (is_slash c)) (Js.chars s) = true).
  { rewrite forallb_forall in Hall |- *. intros c Hc. specialize (Hall c Hc).
    unfold is_slash_or_qmark in Hall. apply negb_true_iff in Hall.
    apply orb_false_iff in Hall as [H _]. unfold is_slash. now rewrite H. }
  split; [| split; [exact Hslash | split; now apply take_while_all]].
  intros Hnil. apply Hne, chars_inj. exact Hnil.
Qed.

Lemma twilio_media_url_path (accountSid messageSid mediaSid : string) :
  twilio_media_url accountSid messageSid mediaSid
  = Js.of_chars
      (Js.chars "https:" ++
       path [ []; Js.chars "api.twilio.com"; Js.chars "2010-04-01";
              Js.chars "Accounts"; Js.chars accountSid;
              Js.chars "Messages"; Js.chars messageSid;
              Js.chars "Media"; Js.chars mediaSid ]).
Proof.
  apply chars_inj. rewrite chars_of_chars. unfold twilio_media_url.
  rewrite !chars_append. cbn [path flat_map app].
  change (Js.chars "https://api.twilio.com/2010-04-01/Accounts/")
    with (Js.chars "https:" ++ "/"%char :: "/"%char :: Js.chars "api.twilio.com"
          ++ "/"%char :: Js.chars "2010-04-01" ++ "/"%char :: Js.chars "Accounts"
          ++ ["/"%char]).
  change (Js.chars "/Messages/") with ("/"%char :: Js.chars "Messages" ++ ["/"%char]).
  change (Js.chars "/Media/") with ("/"%char :: Js.chars "Media" ++ ["/"%char]).
  repeat (rewrite <- ?app_assoc, <- ?app_comm_cons; cbn [app]).
  rewrite app_nil_r. reflexivity.
Qed.

(** The identifiers that the three expressions find in a media URL of
    the documented form. *)
Lemma twilio_media_url_matches (accountSid messageSid mediaSid : string) :
  is_sid accountSid = true -> is_sid messageSid = true -> is_sid mediaSid = true ->
  accountSid <> "Media" -> accountSid <> "Messages" -> messageSid <> "Media" ->
  let url := twilio_media_url accountSid messageSid mediaSid in
  match_media_sid url = Some mediaSid /\
  match_media_sid_q url = Some mediaSid /\
  match_message_sid url = Some messageSid.
Proof.
  intros Ha Hm Hd Ha1 Ha2 Hm1 url.
  apply is_sid_chars in Ha as (Ha0 & Has & _ & _).
  apply is_sid_chars in Hm as (Hm0 & Hms & _ & _).
  apply is_sid_chars in Hd as (Hd0 & Hds & Hdt & Hdq).
  assert (Hne : forall s t : string, s <> t -> Js.chars s <> Js.chars t).
  { intros s t Hst Heq. apply Hst, chars_inj, Heq. }
  destruct (match_sids_path (Js.chars "https:")
              [ []; Js.chars "api.twilio.com"; Js.chars "2010-04-01";
                Js.chars "Accounts"; Js.chars accountSid;
                Js.chars "Messages"; Js.chars messageSid;
                Js.chars "Media"; Js.chars mediaSid ]) as (H1 & H2 & H3).
  { reflexivity. }
  { cbn [forallb]. rewrite Has, Hms, Hds. reflexivity. }
  unfold url. rewrite twilio_media_url_path, H1, H2, H3.
  rewrite !(segment_after_skip _ _ []) by discriminate.
  rewrite !(segment_after_skip _ _ (Js.chars "api.twilio.com")) by discriminate.
  rewrite !(segment_after_skip _ _ (Js.chars "2010-04-01")) by discriminate.
  rewrite !(segment_after_skip _ _ (Js.chars "Accounts")) by discriminate.
  rewrite !(segment_after_skip _ _ (Js.chars accountSid)) by (apply Hne, Ha1).
  rewrite !(segment_after_skip _ _ (Js.chars "Messages")) by discriminate.
  rewrite !(segment_after_skip _ _ (Js.chars messageSid)) by (apply Hne, Hm1).
  rewrite (segment_between_skip _ []) by discriminate.
  rewrite (segment_between_skip _ (Js.chars "api.twilio.com")) by discriminate.
  rewrite (segment_between_skip _ (Js.chars "2010-04-01")) by discriminate.
  rewrite (segment_between_skip _ (Js.chars "Accounts")) by discriminate.
  rewrite (segment_between_skip _ (Js.chars accountSid)) by (apply Hne, Ha2).
  cbn [segment_after segment_between]. rewrite Hdt, Hdq.
  rewrite !bool_decide_eq_true_2 by reflexivity.
  destruct (Js.chars mediaSid) as [| c l] eqn:Ed; [contradiction |].
  destruct (Js.chars messageSid) as [| c' l'] eqn:Em; [contradiction |].
  rewrite ?bool_decide_eq_true_2 by reflexivity.
  cbn [fmap option_fmap option_map]. rewrite <- Ed, <- Em, !of_chars_chars.
  repeat split.
Qed.

(** X14. In a media URL of the documented form, with identifiers that are
    not empty and hold no slash and no question mark, an account other
    than [Media] and [Messages] and a message other than [Media], the
    expressions find the media identifier and the message identifier. *)
Theorem twilio_media_url_sids (accountSid messageSid mediaSid : string) :
  is_sid accountSid = true -> is_sid messageSid = true -> is_sid mediaSid = true ->
  accountSid <> "Media" -> accountSid <> "Messages" -> messageSid <> "Media" ->
  let url := twilio_media_url accountSid messageSid mediaSid in
  match_media_sid url = Some mediaSid /\
  match_media_sid_q url = Some mediaSid /\
  match_message_sid url = Some messageSid.
Proof. exact (twilio_media_url_matches accountSid messageSid mediaSid). Qed.

End UrlFacts.

(** ** Media: metadata and bytes *)

Section MediaFacts.

Context {X : Type} {P : Platform X}.

Lemma or_default_not_empty (s : option string) (d : string) :
  d <> "" -> or_default s d <> "".
Proof.
  intros Hd. destruct s as [v |]; simpl; [| exact Hd].
  destruct (String.eqb v "") eqn:Ev; [exact Hd |].
  now apply String.eqb_neq in Ev.
Qed.

Lemma is_sid_valid (s : string) : is_sid s = true -> isValidPathParam s = true.
Proof. unfold is_sid. now intros [_ H]%andb_true_iff. Qed.

(** X15. For a media URL of the documented form, the first revision asks
    Twilio for the media under a message named by the media identifier;
    the second asks under the message of the URL. Each sends this one
    request and nothing else, when the account SID of the configuration
    starts with [AC] and is valid in a path; when it is not so, nothing is
    sent and both return the defaults. *)
Theorem downloadVoiceNoteMedia_metadata_request
    (accountSid' messageSid mediaSid : string) (st : State X) (config : TwilioConfig) :
  is_sid accountSid' = true -> is_sid messageSid = true -> is_sid mediaSid = true ->
  accountSid' <> "Media" -> accountSid' <> "Messages" -> messageSid <> "Media" ->
  getConfig st = (Ok (Some config), st) ->
  let url := twilio_media_url accountSid' messageSid mediaSid in
  let client := client_of config in
  (Js.startsWith "AC" (accountSid config) = true ->
   isValidPathParam (accountSid config) = true ->
   trace (Rev1.downloadVoiceNoteMedia url st).2
     = trace st ++ [Sent (MediaFetch client mediaSid mediaSid)] /\
   trace (Rev2.downloadVoiceNoteMedia url st).2
     = trace st ++ [Sent (MediaFetch client messageSid mediaSid)]) /\
  (Js.startsWith "AC" (accountSid config) && isValidPathParam (accountSid config)
   = false ->
   Rev1.downloadVoiceNoteMedia url st = (Ok (Some (media_defaults url)), st) /\
   Rev2.downloadVoiceNoteMedia url st = (Ok (Some (media_defaults url)), st)).
Proof.
  intros Ha Hm Hd Ha1 Ha2 Hm1 Hc url client.
  destruct (twilio_media_url_matches _ _ _ Ha Hm Hd Ha1 Ha2 Hm1) as (H1 & H2 & H3).
  fold url in H1, H2, H3.
  apply is_sid_valid in Hm, Hd. split.
  - intros Hac Hpath.
    rewrite (Rev1_downloadVoiceNoteMedia_configured _ _ _ Hc Hac),
            (Rev2_downloadVoiceNoteMedia_configured _ _ _ Hc Hac), H1, H2, H3.
    fold client.
    rewrite (client_media_fetch_sent client mediaSid mediaSid Hpath Hd Hd),
            (client_media_fetch_sent client messageSid mediaSid Hpath Hm Hd).
    split.
    + destruct (send_request_state (MediaFetch client mediaSid mediaSid)
                  (media_fetch client mediaSid mediaSid) st) as [_ Htr].
      destruct (send_request _ _ st) as [[m | t] s]; exact Htr.
    + destruct (send_request_state (MediaFetch client messageSid mediaSid)
                  (media_fetch client messageSid mediaSid) st) as [_ Htr].
      destruct (send_request _ _ st) as [[m | t] s]; exact Htr.
  - intros Hbad. destruct (Js.startsWith "AC" (accountSid config)) eqn:Hac.
    + cbn [andb] in Hbad.
      rewrite (Rev1_downloadVoiceNoteMedia_configured _ _ _ Hc Hac),
              (Rev2_downloadVoiceNoteMedia_configured _ _ _ Hc Hac), H1, H2, H3.
      rewrite !client_media_fetch_refused
        by (cbn [client_of client_accountSid]; now rewrite Hbad).
      split; reflexivity.
    + exact (downloadVoiceNoteMedia_refused url st config Hc Hac).
Qed.

(** X16. The record of [downloadVoiceNoteMedia] never has an empty mime
    type, and in the second revision its URL is the URL that was passed
    in. *)
Theorem downloadVoiceNoteMedia_record
    (mediaUrl : string) (st st' : State X) (media : VoiceNoteMedia) :
  (Rev1.downloadVoiceNoteMedia mediaUrl st = (Ok (Some media), st') ->
   mimeType media <> "") /\
  (Rev2.downloadVoiceNoteMedia mediaUrl st = (Ok (Some media), st') ->
   mimeType media <> "" /\ url media = mediaUrl).
Proof.
  assert (Hogg : ("audio/ogg" : string) <> "") by discriminate.
  destruct (getConfig_pure st) as [[config |] Hc].
  - destruct (Js.startsWith "AC" (accountSid config)) eqn:Hac.
    + rewrite (Rev1_downloadVoiceNoteMedia_configured _ _ _ Hc Hac),
              (Rev2_downloadVoiceNoteMedia_configured _ _ _ Hc Hac).
      split; intros H.
      * destruct (JsOps.match_media_sid mediaUrl) as [mediaSid |];
          [| inversion H; subst; exact Hogg].
        destruct (client_media_fetch _ _ _ st) as [[m | t] s];
          inversion H; subst; cbn [mimeType media_defaults];
          [now apply or_default_not_empty | exact Hogg].
      * destruct (JsOps.match_media_sid_q mediaUrl) as [mediaSid |];
          [| inversion H; subst; split; [exact Hogg | reflexivity]].
        destruct (JsOps.match_message_sid mediaUrl) as [messageSid |];
          [| inversion H; subst; split; [exact Hogg | reflexivity]].
        destruct (client_media_fetch _ _ _ st) as [[m | t] s];
          inversion H; subst; cbn [mimeType url media_defaults];
          (split; [| reflexivity]); [now apply or_default_not_empty | exact Hogg].
    + destruct (downloadVoiceNoteMedia_refused mediaUrl st config Hc Hac)
        as [H1 H2].
      rewrite H1, H2.
      split; intros H; inversion H; subst; cbn [mimeType url media_defaults];
        [exact Hogg | split; [exact Hogg | reflexivity]].
  - destruct (downloadVoiceNoteMedia_unconfigured mediaUrl st Hc) as [H1 H2].
    rewrite H1, H2. split; discriminate.
Qed.

Lemma getConfig_without_number (st : State X) :
  process_env "TWILIO_WHATSAPP_NUMBER" st = (Ok None, st) ->
  getConfig st = (Ok None, st).
Proof.
  intros Hn. unfold getConfig, bind.
  destruct (process_env_pure "TWILIO_ACCOUNT_SID" st) as [a ->].
  destruct (process_env_pure "TWILIO_AUTH_TOKEN" st) as [t ->].
  rewrite Hn. destruct a, t; reflexivity.
Qed.

(** X17. The second revision of [downloadMediaFile] reads the account and the
    token only. Without one of them it returns [null] and sends nothing.
    With both it sends one request, to the URL it was given, with these
    credentials and a timeout of 30 seconds, and returns the bytes, or
    [null] when the request is rejected; its second argument plays no
    part. When the WhatsApp number is not set the download works as
    well, although [downloadVoiceNoteMedia] then returns [null]. *)
Theorem downloadMediaFile_credentials
    (mediaUrl : string) (accessToken : option string) (st : State X) :
  (process_env "TWILIO_ACCOUNT_SID" st = (Ok None, st) \/
   process_env "TWILIO_AUTH_TOKEN" st = (Ok None, st) ->
   Rev2.downloadMediaFile mediaUrl accessToken st = (Ok None, st)) /\
  (forall username password,
     process_env "TWILIO_ACCOUNT_SID" st = (Ok (Some username), st) ->
     process_env "TWILIO_AUTH_TOKEN" st = (Ok (Some password), st) ->
     let config := {| auth_username := username; auth_password := password;
                      timeout := Some 30000 |} in
     let answer := axios_get mediaUrl config (world st) in
     Rev2.downloadMediaFile mediaUrl accessToken st =
       (Ok match answer.1 with
           | inl response => Some (data response)
           | inr _ => None
           end,
        {| env := env st; world := answer.2;
           trace := trace st ++ [Sent (AxiosGet mediaUrl config)] |})) /\
  (process_env "TWILIO_WHATSAPP_NUMBER" st = (Ok None, st) ->
   Rev2.downloadVoiceNoteMedia mediaUrl st = (Ok None, st)).
Proof.
  split; [| split].
  - intros H. unfold Rev2.downloadMediaFile, try_catch, bind.
    destruct (process_env_pure "TWILIO_ACCOUNT_SID" st) as [a Ha].
    destruct (process_env_pure "TWILIO_AUTH_TOKEN" st) as [t Ht].
    rewrite Ha, Ht. rewrite Ha, Ht in H.
    destruct H as [H | H]; inversion H; subst; [| destruct a]; reflexivity.
  - intros username password Hu Hp config answer.
    unfold Rev2.downloadMediaFile, try_catch, bind. rewrite Hu, Hp.
    fold config. unfold axios_get_request, send_request. fold answer.
    destruct answer as [[response | e] w]; reflexivity.
  - intros Hn.
    exact (proj2 (downloadVoiceNoteMedia_unconfigured mediaUrl st
                    (getConfig_without_number st Hn))).
Qed.

Lemma download_with_env_auth_run (url : string) (st : State X) :
  exists username password,
    process_env "TWILIO_ACCOUNT_SID" st = (Ok username, st) /\
    process_env "TWILIO_AUTH_TOKEN" st = (Ok password, st) /\
    let config := {| auth_username := or_default username "";
                     auth_password := or_default password "";
                     timeout := None |} in
    let answer := axios_get url config (world st) in
    try_catch (Rev1.download_with_env_auth url)
      (fun error => eval (JsOps.get message error) ;;; ret None)%js st
    = (Ok match answer.1 with
          | inl response => Some (data response)
          | inr _ => None
          end,
       {| env := env st; world := answer.2;
          trace := trace st ++ [Sent (AxiosGet url config)] |}).
Proof.
  destruct (process_env_pure "TWILIO_ACCOUNT_SID" st) as [u Hu].
  destruct (process_env_pure "TWILIO_AUTH_TOKEN" st) as [p Hp].
  exists u, p. split; [exact Hu | split; [exact Hp |]].
  intros config answer.
  unfold try_catch, Rev1.download_with_env_auth, bind. rewrite Hu, Hp.
  fold config. unfold axios_get_request, send_request. fold answer.
  destruct answer as [[response | e] w]; reflexivity.
Qed.

Lemma getConfig_credentials (st : State X) (config : TwilioConfig) :
  getConfig st = (Ok (Some config), st) ->
  forall st1 : State X, env st1 = env st ->
    process_env "TWILIO_ACCOUNT_SID" st1 = (Ok (Some (accountSid config)), st1) /\
    process_env "TWILIO_AUTH_TOKEN" st1 = (Ok (Some (authToken config)), st1) /\
    or_default (Some (accountSid config)) "" = accountSid config /\
    or_default (Some (authToken config)) "" = authToken config.
Proof.
  unfold getConfig, bind, process_env, ret. intros H st1 ->.
  destruct (env st !! "TWILIO_ACCOUNT_SID") as [a |]; [| discriminate].
  destruct (String.eqb a "") eqn:Ea; [discriminate |].
  destruct (env st !! "TWILIO_AUTH_TOKEN") as [t |]; [| discriminate].
  destruct (String.eqb t "") eqn:Et; [discriminate |].
  destruct (env st !! "TWILIO_WHATSAPP_NUMBER") as [w |]; [| discriminate].
  destruct (String.eqb w ""); [discriminate |].
  inversion H; subst. cbn [accountSid authToken or_default].
  rewrite Ea, Et. auto.
Qed.

(** X18. The first revision of [downloadMediaFile]. Without the Twilio
    configuration it downloads the URL it was given, with whatever
    credentials the environment has, an empty string for a missing one.
    With it, the client is built inside the [try]: an account SID that
    does not start with [AC] makes the call return [null] with nothing
    sent. With a client and a URL in which both identifiers are found, it
    asks for the metadata first, if the identifiers are valid in a path,
    and else returns [null] with nothing sent; when the request for the
    metadata is rejected it returns [null] without any download; when it
    is answered it downloads the [uri] of the metadata, with its first
    [.json] removed, and returns the bytes or [null]. *)
Theorem Rev1_downloadMediaFile_requests
    (mediaUrl : string) (accessToken : option string) (st : State X) :
  (forall username password,
     getConfig st = (Ok None, st) ->
     process_env "TWILIO_ACCOUNT_SID" st = (Ok username, st) ->
     process_env "TWILIO_AUTH_TOKEN" st = (Ok password, st) ->
     let config := {| auth_username := or_default username "";
                      auth_password := or_default password "";
                      timeout := None |} in
     let answer := axios_get mediaUrl config (world st) in
     Rev1.downloadMediaFile mediaUrl accessToken st =
       (Ok match answer.1 with
           | inl response => Some (data response)
           | inr _ => None
           end,
        {| env := env st; world := answer.2;
           trace := trace st ++ [Sent (AxiosGet mediaUrl config)] |})) /\
  (forall config,
     getConfig st = (Ok (Some config), st) ->
     Js.startsWith "AC" (accountSid config) = false ->
     Rev1.downloadMediaFile mediaUrl accessToken st = (Ok None, st)) /\
  (forall config mediaSid messageSid,
     getConfig st = (Ok (Some config), st) ->
     JsOps.match_media_sid mediaUrl = Some mediaSid ->
     JsOps.match_message_sid mediaUrl = Some messageSid ->
     fetch_is_sent config messageSid mediaSid = false ->
     Rev1.downloadMediaFile mediaUrl accessToken st = (Ok None, st)) /\
  (forall config mediaSid messageSid,
     getConfig st = (Ok (Some config), st) ->
     JsOps.match_media_sid mediaUrl = Some mediaSid ->
     JsOps.match_message_sid mediaUrl = Some messageSid ->
     fetch_is_sent config messageSid mediaSid = true ->
     let client := client_of config in
     let fetch := MediaFetch client messageSid mediaSid in
     (forall e w',
        media_fetch client messageSid mediaSid (world st) = (inr e, w') ->
        Rev1.downloadMediaFile mediaUrl accessToken st =
          (Ok None,
           {| env := env st; world := w'; trace := trace st ++ [Sent fetch] |})) /\
     (forall media w',
        media_fetch client messageSid mediaSid (world st) = (inl media, w') ->
        let auth := {| auth_username := accountSid config;
                       auth_password := authToken config;
                       timeout := None |} in
        let download := AxiosGet (JsOps.remove_json_suffix (uri media)) auth in
        let answer := axios_get (JsOps.remove_json_suffix (uri media)) auth w' in
        Rev1.downloadMediaFile mediaUrl accessToken st =
          (Ok match answer.1 with
              | inl response => Some (data response)
              | inr _ => None
              end,
           {| env := env st; world := answer.2;
              trace := (trace st ++ [Sent fetch]) ++ [Sent download] |}))).
Proof.
  split; [| split; [| split]].
  - intros username password Hc Hu Hp config answer.
    unfold Rev1.downloadMediaFile, try_catch. unfold bind at 1.
    rewrite (getTwilioClient_unconfigured _ Hc). cbv beta iota.
    destruct (download_with_env_auth_run mediaUrl st) as (u & p & Hu' & Hp' & Hrun).
    rewrite Hu in Hu'. rewrite Hp in Hp'. inversion Hu'; inversion Hp'; subst u p.
    exact Hrun.
  - intros config Hc Hac.
    unfold Rev1.downloadMediaFile, try_catch. unfold bind at 1.
    rewrite (getTwilioClient_refused _ _ Hc Hac). reflexivity.
  - intros config mediaSid messageSid Hc Hmedia Hmessage Hsent.
    destruct (Js.startsWith "AC" (accountSid config)) eqn:Hac.
    + unfold Rev1.downloadMediaFile, try_catch. unfold bind at 1.
      rewrite (getTwilioClient_configured _ _ Hc Hac), Hmedia, Hmessage.
      cbv beta iota. unfold bind at 1.
      rewrite client_media_fetch_refused; [reflexivity |].
      unfold fetch_is_sent in Hsent. rewrite Hac in Hsent. exact Hsent.
    + unfold Rev1.downloadMediaFile, try_catch. unfold bind at 1.
      rewrite (getTwilioClient_refused _ _ Hc Hac). reflexivity.
  - intros config mediaSid messageSid Hc Hmedia Hmessage Hsent client fetch.
    destruct (fetch_is_sent_valid _ _ _ Hsent) as [Hac Hsend]. fold client in Hsend.
    split.
    + intros e w' Hfetch.
      unfold Rev1.downloadMediaFile, try_catch. unfold bind at 1.
      rewrite (getTwilioClient_configured _ _ Hc Hac), Hmedia, Hmessage.
      cbv beta iota. unfold bind at 1. fold client.
      rewrite (client_media_fetch_rejected _ _ _ _ _ _ Hsend Hfetch). reflexivity.
    + intros media w' Hfetch auth download answer.
      unfold Rev1.downloadMediaFile, try_catch. unfold bind at 1.
      rewrite (getTwilioClient_configured _ _ Hc Hac), Hmedia, Hmessage.
      cbv beta iota. unfold bind at 1. fold client.
      rewrite (client_media_fetch_answered _ _ _ _ _ _ Hsend Hfetch).
      cbv beta iota.
      set (st1 := {| env := env st; world := w';
                     trace := trace st ++ [Sent (MediaFetch client messageSid mediaSid)] |}).
      destruct (getConfig_credentials st config Hc st1 eq_refl)
        as (Hu & Hp & Hdu & Hdp).
      destruct (download_with_env_auth_run (JsOps.remove_json_suffix (uri media)) st1)
        as (u & p & Hu' & Hp' & Hrun).
      rewrite Hu in Hu'. rewrite Hp in Hp'. inversion Hu'; inversion Hp'; subst u p.
      rewrite Hdu, Hdp in Hrun. unfold try_catch in Hrun. exact Hrun.
Qed.

End MediaFacts.

(** ** Reading the metadata *)

Lemma is_prefix_app (p q : list ascii) : JsOps.is_prefix p (p ++ q) = true.
Proof.
  induction p as [| c p IH]; [reflexivity |].
  cbn. rewrite Ascii.eqb_refl. exact IH.
Qed.

Lemma remove_first_occurrence (pat l t : list ascii) (c0 : ascii) (pat' : list ascii) :
  pat = c0 :: pat' ->
  forallb (fun c => negb (Ascii.eqb c0 c)) l = true ->
  JsOps.remove_first pat (l ++ pat ++ t) = l ++ t.
Proof.
  intros -> Hl. induction l as [| c l IH].
  - cbn [app JsOps.remove_first].
    change (c0 :: pat' ++ t) with ((c0 :: pat') ++ t).
    rewrite is_prefix_app. apply drop_app_length.
  - cbn [forallb] in Hl. apply andb_true_iff in Hl as [Hc Hl].
    apply negb_true_iff in Hc.
    cbn [app JsOps.remove_first JsOps.is_prefix]. rewrite Hc. cbn [andb].
    f_equal. apply IH, Hl.
Qed.

(** X19. [uri.replace(".json", "")] removes the first [.json] wherever it
    stands: from a [uri] that has no dot before it, the [.json] goes and
    what follows it stays. *)
Theorem remove_json_suffix_first_occurrence (base rest : string) :
  forallb (fun c => negb (Ascii.eqb "." c)) (Js.chars base) = true ->
  JsOps.remove_json_suffix (base +:+ ".json" +:+ rest) = base +:+ rest.
Proof.
  intros Hbase. unfold JsOps.remove_json_suffix.
  rewrite !chars_append.
  rewrite (remove_first_occurrence _ _ _ "."%char (Js.chars "json") eq_refl Hbase).
  rewrite <- chars_append. apply of_chars_chars.
Qed.

Lemma drop_ws_digit (c : ascii) (l : list ascii) :
  Js.is_digit c = true -> JsOps.drop_ws (c :: l) = c :: l.
Proof.
  intros Hc. cbn [JsOps.drop_ws].
  assert (JsOps.is_ws c = false) as ->; [| reflexivity].
  unfold Js.is_digit in Hc. unfold JsOps.is_ws. cbv zeta in Hc |- *.
  apply andb_true_iff in Hc as [H1 H2].
  apply Nat.leb_le in H1, H2.
  assert ((nat_of_ascii c <=? 13)%nat = false) as -> by (apply Nat.leb_gt; lia).
  assert ((nat_of_ascii c =? 32)%nat = false) as -> by (apply Nat.eqb_neq; lia).
  assert ((nat_of_ascii c =? 160)%nat = false) as -> by (apply Nat.eqb_neq; lia).
  now rewrite andb_false_r.
Qed.

Lemma take_digits_app (ds rest : list ascii) :
  forallb Js.is_digit ds = true ->
  match rest with [] => True | c :: _ => Js.is_digit c = false end ->
  JsOps.take_digits (ds ++ rest) = ds.
Proof.
  intros Hds Hrest. induction ds as [| d ds IH].
  - destruct rest as [| c rest]; [reflexivity |]. cbn. now rewrite Hrest.
  - cbn [forallb] in Hds. apply andb_true_iff in Hds as [Hd Hds].
    cbn. rewrite Hd, IH by exact Hds. reflexivity.
Qed.

Lemma digit_value_range (c : ascii) :
  Js.is_digit c = true -> 0 <= JsOps.digit_value c <= 9.
Proof.
  unfold Js.is_digit, JsOps.digit_value. cbv zeta.
  intros [H1 H2]%andb_true_iff. apply Nat.leb_le in H1, H2. lia.
Qed.

(** The digits [ds] write a number below [10 ^ length ds]. *)
Lemma decimal_range (ds : list ascii) :
  forallb Js.is_digit ds = true ->
  0 <= JsOps.decimal ds < 10 ^ Z.of_nat (length ds).
Proof.
  unfold JsOps.decimal.
  assert (H : forall acc, 0 <= acc -> forallb Js.is_digit ds = true ->
            0 <= fold_left (fun acc c => 10 * acc + JsOps.digit_value c) ds acc
              < (acc + 1) * 10 ^ Z.of_nat (length ds)).
  { induction ds as [| d ds IH]; intros acc Hacc Hds.
    - cbn. lia.
    - cbn [forallb] in Hds. apply andb_true_iff in Hds as [Hd Hds].
      apply digit_value_range in Hd.
      cbn [fold_left length].
      specialize (IH (10 * acc + JsOps.digit_value d) ltac:(lia) Hds).
      replace (Z.of_nat (S (length ds))) with (Z.of_nat (length ds) + 1) by lia.
      rewrite Z.pow_add_r by lia.
      assert (0 < 10 ^ Z.of_nat (length ds)) by (apply Z.pow_pos_nonneg; lia).
      nia. }
  intros Hds. specialize (H 0 ltac:(lia) Hds). lia.
Qed.

Lemma to_double_exact (n : Z) : n < 2 ^ 53 -> JsOps.to_double n = JsOps.Finite n.
Proof.
  intros Hn. unfold JsOps.to_double.
  now replace (n <? 2 ^ 53) with true by (symmetry; apply Z.ltb_lt; exact Hn).
Qed.

(** X20. [parseInt(s, 10)] of a string that starts with a digit is the
    Number value of the integer that its leading digits write, whatever
    follows them: that integer itself when it is below [2 ^ 53], as it is
    for up to 15 digits, and never a negative number; of a string that
    starts with a character that is no digit, no sign and no white space
    it is [NaN]. *)
Theorem parseInt10_leading_digits (ds rest : list ascii) :
  ds <> [] -> forallb Js.is_digit ds = true ->
  match rest with [] => True | c :: _ => Js.is_digit c = false end ->
  JsOps.parseInt10 (Js.of_chars (ds ++ rest)) = JsOps.to_double (JsOps.decimal ds) /\
  (JsOps.decimal ds < 2 ^ 53 ->
   JsOps.parseInt10 (Js.of_chars (ds ++ rest)) = JsOps.Finite (JsOps.decimal ds)) /\
  ((length ds <= 15)%nat ->
   JsOps.parseInt10 (Js.of_chars (ds ++ rest)) = JsOps.Finite (JsOps.decimal ds)) /\
  0 <= JsOps.decimal ds /\
  (forall c, Js.is_digit c = false -> JsOps.is_ws c = false ->
     c <> "-"%char -> c <> "+"%char ->
     JsOps.parseInt10 (Js.of_chars (c :: rest)) = JsOps.NaN).
Proof.
  intros Hne Hds Hrest.
  assert (Hvalue : JsOps.parseInt10 (Js.of_chars (ds ++ rest))
                   = JsOps.to_double (JsOps.decimal ds)).
  { unfold JsOps.parseInt10. rewrite chars_of_chars.
    destruct ds as [| d ds']; [contradiction |].
    pose proof Hds as Hd. cbn [forallb] in Hd. apply andb_true_iff in Hd as [Hd _].
    rewrite <- app_comm_cons, drop_ws_digit by exact Hd.
    assert (d <> "-"%char /\ d <> "+"%char) as [Hm Hp].
    { split; intros ->; discriminate Hd. }
    assert (Hsign :
      match d :: ds' ++ rest with
      | "-"%char :: l' => (true, l')
      | "+"%char :: l' => (false, l')
      | _ => (false, d :: ds' ++ rest)
      end = (false, d :: ds' ++ rest)).
    { destruct d as [[] [] [] [] [] [] [] []]; try reflexivity; congruence. }
    rewrite Hsign. rewrite app_comm_cons, take_digits_app by assumption.
    reflexivity. }
  pose proof (decimal_range ds Hds) as Hrange.
  split; [exact Hvalue |]. split; [| split; [| split; [lia |]]].
  - intros Hsmall. rewrite Hvalue. now apply to_double_exact.
  - intros Hlen. rewrite Hvalue. apply to_double_exact.
    assert (10 ^ Z.of_nat (length ds) <= 10 ^ 15)
      by (apply Z.pow_le_mono_r; lia).
    assert (10 ^ 15 < 2 ^ 53) by reflexivity. lia.
  - intros c Hc Hws Hm Hp. unfold JsOps.parseInt10. rewrite chars_of_chars.
    cbn [JsOps.drop_ws]. rewrite Hws.
    assert (Hsign :
      match c :: rest with
      | "-"%char :: l' => (true, l')
      | "+"%char :: l' => (false, l')
      | _ => (false, c :: rest)
      end = (false, c :: rest)).
    { destruct c as [[] [] [] [] [] [] [] []]; try reflexivity; congruence. }
    rewrite Hsign. cbn [JsOps.take_digits]. rewrite Hc. reflexivity.
Qed.

(** ** The store: keys, references and deletion *)

Section StoreMore.

Import Sql.

Lemma first_error_none {A} (check : A -> option Error) (l : list A) :
  first_error check l = None <-> forall a, In a l -> check a = None.
Proof.
  induction l as [| b l IH]; simpl.
  - split; [intros _ a [] | reflexivity].
  - destruct (check b) eqn:Eb.
    + split; [discriminate |]. intros H. rewrite <- Eb. apply H. now left.
    + rewrite IH. split.
      * intros H a [<- | Ha]; auto.
      * intros H a Ha. apply H. now right.
Qed.

Lemma violation_none (db : Db) :
  violation db = None <->
  (forall t, In t tables -> primary_key_error db t = None) /\
  (forall i, In i indexes -> index_error db i = None) /\
  (forall fk, In fk foreign_keys -> foreign_key_error db fk = None).
Proof.
  unfold violation. rewrite <- !first_error_none.
  destruct (first_error (primary_key_error db) tables);
    [split; [discriminate | intros (H & _); discriminate] |].
  destruct (first_error (index_error db) indexes);
    [split; [discriminate | intros (_ & H & _); discriminate] |].
  tauto.
Qed.

Lemma rows_of_insert_ne (db : Db) (table table' : string) (rows : list Row) :
  table <> table' -> rows_of (<[table := rows]> db) table' = rows_of db table'.
Proof. intros Hne. unfold rows_of. now rewrite lookup_insert_ne. Qed.

(** The parents of the rows that refer to a trial. *)
Lemma references_trial (db : Db) (r : Row) (v : Value) :
  violation db = None ->
  In r (rows_of db "voice_notes") ->
  r !! "free_trial_id" = Some v -> v <> Null ->
  exists parent,
    In parent (rows_of db "free_trials") /\ parent !! "id" = Some v.
Proof.
  intros Hv Hr Hfk Hnull.
  apply violation_none in Hv as (_ & _ & Hfks).
  specialize (Hfks _ (or_introl eq_refl)).
  unfold foreign_key_error in Hfks. cbn [fk_table fk_name] in Hfks.
  destruct (forallb _ (rows_of db "voice_notes")) eqn:Eall; [| discriminate].
  rewrite forallb_forall in Eall. specialize (Eall r Hr).
  unfold references, fk_value in Eall.
  cbn [fk_column fk_ref_table fk_ref_column] in Eall. rewrite Hfk in Eall.
  assert (Hp : has_parent
                 {| fk_name := "voice_notes_free_trial_id_free_trials_id_fk";
                    fk_table := "voice_notes"; fk_column := "free_trial_id";
                    fk_ref_table := "free_trials"; fk_ref_column := "id";
                    fk_on_delete_cascade := true |}
                 (rows_of db "free_trials") v = true).
  { destruct v; [congruence | exact Eall ..]. }
  unfold has_parent in Hp. apply existsb_exists in Hp as (parent & Hin & Hid).
  apply bool_decide_eq_true in Hid. eauto.
Qed.

(** X21. In every database the store can hold, a voice note refers to a
    trial that is stored. *)
Theorem voice_notes_refer_to_trials (db : Db) (r : Row) (trial : string) :
  reachable db ->
  r ∈ rows_of db "voice_notes" ->
  r !! "free_trial_id" = Some (Text trial) ->
  exists parent,
    parent ∈ rows_of db "free_trials" /\ parent !! "id" = Some (Text trial).
Proof.
  intros Hreach Hr Hfk. apply list_elem_of_In in Hr.
  destruct (references_trial db r (Text trial)
              (reachable_consistent db Hreach) Hr Hfk) as (parent & Hin & Hid);
    [discriminate |].
  exists parent. split; [now apply list_elem_of_In | exact Hid].
Qed.

Lemma key_of_id (r : Row) (id : Value) :
  id <> Null ->
  bool_decide (r !! "id" = Some id) = bool_decide (key_of ["id"] r = Some [id]).
Proof.
  intros Hnull. unfold key_of. simpl.
  destruct (r !! "id") as [v |] eqn:E; simpl.
  - destruct (decide (v = id)) as [-> | Hne].
    + rewrite bool_decide_eq_true_2 by reflexivity.
      destruct id; [congruence | ..]; now rewrite bool_decide_eq_true_2.
    + rewrite bool_decide_eq_false_2 by congruence.
      destruct v; simpl; unfold mret, option_ret; try reflexivity;
        rewrite bool_decide_eq_false_2; congruence.
  - reflexivity.
Qed.

(** X22. In every database the store can hold, no two rows of a table have
    the same [id]. *)
Theorem primary_keys_unique (db : Db) (t : Table) (id : Value) :
  reachable db -> In t tables -> id <> Null ->
  (length (List.filter (fun r => bool_decide (r !! "id" = Some id))
                       (rows_of db (tbl_name t))) <= 1)%nat.
Proof.
  intros Hreach Ht Hnull.
  apply reachable_consistent, violation_none in Hreach as (Hpk & _ & _).
  specialize (Hpk t Ht). unfold primary_key_error in Hpk.
  assert (Hkey : tbl_primary_key t = "id").
  { destruct Ht as [<- | [<- | []]]; reflexivity. }
  rewrite Hkey in Hpk.
  destruct (unique_holds ["id"] (rows_of db (tbl_name t))) eqn:Eu; [| discriminate].
  rewrite (List.filter_ext _ _ (fun r => key_of_id r id Hnull)).
  pose proof (filter_fmap_length (key_of ["id"])
                (fun x => bool_decide (x = Some [id]))
                (rows_of db (tbl_name t))) as Hlen.
  cbv beta in Hlen. rewrite <- Hlen.
  apply distinct_keys_once. exact Eu.
Qed.

Lemma distinct_keys_filter (key : Row -> option (list Value)) (p : Row -> bool)
    (rows : list Row) :
  distinct_keys (key <$> rows) = true ->
  distinct_keys (key <$> List.filter p rows) = true.
Proof.
  induction rows as [| r rows IH]; [reflexivity |].
  rewrite fmap_cons. cbn [List.filter].
  destruct (key r) as [k |] eqn:Ek; cbn [distinct_keys].
  - intros [Hnotin Hd]%andb_true_iff.
    destruct (p r); [| now apply IH].
    rewrite fmap_cons, Ek. cbn [distinct_keys].
    rewrite (IH Hd), andb_true_r.
    apply negb_true_iff, bool_decide_eq_false in Hnotin.
    apply negb_true_iff, bool_decide_eq_false. intros Hin. apply Hnotin.
    apply list_elem_of_fmap in Hin as (r' & Hr' & Hin).
    apply list_elem_of_fmap. exists r'. split; [exact Hr' |].
    apply list_elem_of_In in Hin. apply filter_In in Hin as [Hin _].
    now apply list_elem_of_In.
  - intros Hd. destruct (p r); [| now apply IH].
    rewrite fmap_cons, Ek. cbn [distinct_keys]. now apply IH.
Qed.

Lemma unique_holds_filter (cols : list string) (p : Row -> bool) (rows : list Row) :
  unique_holds cols rows = true -> unique_holds cols (List.filter p rows) = true.
Proof. apply distinct_keys_filter. Qed.

(** X23. Deleting a trial always succeeds, and takes the trial and exactly
    its voice notes out of the store. *)
Theorem delete_trial_cascades (db : Db) (trial : string) (now : Z) :
  reachable db ->
  exists db',
    exec (Delete "free_trials" (Text trial)) now db = inr db' /\
    rows_of db' "free_trials"
      = List.filter (fun r => negb (bool_decide (r !! "id" = Some (Text trial))))
                    (rows_of db "free_trials") /\
    rows_of db' "voice_notes"
      = List.filter
          (fun r => negb (bool_decide (r !! "free_trial_id" = Some (Text trial))))
          (rows_of db "voice_notes").
Proof.
  intros Hreach. pose proof (reachable_consistent db Hreach) as Hv.
  set (is_target := fun r : Row => bool_decide (r !! "id" = Some (Text trial))).
  set (deleted := List.filter is_target (rows_of db "free_trials")).
  set (kept := List.filter (fun r => negb (is_target r)) (rows_of db "free_trials")).
  set (fk := {| fk_name := "voice_notes_free_trial_id_free_trials_id_fk";
                fk_table := "voice_notes"; fk_column := "free_trial_id";
                fk_ref_table := "free_trials"; fk_ref_column := "id";
                fk_on_delete_cascade := true |}).
  set (keep := fun child : Row =>
                 match fk_value fk child with
                 | None => true
                 | Some v => negb (has_parent fk deleted v)
                 end).
  set (notes := List.filter keep (rows_of db "voice_notes")).
  set (db2 := <["voice_notes" := notes]> (<["free_trials" := kept]> db)).
  assert (Hexec : exec (Delete "free_trials" (Text trial)) now db = commit db2).
  { unfold exec.
    change (find_table "free_trials") with (Some free_trials).
    cbv beta iota zeta.
    change (tbl_primary_key free_trials) with "id".
    change (List.filter (fun fk => String.eqb (fk_ref_table fk) "free_trials")
                        foreign_keys) with [fk].
    cbn [fold_left]. unfold cascade.
    change (fk_on_delete_cascade fk) with true. cbv iota.
    change (fk_table fk) with "voice_notes".
    rewrite rows_of_insert_ne by discriminate. reflexivity. }
  assert (Htrials : rows_of db2 "free_trials" = kept).
  { unfold db2. rewrite rows_of_insert_ne by discriminate. apply rows_of_insert. }
  assert (Hnotes : rows_of db2 "voice_notes" = notes).
  { unfold db2. apply rows_of_insert. }
  (* the children that stay are those of the other trials *)
  assert (Hkeep : forall r, In r (rows_of db "voice_notes") ->
            keep r = negb (bool_decide (r !! "free_trial_id" = Some (Text trial)))).
  { intros r Hr. unfold keep, fk_value. change (fk_column fk) with "free_trial_id".
    destruct (r !! "free_trial_id") as [v |] eqn:Efk;
      [| rewrite bool_decide_eq_false_2 by discriminate; reflexivity].
    assert (Hcase : forall v', v = v' -> v' <> Null ->
              negb (has_parent fk deleted v')
              = negb (bool_decide (Some v' = Some (Text trial)))).
    { intros v' <- Hnull. f_equal.
      destruct (decide (v = Text trial)) as [-> | Hne].
      - rewrite bool_decide_eq_true_2 by reflexivity.
        destruct (references_trial db r (Text trial) Hv Hr Efk)
          as (parent & Hin & Hid); [discriminate |].
        unfold has_parent. apply existsb_exists. exists parent. split.
        + apply filter_In. split; [exact Hin |].
          unfold is_target. now apply bool_decide_eq_true_2.
        + now apply bool_decide_eq_true_2.
      - rewrite bool_decide_eq_false_2 by congruence.
        apply not_true_is_false. intros Hp. unfold has_parent in Hp.
        apply existsb_exists in Hp as (parent & Hin & Hid).
        apply bool_decide_eq_true in Hid. change (fk_ref_column fk) with "id" in Hid.
        apply filter_In in Hin as [_ Ht]. unfold is_target in Ht.
        apply bool_decide_eq_true in Ht. congruence. }
    destruct v; [rewrite bool_decide_eq_false_2 by discriminate; reflexivity | ..];
      now apply Hcase. }
  assert (Hv2 : violation db2 = None).
  { apply violation_none in Hv as (Hpk & Hidx & Hfk).
    apply violation_none. split; [| split].
    - intros t Ht. specialize (Hpk t Ht). unfold primary_key_error in *.
      destruct (unique_holds _ (rows_of db (tbl_name t))) eqn:Eu; [| discriminate].
      destruct Ht as [<- | [<- | []]].
      + change (tbl_name free_trials) with "free_trials" in *. rewrite Htrials.
        unfold kept. now rewrite unique_holds_filter.
      + change (tbl_name voice_notes) with "voice_notes" in *. rewrite Hnotes.
        unfold notes. now rewrite unique_holds_filter.
    - intros i Hi. specialize (Hidx i Hi). unfold index_error in *.
      destruct Hi as [<- | [<- | [<- | [<- | [<- | []]]]]]; try reflexivity.
      change (idx_unique voice_notes_trial_question_idx) with true in *.
      change (idx_table voice_notes_trial_question_idx) with "voice_notes" in *.
      cbn [negb orb] in *. rewrite Hnotes.
      destruct (unique_holds _ (rows_of db "voice_notes")) eqn:Eu; [| discriminate].
      unfold notes. now rewrite unique_holds_filter.
    - intros fk' [<- | []]. fold fk. unfold foreign_key_error.
      change (fk_table fk) with "voice_notes". rewrite Hnotes.
      assert (forallb (references db2 fk) notes = true) as ->; [| reflexivity].
      apply forallb_forall. intros r Hr. unfold notes in Hr.
      apply filter_In in Hr as [Hr Hkept].
      unfold references. change (fk_ref_table fk) with "free_trials".
      rewrite Htrials. unfold keep in Hkept.
      destruct (fk_value fk r) as [v |] eqn:Efk; [| reflexivity].
      apply negb_true_iff in Hkept.
      unfold fk_value in Efk. change (fk_column fk) with "free_trial_id" in Efk.
      destruct (r !! "free_trial_id") as [v0 |] eqn:E0; [| discriminate].
      assert (v0 = v /\ v <> Null) as [-> Hnull].
      { destruct v0; inversion Efk; subst; split; congruence. }
      destruct (references_trial db r v
                  (proj2 (violation_none db) (conj Hpk (conj Hidx Hfk))) Hr E0 Hnull)
        as (parent & Hin & Hid).
      unfold has_parent. apply existsb_exists. exists parent. split.
      + unfold kept. apply filter_In. split; [exact Hin |].
        apply negb_true_iff, not_true_is_false. intros Ht.
        assert (has_parent fk deleted v = true); [| congruence].
        unfold has_parent. apply existsb_exists. exists parent. split.
        * unfold deleted. apply filter_In. auto.
        * now apply bool_decide_eq_true_2.
      + now apply bool_decide_eq_true_2. }
  exists db2. split; [| split].
  - rewrite Hexec. unfold commit. now rewrite Hv2.
  - rewrite Htrials. reflexivity.
  - rewrite Hnotes. unfold notes. apply List.filter_ext_in. exact Hkeep.
Qed.

Lemma build_columns_null (now : Z) (values : list (string * Value))
    (cols : list Column) (c : Column) :
  In c cols -> col_not_null c = true -> column_value now values c = Null ->
  exists e, build_columns now values cols = inl e.
Proof.
  intros Hin Hnn Hnull. induction cols as [| c0 cols IH]; [destruct Hin |].
  cbn [build_columns].
  destruct (coerce (col_type c0) (column_value now values c0)) as [v |] eqn:Ec;
    [| eauto].
  destruct (col_not_null c0 && bool_decide (v = Null)) eqn:En; [eauto |].
  destruct Hin as [-> | Hin].
  - rewrite Hnull in Ec. cbn in Ec. inversion Ec; subst v.
    rewrite Hnn, bool_decide_eq_true_2 in En by reflexivity. discriminate.
  - destruct (IH Hin) as [e ->]. eauto.
Qed.

(** X24. A row needs a value for every column that is [NOT NULL] and has no
    default: an [INSERT] that gives such a column no value, or [NULL], is
    refused and leaves the store as it was. *)
Theorem insert_requires_not_null_columns
    (t : Table) (c : Column) (values : list (string * Value)) (now : Z) (db : Db) :
  In t tables -> In c (tbl_columns t) -> col_not_null c = true ->
  column_value now values c = Null ->
  exists e, exec (Insert (tbl_name t) values) now db = inl e.
Proof.
  intros Ht Hc Hnn Hnull. unfold exec.
  assert (find_table (tbl_name t) = Some t) as ->.
  { destruct Ht as [<- | [<- | []]]; reflexivity. }
  unfold build_row.
  destruct (List.find _ values); [eauto |].
  destruct (bool_decide (NoDup values.*1)); [| eauto].
  destruct (build_columns_null now values _ c Hc Hnn Hnull) as [e ->]. eauto.
Qed.

(** X25. A phone number that [validateE164] accepts fits the phone columns
    of a trial as it is: nothing of it is cut off. *)
Theorem validated_phone_fits_column (phone : string) (c : Column) :
  validateE164 phone = true ->
  In c (tbl_columns free_trials) ->
  col_name c = "customer_phone" \/ col_name c = "storyteller_phone" ->
  coerce (col_type c) (Text phone) = Some (Text phone).
Proof.
  intros Hvalid Hc Hname. unfold validateE164 in Hvalid.
  apply andb_true_iff in Hvalid as [[_ _]%andb_true_iff Hlen].
  apply Z.leb_le in Hlen. unfold Js.strlen in Hlen.
  assert (Hty : col_type c = Varchar (Some 20%nat)).
  { cbn in Hc.
    repeat (destruct Hc as [<- | Hc];
            [try reflexivity; destruct Hname; discriminate |]).
    destruct Hc. }
  rewrite Hty. cbn [coerce]. unfold char_length.
  assert ((String.length phone <=? 20)%nat = true) as ->; [| reflexivity].
  apply Nat.leb_le. lia.
Qed.

End StoreMore.

(** ** The star rating *)

Section StarRatingFacts.

Import StarRating.

(** X26. The filled stars are the first ones: as many as the rating on
    display, none when it is below 1, all five when it is above 5. *)
Theorem filled_stars_are_a_prefix (hoverRating value : Z) :
  let n := Z.to_nat (Z.min 5 (Z.max 0 (displayRating hoverRating value))) in
  filled (render hoverRating value)
  = replicate n true ++ replicate (5 - n) false.
Proof.
  intros n. subst n. unfold render. cbn [filled].
  generalize (displayRating hoverRating value) as d. intros d.
  assert (Hd : d <= 0 \/ d = 1 \/ d = 2 \/ d = 3 \/ d = 4 \/ 5 <= d) by lia.
  destruct Hd as [Hd | [-> | [-> | [-> | [-> | Hd]]]]]; try reflexivity.
  - replace (Z.min 5 (Z.max 0 d)) with 0 by lia.
    cbn [fmap list_fmap].
    rewrite !(proj2 (Z.leb_gt _ _)) by lia. reflexivity.
  - replace (Z.min 5 (Z.max 0 d)) with 5 by lia.
    cbn [fmap list_fmap].
    rewrite !(proj2 (Z.leb_le _ _)) by lia. reflexivity.
Qed.

Lemma ratingLabels_some (n : Z) : 1 <= n <= 5 -> ratingLabels n <> None.
Proof.
  intros Hn.
  assert (H : n = 1 \/ n = 2 \/ n = 3 \/ n = 4 \/ n = 5) by lia.
  destruct H as [-> | [-> | [-> | [-> | ->]]]]; discriminate.
Qed.

Lemma step_invariant (a : Action) (s : Z * list Z) :
  match a with Click r | MouseEnter r | MouseLeave r => 1 <= r <= 5 end ->
  0 <= s.1 <= 5 /\ Forall (fun r => 1 <= r <= 5) s.2 ->
  0 <= (step a s).1 <= 5 /\ Forall (fun r => 1 <= r <= 5) (step a s).2.
Proof.
  destruct s as [h cs]. intros Ha [Hh Hcs].
  destruct a as [r | r | r]; cbn [step fst snd]; split; try assumption; try lia.
  apply Forall_app. split; [exact Hcs | now constructor].
Qed.

(** X27. With a value from 0 to 5, whatever the user does to the five
    stars, the hover rating stays from 0 to 5, every rating passed to
    [onChange] is from 1 to 5, and the label, when it is shown, has a
    text; it is hidden exactly when nothing is hovered and the value
    is 0. *)
Theorem label_always_has_text (value : Z) (actions : list Action) :
  0 <= value <= 5 ->
  Forall (fun a => match a with
                   | Click r | MouseEnter r | MouseLeave r => 1 <= r <= 5
                   end) actions ->
  let s := fold_left (fun s a => step a s) actions (0, []) in
  0 <= s.1 <= 5 /\
  Forall (fun r => 1 <= r <= 5) s.2 /\
  label (render s.1 value) <> Some None /\
  (label (render s.1 value) = None <-> s.1 = 0 /\ value = 0).
Proof.
  intros Hvalue Hactions s.
  assert (Hinv : 0 <= s.1 <= 5 /\ Forall (fun r => 1 <= r <= 5) s.2).
  { subst s.
    assert (Hgen : forall s0 : Z * list Z,
              0 <= s0.1 <= 5 /\ Forall (fun r => 1 <= r <= 5) s0.2 ->
              0 <= (fold_left (fun s a => step a s) actions s0).1 <= 5 /\
              Forall (fun r => 1 <= r <= 5)
                     (fold_left (fun s a => step a s) actions s0).2).
    { induction Hactions as [| a actions Ha _ IH]; intros s0 Hs0; [exact Hs0 |].
      cbn [fold_left]. apply IH. now apply step_invariant. }
    apply Hgen. cbn [fst snd]. split; [lia | constructor]. }
  destruct Hinv as [Hh Hcs]. split; [exact Hh | split; [exact Hcs |]].
  unfold render. cbn [label]. unfold displayRating.
  destruct (s.1 =? 0) eqn:E0.
  - apply Z.eqb_eq in E0. destruct (0 <? value) eqn:Ev.
    + apply Z.ltb_lt in Ev. split.
      * intros H. inversion H as [Hl]. revert Hl. apply ratingLabels_some. lia.
      * split; [discriminate | lia].
    + apply Z.ltb_ge in Ev. split; [discriminate |].
      split; [intros _; lia | reflexivity].
  - apply Z.eqb_neq in E0.
    assert ((0 <? s.1) = true) as -> by (apply Z.ltb_lt; lia).
    split.
    + intros H. inversion H as [Hl]. revert Hl. apply ratingLabels_some. lia.
    + split; [discriminate | lia].
Qed.

Lemma fold_step_hover (actions : list Action) (h : Z) (cs cs' : list Z) :
  (fold_left (fun s a => step a s) actions (h, cs)).1
  = (fold_left (fun s a => step a s) actions (h, cs')).1.
Proof.
  revert h cs cs'. induction actions as [| a actions IH]; intros h cs cs';
    [reflexivity |].
  cbn [fold_left]. destruct a as [r | r | r]; cbn [step]; apply IH.
Qed.

Lemma fold_step_clicks (actions : list Action) (s : Z * list Z) :
  (fold_left (fun s a => step a s) actions s).2
  = s.2 ++ omap (fun a => match a with Click r => Some r | _ => None end) actions /\
  (fold_left (fun s a => step a s) actions s).1
  = (fold_left (fun s a => step a s)
       (List.filter (fun a => match a with Click _ => false | _ => true end) actions)
       s).1.
Proof.
  revert s. induction actions as [| a actions IH]; intros [h cs].
  - cbn. now rewrite app_nil_r.
  - cbn [fold_left]. destruct (IH (step a (h, cs))) as [IH1 IH2].
    rewrite IH1, IH2.
    destruct a as [r | r | r]; cbn [step snd fst omap List.filter fold_left].
    + split; [now rewrite <- app_assoc | apply fold_step_hover].
    + split; reflexivity.
    + split; reflexivity.
Qed.

(** X28. A click only reports: the ratings passed to [onChange] are those
    of the clicks, in order, and the hover rating, hence what is shown
    for a given value, is the same as without the clicks. *)
Theorem clicks_only_report (value : Z) (actions : list Action) (s : Z * list Z) :
  let after := fold_left (fun s a => step a s) actions s in
  let hovers :=
    List.filter (fun a => match a with Click _ => false | _ => true end) actions in
  after.2
    = s.2 ++ omap (fun a => match a with Click r => Some r | _ => None end) actions /\
  render after.1 value
    = render (fold_left (fun s a => step a s) hovers s).1 value.
Proof.
  intros after hovers. destruct (fold_step_clicks actions s) as [H1 H2].
  split; [exact H1 |]. unfold after, hovers. now rewrite H2.
Qed.

End StarRatingFacts.

(** ** The further theorems on the sample world *)

Lemma retryWithBackoff_returns_first_success_sample :
  retryWithBackoff Sample.send_hello 3 1000 (Sample.start [Sample.overloaded])
  = (Ok Sample.queued,
     {| env := Sample.configured; world := [];
        trace := [Sent (MessagesCreate Sample.client Sample.hello); Slept 1000;
                  Sent (MessagesCreate Sample.client Sample.hello)] |}).
Proof.
  apply (retryWithBackoff_returns_first_success Sample.send_hello 3 1000
           (Sample.start [Sample.overloaded]) 1).
  - lia.
  - lia.
  - intros [| j] Hj; [vm_compute; reflexivity | lia].
  - vm_compute; reflexivity.
Defined.

Lemma retryWithBackoff_nullish_rejection_sample :
  retryWithBackoff Scenario.reject_undefined 3 1000 (Sample.start [])
  = (Throw (ThrownErr (JsOps.TypeError "Cannot read properties of undefined")),
     Sample.start []).
Proof.
  apply (retryWithBackoff_nullish_rejection Scenario.reject_undefined 3 1000
           (Sample.start []) (Sample.start []) JUndefined).
  - lia.
  - left; reflexivity.
  - reflexivity.
Defined.

Lemma error_without_status_judged_by_code_sample :
  transient (ThrownErr Scenario.connection_reset) = Some false.
Proof.
  destruct (error_without_status_judged_by_code (P := Sample.scripted)
              Scenario.connection_reset) as [Hstring _].
  - reflexivity.
  - apply (Hstring "ECONNRESET"); reflexivity.
Defined.

Lemma retryWithBackoff_total_delay_sample :
  exists (retries : nat) (delays : list Z),
    Z.of_nat retries <= 3 /\
    sleeps (trace (retryWithBackoff Sample.send_hello 3 1000
                     (Sample.start [Sample.overloaded; Sample.overloaded])).2)
      = sleeps (trace (Sample.start [Sample.overloaded; Sample.overloaded]))
        ++ delays /\
    length delays = retries /\
    foldr Z.add 0 delays = 1000 * (2 ^ Z.of_nat retries - 1) /\
    foldr Z.add 0 delays <= 1000 * (2 ^ 3 - 1).
Proof.
  apply (retryWithBackoff_total_delay Sample.send_hello 3 1000
           (Sample.start [Sample.overloaded; Sample.overloaded])).
  - lia.
  - lia.
  - intros s.
    change (Sample.send_hello s)
      with (send_request (MessagesCreate Sample.client Sample.hello)
              (messages_create Sample.client Sample.hello) s).
    rewrite (proj2 (send_request_state _ _ s)).
    rewrite sleeps_app. simpl. apply app_nil_r.
Defined.

Lemma sids_are_path_segments_sample :
  JsOps.match_media_sid Scenario.media_url_with_query = Some "ME1?size=full" /\
  JsOps.match_media_sid_q Scenario.media_url_with_query = Some "ME1" /\
  JsOps.match_message_sid Scenario.media_url_with_query = Some "MM1".
Proof.
  apply (sids_are_path_segments (Js.chars "https:")
           [ []; Js.chars "api.twilio.com"; Js.chars "2010-04-01";
             Js.chars "Accounts"; Js.chars "AC1"; Js.chars "Messages";
             Js.chars "MM1"; Js.chars "Media"; Js.chars "ME1?size=full" ]).
  - reflexivity.
  - reflexivity.
Defined.

Lemma twilio_media_url_sids_sample :
  JsOps.match_media_sid Sample.media_url = Some "ME1" /\
  JsOps.match_media_sid_q Sample.media_url = Some "ME1" /\
  JsOps.match_message_sid Sample.media_url = Some "MM1".
Proof.
  apply (twilio_media_url_sids "AC1" "MM1" "ME1").
  - reflexivity.
  - reflexivity.
  - reflexivity.
  - discriminate.
  - discriminate.
  - discriminate.
Defined.

Lemma downloadVoiceNoteMedia_metadata_request_sample :
  (trace (Rev1.downloadVoiceNoteMedia Sample.media_url (Sample.start [])).2
     = [Sent (MediaFetch Sample.client "ME1" "ME1")] /\
   trace (Rev2.downloadVoiceNoteMedia Sample.media_url (Sample.start [])).2
     = [Sent (MediaFetch Sample.client "MM1" "ME1")]) /\
  (Rev1.downloadVoiceNoteMedia Sample.media_url Scenario.start_misconfigured
     = (Ok (Some (media_defaults Sample.media_url)), Scenario.start_misconfigured) /\
   Rev2.downloadVoiceNoteMedia Sample.media_url Scenario.start_misconfigured
     = (Ok (Some (media_defaults Sample.media_url)), Scenario.start_misconfigured)).
Proof.
  split.
  - destruct (downloadVoiceNoteMedia_metadata_request "AC1" "MM1" "ME1"
                (Sample.start []) Sample.twilio_config) as [Hsent _].
    + reflexivity.
    + reflexivity.
    + reflexivity.
    + discriminate.
    + discriminate.
    + discriminate.
    + vm_compute; reflexivity.
    + apply Hsent; reflexivity.
  - destruct (downloadVoiceNoteMedia_metadata_request "AC1" "MM1" "ME1"
                Scenario.start_misconfigured
                {| accountSid := "XX1"; authToken := "secret";
                   whatsappNumber := "+14155238886" |}) as [_ Hunsent].
    + reflexivity.
    + reflexivity.
    + reflexivity.
    + discriminate.
    + discriminate.
    + discriminate.
    + vm_compute; reflexivity.
    + apply Hunsent. reflexivity.
Defined.

Lemma remove_json_suffix_first_occurrence_sample :
  JsOps.remove_json_suffix (uri Sample.ogg)
  = "/2010-04-01/Accounts/AC1/Messages/MM1/Media/ME1".
Proof.
  apply (remove_json_suffix_first_occurrence
           "/2010-04-01/Accounts/AC1/Messages/MM1/Media/ME1" "").
  reflexivity.
Defined.

Lemma parseInt10_leading_digits_sample :
  JsOps.parseInt10 "4096 bytes" = JsOps.Finite 4096 /\
  JsOps.parseInt10 "9007199254740993" = JsOps.Finite 9007199254740992 /\
  JsOps.parseInt10 "n bytes" = JsOps.NaN.
Proof.
  split; [| split].
  - destruct (parseInt10_leading_digits (Js.chars "4096") (Js.chars " bytes"))
      as (_ & _ & Hshort & _).
    + discriminate.
    + reflexivity.
    + reflexivity.
    + apply Hshort. simpl. lia.
  - destruct (parseInt10_leading_digits (Js.chars "9007199254740993") [])
      as (Hvalue & _).
    + discriminate.
    + reflexivity.
    + exact I.
    + transitivity (JsOps.to_double (JsOps.decimal (Js.chars "9007199254740993")));
        [exact Hvalue | vm_compute; reflexivity].
  - destruct (parseInt10_leading_digits (Js.chars "4096") (Js.chars " bytes"))
      as (_ & _ & _ & _ & Hother).
    + discriminate.
    + reflexivity.
    + reflexivity.
    + apply (Hother "n"%char);
        [reflexivity | reflexivity | discriminate | discriminate].
Defined.

Section StoreMoreSamples.

Import Sql.

Lemma db_note_reachable : reachable Sample.db_note.
Proof.
  apply (reachable_exec (Insert "voice_notes" (Sample.note_values "v1" 0)) 7
           Sample.db_trial);
    [apply db_trial_reachable | vm_compute; reflexivity].
Qed.

Lemma voice_notes_refer_to_trials_sample :
  exists parent,
    parent ∈ rows_of Sample.db_note "free_trials" /\
    parent !! "id" = Some (Text "t1").
Proof.
  apply (voice_notes_refer_to_trials Sample.db_note
           (match rows_of Sample.db_note "voice_notes" with
            | r :: _ => r
            | [] => ∅
            end) "t1").
  - apply db_note_reachable.
  - vm_compute. apply list_elem_of_here.
  - vm_compute; reflexivity.
Defined.

Lemma primary_keys_unique_sample :
  (length (List.filter (fun r => bool_decide (r !! "id" = Some (Text "v1")))
                       (rows_of Sample.db_note "voice_notes")) <= 1)%nat.
Proof.
  apply (primary_keys_unique Sample.db_note voice_notes (Text "v1")).
  - apply db_note_reachable.
  - simpl; auto.
  - discriminate.
Defined.

Lemma delete_trial_cascades_sample :
  exists db',
    exec (Delete "free_trials" (Text "t1")) 9 Sample.db_note = inr db' /\
    rows_of db' "free_trials"
      = List.filter (fun r => negb (bool_decide (r !! "id" = Some (Text "t1"))))
                    (rows_of Sample.db_note "free_trials") /\
    rows_of db' "voice_notes"
      = List.filter
          (fun r => negb (bool_decide (r !! "free_trial_id" = Some (Text "t1"))))
          (rows_of Sample.db_note "voice_notes").
Proof.
  apply (delete_trial_cascades Sample.db_note "t1" 9).
  apply db_note_reachable.
Defined.

Lemma insert_requires_not_null_columns_sample :
  exists e, exec (Insert "free_trials" Scenario.incomplete_trial) 5 ∅ = inl e.
Proof.
  apply (insert_requires_not_null_columns free_trials
           (col "customer_phone" (Varchar (Some 20%nat)) None true)
           Scenario.incomplete_trial 5 ∅).
  - simpl; auto.
  - simpl; auto.
  - reflexivity.
  - reflexivity.
Defined.

Lemma validated_phone_fits_column_sample :
  coerce (Varchar (Some 20%nat)) (Text "919876543210") = Some (Text "919876543210").
Proof.
  apply (validated_phone_fits_column "919876543210"
           (col "customer_phone" (Varchar (Some 20%nat)) None true)).
  - reflexivity.
  - simpl; auto.
  - left; reflexivity.
Defined.

End StoreMoreSamples.

Lemma label_always_has_text_sample :
  0 <= Scenario.after_hover_and_click.1 <= 5 /\
  Forall (fun r => 1 <= r <= 5) Scenario.after_hover_and_click.2 /\
  StarRating.label (StarRating.render Scenario.after_hover_and_click.1 3)
    <> Some None /\
  (StarRating.label (StarRating.render Scenario.after_hover_and_click.1 3) = None
   <-> Scenario.after_hover_and_click.1 = 0 /\ 3 = 0).
Proof.
  apply (label_always_has_text 3 Scenario.hover_and_click).
  - lia.
  - repeat constructor; lia.
Defined.

Lemma sendTextMessage_single_attempt_sample :
  sendTextMessage "not a number" "hello" (Sample.start [])
  = (Ok true,
     {| env := Sample.configured; world := [];
        trace := [Sent (MessagesCreate Sample.client
                          {| msg_from := "whatsapp:14155238886";
                             msg_to := "whatsapp:+not a number";
                             msg_body := "hello" |})] |})
  /\
  sendTextMessage "not a number" "hello" Scenario.start_misconfigured
  = (Throw (ThrownErr (JsOps.Error "accountSid must start with AC")),
     Scenario.start_misconfigured).
Proof.
  split.
  - destruct (sendTextMessage_single_attempt "not a number" "hello"
                (Sample.start [])) as (_ & Hconfigured & _).
    apply (Hconfigured Sample.twilio_config).
    + vm_compute; reflexivity.
    + reflexivity.
    + reflexivity.
  - destruct (sendTextMessage_single_attempt "not a number" "hello"
                Scenario.start_misconfigured) as (_ & _ & Hrefused & _).
    apply (Hrefused {| accountSid := "XX1"; authToken := "secret";
                       whatsappNumber := "+14155238886" |}).
    + vm_compute; reflexivity.
    + reflexivity.
Defined.

Lemma toNumber_has_plus_sample :
  toNumber "919876543210" = "whatsapp:+919876543210".
Proof.
  destruct (toNumber_has_plus "919876543210") as [_ Hvalid].
  apply Hvalid. reflexivity.
Defined.

Lemma downloadVoiceNoteMedia_record_sample :
  mimeType {| url := Sample.media_url; mimeType := "audio/ogg"; sha256 := "";
              fileSize := JsOps.Finite 4 |} <> "" /\
  url {| url := Sample.media_url; mimeType := "audio/ogg"; sha256 := "";
         fileSize := JsOps.Finite 4 |} = Sample.media_url.
Proof.
  destruct (downloadVoiceNoteMedia_record Sample.media_url (Sample.start [])
              {| env := Sample.configured; world := [];
                 trace := [Sent (MediaFetch Sample.client "MM1" "ME1")] |}
              {| url := Sample.media_url; mimeType := "audio/ogg"; sha256 := "";
                 fileSize := JsOps.Finite 4 |}) as [_ Hsecond].
  apply Hsecond. vm_compute; reflexivity.
Defined.

Lemma downloadMediaFile_credentials_sample :
  Rev2.downloadMediaFile Sample.media_url None (Sample.start [])
  = (Ok (Some (data Sample.audio)),
     {| env := Sample.configured; world := [];
        trace := [Sent (AxiosGet Sample.media_url
                          {| auth_username := "AC1"; auth_password := "secret";
                             timeout := Some 30000 |})] |}).
Proof.
  destruct (downloadMediaFile_credentials Sample.media_url None (Sample.start []))
    as (_ & Hboth & _).
  apply (Hboth "AC1" "secret").
  - vm_compute; reflexivity.
  - vm_compute; reflexivity.
Defined.

Lemma Rev1_downloadMediaFile_requests_sample :
  Rev1.downloadMediaFile Sample.media_url None (Sample.start [Sample.not_found])
  = (Ok None,
     {| env := Sample.configured; world := [];
        trace := [Sent (MediaFetch Sample.client "MM1" "ME1")] |})
  /\
  Rev1.downloadMediaFile Sample.media_url None Scenario.start_misconfigured
  = (Ok None, Scenario.start_misconfigured)
  /\
  Rev1.downloadMediaFile Scenario.media_url_with_query None (Sample.start [])
  = (Ok None, Sample.start []).
Proof.
  split; [| split].
  - destruct (Rev1_downloadMediaFile_requests Sample.media_url None
                (Sample.start [Sample.not_found])) as (_ & _ & _ & Hconfigured).
    destruct (Hconfigured Sample.twilio_config "ME1" "MM1") as [Hrejected _].
    + vm_compute; reflexivity.
    + vm_compute; reflexivity.
    + vm_compute; reflexivity.
    + reflexivity.
    + apply (Hrejected Sample.not_found ([] : list JsError)).
      vm_compute; reflexivity.
  - destruct (Rev1_downloadMediaFile_requests Sample.media_url None
                Scenario.start_misconfigured) as (_ & Hrefused & _).
    apply (Hrefused {| accountSid := "XX1"; authToken := "secret";
                       whatsappNumber := "+14155238886" |}).
    + vm_compute; reflexivity.
    + reflexivity.
  - destruct (Rev1_downloadMediaFile_requests Scenario.media_url_with_query None
                (Sample.start [])) as (_ & _ & Hinvalid & _).
    apply (Hinvalid Sample.twilio_config "ME1?size=full" "MM1").
    + vm_compute; reflexivity.
    + vm_compute; reflexivity.
    + vm_compute; reflexivity.
    + reflexivity.
Defined.
